(** * lesson-counter: schedule ingestion and violation detection

    A shallow embedding of the Go packages [domain] (lesson model and
    validator) and [infrastructure] (remote group-schedule parser, tabular
    individual-schedule parser, lessons repository), with the properties
    of the natural-language specification stated and proved over it.

    Modelling conventions.
    - Go [int] is a 64-bit two's complement integer: values are [Z] and every
      arithmetic operation is followed by [wrap].
    - Go [string] is a byte string: Rocq's [string].
    - Go [map] is stdpp's [gmap] (a map used as a set is a [gset]); ranging
      over a map visits its entries in an order the language leaves
      unspecified, which is the section variable [range_order], constrained
      only to permute the entries.
    - [time.Time] is reduced to the civil fields the program reads. *)

From stdpp Require Import gmap strings list fin_maps sorting pretty.
From Stdlib Require Import ZArith Lia.

Local Open Scope Z_scope.

(** ** Go machine integers *)

Module GoInt.

Definition int_min : Z := - 2 ^ 63.
Definition int_max : Z := 2 ^ 63 - 1.

(** Two's complement wrap-around of a mathematical integer to [int]. *)
Definition wrap (z : Z) : Z := (z + 2 ^ 63) mod 2 ^ 64 - 2 ^ 63.

Definition in_range (z : Z) : Prop := int_min ≤ z ≤ int_max.

Definition add (a b : Z) : Z := wrap (a + b).
Definition sub (a b : Z) : Z := wrap (a - b).
Definition mul (a b : Z) : Z := wrap (a * b).

(** [len(x)] of a slice or map. *)
Definition len (n : nat) : Z := wrap (Z.of_nat n).

End GoInt.

(** ** Package domain: the lesson model *)

Module domain.

(** [time.Time], reduced to civil date and wall clock (every time of the
    program is in UTC and has zero seconds). *)
Record time_Time := mkTime {
  t_Year : Z;
  t_Month : Z;
  t_Day : Z;
  t_Hour : Z;
  t_Minute : Z
}.

(** The zero value [time.Time{}]: January 1, year 1, 00:00. *)
Definition zeroTime : time_Time := mkTime 1 1 1 0 0.

(** [appendInt] of package time: decimal, sign first, zero-padded to
    [width] digits. *)
Definition appendInt (x : Z) (width : nat) : string :=
  let digits := pretty (Z.abs x) in
  (if x <? 0 then "-" else "") +:+
  String.concat "" (replicate (width - String.length digits) "0") +:+ digits.

(** [t.Format("2006-01-02")]. *)
Definition Format_2006_01_02 (t : time_Time) : string :=
  appendInt (t_Year t) 4 +:+ "-" +:+ appendInt (t_Month t) 2 +:+ "-" +:+
  appendInt (t_Day t) 2.

Record Student := mkStudent {
  s_Name : string;
  s_Group : string;
  s_Department : string;
  s_Year : Z
}.

Record Violation := mkViolation {
  v_StudentName : string;
  v_Group : string;
  v_Year : Z;
  v_Date : time_Time;
  v_Type : string;
  v_Hours : Z
}.

Definition NewViolation (studentName group : string) (year : Z)
    (date : time_Time) (violationType : string) (hours : Z) : Violation :=
  {| v_StudentName := studentName; v_Group := group; v_Year := year;
     v_Date := date; v_Type := violationType; v_Hours := hours |}.

Record LessonTime := mkLessonTime {
  Date : time_Time;
  Number : Z;
  PairHalf : Z;
  Hours : Z;
  StartTime : time_Time;
  EndTime : time_Time
}.

Record Lesson := mkLesson {
  l_Time : LessonTime;
  l_Discipline : string;
  l_Teacher : string;
  l_Cabinet : string;
  l_Group : string;
  l_Student : string
}.

Definition DateString (t : LessonTime) : string := Format_2006_01_02 (Date t).

Definition NewLessonTime (date : time_Time) (number pairHalf hours : Z)
    (startTime endTime : time_Time) : LessonTime :=
  {| Date := date; Number := number; PairHalf := pairHalf; Hours := hours;
     StartTime := startTime; EndTime := endTime |}.

(** The zero value [Lesson{}]. *)
Definition zeroLesson : Lesson :=
  mkLesson (mkLessonTime zeroTime 0 0 0 zeroTime zeroTime) "" "" "" "" "".

End domain.

Import domain.

(** ** Go maps of slices *)

(** [m[k] = append(m[k], x)]: a missing key reads as the nil slice. *)
Definition map_append `{Countable K} {A} (k : K) (x : A)
    (m : gmap K (list A)) : gmap K (list A) :=
  <[k := m !!! k ++ [x]]> m.

(** The grouping loop [for _, x := range xs { m[key(x)] = append(m[key(x)], x) }]. *)
Definition group_by `{Countable K} {A} (key : A → K) (xs : list A)
    : gmap K (list A) :=
  foldl (λ m x, map_append (key x) x m) ∅ xs.

(** [for k, v := range m] over a map: the entries, in the order chosen by the
    runtime. *)
Definition range (range_order : ∀ A : Type, list A → list A)
    `{Countable K} {A} (m : gmap K A) : list (K * A) :=
  range_order _ (map_to_list m).

(** One admissible order, used to run closed examples: the entries as
    [map_to_list] lists them. *)
Definition range_in_order : ∀ A : Type, list A → list A := λ _ l, l.

(** [for k := range m] over a map used as a set. *)
Definition range_keys (range_order : ∀ A : Type, list A → list A)
    `{Countable K} (s : gset K) : list K :=
  range_order _ (elements s).

(** A Go result pair [(value, error)] whose value is meaningful only when the
    error is nil. *)
Inductive result (A : Type) : Type :=
  | Ok (value : A)
  | Err (err : string).
Arguments Ok {A} value.
Arguments Err {A} err.

(** ** The violation detector (type Validator) *)

Module Validator.

Definition LoadExceeded : string := "Превышение нагрузки".
Definition GapsExceeded : string := "Превышение окон".

(** The receiver of the methods below; a method that does not read its
    receiver is written without it. *)
Record Validator := mkValidator {
  val_students : list Student;
  val_lessons : list Lesson
}.

Definition NewValidator (students : list Student) (lessons : list Lesson)
    : Validator :=
  {| val_students := students; val_lessons := lessons |}.

Section detector.

(** Order in which [range] visits the entries of a map. *)
Variable range_order : ∀ A : Type, list A → list A.

Definition collectStudentSchedule (v : Validator) (student : Student)
    : list Lesson :=
  foldl (λ schedule lesson,
    if negb (String.eqb (l_Student lesson) "")
       && String.eqb (l_Student lesson) (s_Name student)
    then schedule ++ [lesson]
    else if String.eqb (l_Student lesson) ""
            && String.eqb (l_Group lesson) (s_Group student)
    then schedule ++ [lesson]
    else schedule) [] (val_lessons v).

Definition groupByDate (lessons : list Lesson) : gmap string (list Lesson) :=
  group_by (λ lesson, DateString (l_Time lesson)) lessons.

Definition calculateLoad (dayLessons : list Lesson) : Z :=
  foldl (λ total lesson, GoInt.add total (Hours (l_Time lesson))) 0 dayLessons.

(** Loop state of [calculateGaps]: [minSlot], [maxSlot], [occupiedSlots]. *)
Definition gaps_step (st : Z * Z * gset Z) (lesson : Lesson) : Z * Z * gset Z :=
  let '(minSlot, maxSlot, occupiedSlots) := st in
  if PairHalf (l_Time lesson) =? 0 then
    let slot1 := GoInt.mul (GoInt.sub (Number (l_Time lesson)) 1) 2 in
    let slot2 := GoInt.add slot1 1 in
    let occupiedSlots := {[slot2]} ∪ ({[slot1]} ∪ occupiedSlots) in
    let minSlot := if slot1 <? minSlot then slot1 else minSlot in
    let maxSlot := if maxSlot <? slot2 then slot2 else maxSlot in
    (minSlot, maxSlot, occupiedSlots)
  else
    let slot := GoInt.add (GoInt.mul (GoInt.sub (Number (l_Time lesson)) 1) 2)
                          (GoInt.sub (PairHalf (l_Time lesson)) 1) in
    let occupiedSlots := {[slot]} ∪ occupiedSlots in
    let minSlot := if slot <? minSlot then slot else minSlot in
    let maxSlot := if maxSlot <? slot then slot else maxSlot in
    (minSlot, maxSlot, occupiedSlots).

Definition calculateGaps (dayLessons : list Lesson) : Z :=
  match dayLessons with
  | [] => 0
  | _ =>
    let '(minSlot, maxSlot, occupiedSlots) :=
      foldl gaps_step (GoInt.int_max, -1, ∅) dayLessons in
    let totalSlots := GoInt.add (GoInt.sub maxSlot minSlot) 1 in
    let occupied := GoInt.len (size occupiedSlots) in
    GoInt.sub totalSlots occupied
  end.

Definition validateDay (student : Student) (dayLessons : list Lesson)
    : list Violation :=
  match dayLessons with
  | [] => []
  | first :: _ =>
    let date := Date (l_Time first) in
    let totalHours := calculateLoad dayLessons in
    let violations :=
      if 10 <? totalHours
      then [NewViolation (s_Name student) (s_Group student) (s_Year student)
              date LoadExceeded totalHours]
      else [] in
    let gapPairs := calculateGaps dayLessons in
    let maxGaps := if s_Year student =? 1 then 2 else 4 in
    if maxGaps <? gapPairs
    then violations ++
         [NewViolation (s_Name student) (s_Group student) (s_Year student)
            date GapsExceeded gapPairs]
    else violations
  end.

Definition ValidateSchedule (v : Validator) : list Violation :=
  foldl (λ violations student,
    let studentSchedule := collectStudentSchedule v student in
    let scheduleByDate := groupByDate studentSchedule in
    foldl (λ violations entry, violations ++ validateDay student entry.2)
      violations (range range_order scheduleByDate)) [] (val_students v).

End detector.

(** *** Specification-side notions for the detector *)

(** A lesson belongs to a student's schedule: it is individual and names the
    student, or it is a group lesson of the student's group. *)
Definition belongs (student : Student) (lesson : Lesson) : Prop :=
  (l_Student lesson ≠ "" ∧ l_Student lesson = s_Name student) ∨
  (l_Student lesson = "" ∧ l_Group lesson = s_Group student).

Global Instance belongs_dec student lesson : Decision (belongs student lesson).
Proof. unfold belongs. apply _. Defined.

Definition on_date (d : string) (lesson : Lesson) : Prop :=
  DateString (l_Time lesson) = d.

Global Instance on_date_dec d lesson : Decision (on_date d lesson).
Proof. unfold on_date. apply _. Defined.

(** The student's lessons on the calendar date [d]. *)
Definition schedule_on (student : Student) (d : string) (lessons : list Lesson)
    : list Lesson :=
  filter (on_date d) (filter (belongs student) lessons).

(** The exact (unbounded) sum of the Hours fields. *)
Definition total_hours (dayLessons : list Lesson) : Z :=
  foldr (λ lesson acc, Hours (l_Time lesson) + acc) 0 dayLessons.

(** Half-slots a lesson occupies on the discretized day. *)
Definition lesson_slots (lesson : Lesson) : list Z :=
  let base := (Number (l_Time lesson) - 1) * 2 in
  if PairHalf (l_Time lesson) =? 0 then [base; base + 1]
  else [base + (PairHalf (l_Time lesson) - 1)].

Definition occupied_slots (dayLessons : list Lesson) : list Z :=
  dayLessons ≫= lesson_slots.

Definition max_slot (slots : list Z) : Z := foldr Z.max (hd 0 slots) slots.
Definition min_slot (slots : list Z) : Z := foldr Z.min (hd 0 slots) slots.

(** Span of the occupied slots minus the number of distinct occupied slots. *)
Definition gap_count (dayLessons : list Lesson) : Z :=
  let slots := occupied_slots dayLessons in
  (max_slot slots - min_slot slots + 1) - Z.of_nat (length (remove_dups slots)).

Definition gap_threshold (student : Student) : Z :=
  if s_Year student =? 1 then 2 else 4.

(** The data-model invariant on a lesson time: periods are 1-based (and small
    enough to be doubled in an [int]), the half is 0, 1 or 2. *)
Definition slot_wf (lesson : Lesson) : Prop :=
  1 ≤ Number (l_Time lesson) ≤ GoInt.int_max / 2 ∧
  0 ≤ PairHalf (l_Time lesson) ≤ 2.

(** The violation [v] is reported for [student]. *)
Definition reported_for (student : Student) (v : Violation) : Prop :=
  v_StudentName v = s_Name student ∧ v_Group v = s_Group student ∧
  v_Year v = s_Year student.

Definition reported_on (d : string) (v : Violation) : Prop :=
  Format_2006_01_02 (v_Date v) = d.

(** *** Example data *)

Definition march10 : time_Time := mkTime 2025 3 10 0 0.

(** A full-period group lesson of group МД-21-о on 2025-03-10. *)
Definition group_lesson (number : Z) : Lesson :=
  {| l_Time := NewLessonTime march10 number 0 2 march10 march10;
     l_Discipline := "Сольфеджио"; l_Teacher := "Петров А.А.";
     l_Cabinet := "К3-21"; l_Group := "МД-21-о"; l_Student := "" |}.

Definition ivanov : Student := mkStudent "Иванов И.И." "МД-21-о" "Музыкальный" 2.
Definition first_year : Student := mkStudent "Смирнова А.А." "МД-21-о" "Музыкальный" 1.

Definition six_lessons : list Lesson := group_lesson <$> [1; 2; 3; 4; 5; 6].
Definition five_lessons : list Lesson := group_lesson <$> [1; 2; 3; 4; 5].
Definition periods_1_and_4 : list Lesson := group_lesson <$> [1; 4].
Definition periods_1_and_3 : list Lesson := group_lesson <$> [1; 3].

End Validator.

(** ** The remote group-schedule parser (type GroupScheduleParser) *)

Module GroupSchedule.

Record LessonData := mkLessonData {
  WeekDayNum : Z;
  WeekDayDate : string;
  WeekDateStart : string;
  WeekDateEnd : string;
  LessonNum : Z;
  LessonTimeStart : string;
  LessonTimeEnd : string;
  DiscName : string;
  DiscType : string;
  DiscSubgroup : string;
  TeacherName : string;
  AuditName : string;
  GroupName : string
}.

(** The zero value [LessonData{}]. *)
Definition zeroLessonData : LessonData :=
  mkLessonData 0 "" "" "" 0 "" "" "" "" "" "" "" "".

Definition IndividualPlaceholder : string := "Индивидуальные занятия".

(** [fmt.Sprintf("%s [%s]", name, typ)]. *)
Definition Sprintf_disc (name typ : string) : string :=
  name +:+ " [" +:+ typ +:+ "]".

Section parser.

Variable range_order : ∀ A : Type, list A → list A.

(** [time.Parse(layout, value)] with its error discarded, as at every call
    site: the parsed time, or the zero time when [value] does not parse. *)
Variable time_Parse : string → string → time_Time.

Definition createLesson (data : LessonData) : Lesson :=
  let date := time_Parse "2006-01-02" (WeekDayDate data) in
  let startTime := time_Parse "15:04" (LessonTimeStart data) in
  let endTime := time_Parse "15:04" (LessonTimeEnd data) in
  let discipline :=
    if negb (String.eqb (DiscType data) "")
    then Sprintf_disc (DiscName data) (DiscType data)
    else DiscName data in
  {| l_Time := NewLessonTime date (LessonNum data) 0 2 startTime endTime;
     l_Discipline := discipline;
     l_Teacher := TeacherName data;
     l_Cabinet := AuditName data;
     l_Group := GroupName data;
     l_Student := "" |}.

Definition mergeLessons (data : list LessonData) : LessonData :=
  match data with
  | [] => zeroLessonData
  | first :: _ =>
    let disciplines :=
      (λ d, if negb (String.eqb (DiscType d) "")
            then Sprintf_disc (DiscName d) (DiscType d)
            else DiscName d) <$> data in
    let teachers := TeacherName <$> data in
    let cabinets := AuditName <$> data in
    {| WeekDayNum := WeekDayNum first;
       WeekDayDate := WeekDayDate first;
       WeekDateStart := WeekDateStart first;
       WeekDateEnd := WeekDateEnd first;
       LessonNum := LessonNum first;
       LessonTimeStart := LessonTimeStart first;
       LessonTimeEnd := LessonTimeEnd first;
       DiscName := String.concat " / " disciplines;
       DiscType := DiscType first;
       DiscSubgroup := DiscSubgroup first;
       TeacherName := String.concat " & " teachers;
       AuditName := String.concat " / " cabinets;
       GroupName := GroupName first |}
  end.

(** The key [lessonKey{date, lessonNum}] of [deduplicateLessons]. *)
Definition lessonKey (data : LessonData) : string * Z :=
  (WeekDayDate data, LessonNum data).

(** First loop of [deduplicateLessons]. *)
Definition dedup_groups (lessonsData : list LessonData)
    : gmap (string * Z) (list LessonData) :=
  foldl (λ groups data,
    if String.eqb (DiscName data) IndividualPlaceholder then groups
    else map_append (lessonKey data) data groups) ∅ lessonsData.

(** Body of the second loop of [deduplicateLessons]: the lesson emitted for
    one group. *)
Definition dedup_emit (group : list LessonData) : Lesson :=
  match group with
  | [data] =>
    if String.eqb (DiscSubgroup data) "0" then createLesson data
    else createLesson (mergeLessons group)
  | _ => createLesson (mergeLessons group)
  end.

Definition deduplicateLessons (lessonsData : list LessonData) : list Lesson :=
  let groups := dedup_groups lessonsData in
  foldl (λ result entry, result ++ [dedup_emit entry.2]) []
    (range range_order groups).

(** The three network steps of the parser, as the replies they produce. *)
Variable fetchDepartments : result (gmap string string).
Variable fetchGroups : string → result (gmap string string).
Variable fetchLessons : string → result (list LessonData).

Definition Parse (departmentName groupName : string) : result (list Lesson) :=
  match fetchDepartments with
  | Err err => Err ("failed to fetch departments: " +:+ err)
  | Ok departments =>
    match departments !! departmentName with
    | None => Err ("department '" +:+ departmentName +:+ "' not found")
    | Some departmentID =>
      match fetchGroups departmentID with
      | Err err => Err ("failed to fetch groups: " +:+ err)
      | Ok groups =>
        match groups !! groupName with
        | None => Err ("group '" +:+ groupName +:+ "' not found")
        | Some groupID =>
          match fetchLessons groupID with
          | Err err => Err ("failed to fetch lessons: " +:+ err)
          | Ok lessonsData => Ok (deduplicateLessons lessonsData)
          end
        end
      end
    end
  end.

End parser.

(** *** Specification-side notions *)

(** A raw record that takes part in deduplication. *)
Definition grouped (data : LessonData) : Prop :=
  DiscName data ≠ IndividualPlaceholder.

Global Instance grouped_dec data : Decision (grouped data).
Proof. unfold grouped. apply _. Defined.

(** The discipline with its type suffix in brackets, when there is a type. *)
Definition discipline_label (data : LessonData) : string :=
  if decide (DiscType data = "") then DiscName data
  else DiscName data +:+ " [" +:+ DiscType data +:+ "]".

(** [time.Parse] on the two layouts of the program, used only to run
    closed examples: every theorem below holds for an arbitrary
    [time_Parse]. As in package time, the hour of "15:04" has one or two
    digits, the other fields have a fixed number of digits, text after the
    last field is an error, the day must exist in its month, an error
    gives the zero time, and a clock-only value is on January 1 of
    year 0. *)
Definition digit (c : Ascii.ascii) : option Z :=
  let n := Z.of_nat (Ascii.nat_of_ascii c) in
  if (48 <=? n) && (n <=? 57) then Some (n - 48) else None.

Definition digits2 (a b : Ascii.ascii) : option Z :=
  d1 ← digit a; d2 ← digit b; Some (10 * d1 + d2).

(** [daysIn] of package time. *)
Definition daysIn (month year : Z) : Z :=
  if month =? 2 then
    if (year mod 4 =? 0) && (negb (year mod 100 =? 0) || (year mod 400 =? 0))
    then 29 else 28
  else if (month =? 4) || (month =? 6) || (month =? 9) || (month =? 11)
  then 30 else 31.

(** The minutes ":04" after the hour [h]. *)
Definition sample_minutes (h : Z) (rest : string) : time_Time :=
  match rest with
  | String c (String m1 (String m2 EmptyString)) =>
    match digits2 m1 m2 with
    | Some m =>
      if Ascii.eqb c (Ascii.ascii_of_nat 58) && (h <? 24) && (m <? 60)
      then mkTime 0 1 1 h m else zeroTime
    | None => zeroTime
    end
  | _ => zeroTime
  end.

Definition sample_time_Parse (layout value : string) : time_Time :=
  if String.eqb layout "15:04" then
    match value with
    | String h1 rest1 =>
      match digit h1 with
      | Some d1 =>
        match rest1 with
        | String h2 rest2 =>
          match digit h2 with
          | Some d2 => sample_minutes (10 * d1 + d2) rest2
          | None => sample_minutes d1 rest1
          end
        | EmptyString => zeroTime
        end
      | None => zeroTime
      end
    | EmptyString => zeroTime
    end
  else if String.eqb layout "2006-01-02" then
    match value with
    | String y1 (String y2 (String y3 (String y4 (String c1
        (String m1 (String m2 (String c2
        (String d1 (String d2 EmptyString))))))))) =>
      match digits2 y1 y2, digits2 y3 y4, digits2 m1 m2, digits2 d1 d2 with
      | Some yh, Some yl, Some m, Some d =>
        if Ascii.eqb c1 (Ascii.ascii_of_nat 45)
           && Ascii.eqb c2 (Ascii.ascii_of_nat 45)
           && (1 <=? m) && (m <=? 12) && (1 <=? d)
           && (d <=? daysIn m (100 * yh + yl))
        then mkTime (100 * yh + yl) m d 0 0 else zeroTime
      | _, _, _, _ => zeroTime
      end
    | _ => zeroTime
    end
  else zeroTime.

(** *** Example data *)

(** Two raw records of one (date, period) slot, one per subgroup. *)
Definition petrov_record : LessonData :=
  mkLessonData 1 "2025-03-10" "2025-03-10" "2025-03-16" 2 "10:10" "11:40"
    "Сольфеджио" "" "1" "Петров А.А." "К3-21" "МД-21-о".

Definition sidorov_record : LessonData :=
  mkLessonData 1 "2025-03-10" "2025-03-10" "2025-03-16" 2 "10:10" "11:40"
    "Сольфеджио" "" "2" "Сидоров Б.Б." "К3-22" "МД-21-о".

(** A record alone in its slot, without subgroup, and a record of another
    slot. *)
Definition lecture_record : LessonData :=
  mkLessonData 1 "2025-03-10" "2025-03-10" "2025-03-16" 2 "10:10" "11:40"
    "Гармония" "лек" "0" "Петров А.А." "К3-21" "МД-21-о".

Definition next_period_record : LessonData :=
  mkLessonData 1 "2025-03-10" "2025-03-10" "2025-03-16" 3 "11:50" "13:20"
    "Сольфеджио" "" "1" "Сидоров Б.Б." "К3-22" "МД-21-о".

End GroupSchedule.

(** ** The tabular individual-schedule parser (type IndividualScheduleParser) *)

Module IndividualSchedule.

(** [sort.Strings] orders by [<] on strings, the bytewise lexicographic
    order. *)
Definition string_le (s1 s2 : string) : Prop := String.leb s1 s2 = true.

Global Instance string_le_dec s1 s2 : Decision (string_le s1 s2).
Proof. unfold string_le. apply _. Defined.

Definition sort_Strings (l : list string) : list string :=
  merge_sort string_le l.

(** The byte of "/". *)
Definition slash : Ascii.ascii := Ascii.ascii_of_nat 47.

(** [strings.Split(s, "/")]: the pieces of [s] between occurrences of the
    byte "/". *)
Fixpoint Split_slash (s : string) : list string :=
  match s with
  | EmptyString => [""]
  | String c rest =>
    if Ascii.eqb c slash then "" :: Split_slash rest
    else match Split_slash rest with
         | piece :: pieces => String c piece :: pieces
         | [] => [String c ""]
         end
  end.

(** [strings.Contains(s, "/")]. *)
Fixpoint Contains_slash (s : string) : bool :=
  match s with
  | EmptyString => false
  | String c rest => Ascii.eqb c slash || Contains_slash rest
  end.

Section parser.

Variable range_order : ∀ A : Type, list A → list A.

(** [strings.Join(strings.Fields(s), " ")] and [strings.TrimSpace] of the
    Go library (Unicode white space). *)
Variable Join_Fields : string → string.
Variable TrimSpace : string → string.

(** [extractStudentNames], on the text of the cell [sheet.Row(row).Col(column)]. *)
Definition extractStudentNames (cell : string) : result (list string) :=
  if String.eqb cell "" then Err "пустая ячейка имени студента"
  else
    let studentNameCell := Join_Fields cell in
    if Contains_slash studentNameCell then
      let names := Split_slash studentNameCell in
      Ok (foldl (λ result name, result ++ [TrimSpace name]) [] names)
    else Ok [studentNameCell; studentNameCell].

(** The loop [for index, studentName := range studentNames] of [Parse]: the
    half-period records appended for one period cell. *)
Definition Parse_names (date : time_Time) (lessonNumber : Z)
    (disciplineName teacherName cabinetNumber groupName : string)
    (startTime endTime : time_Time) (studentNames : list string)
    : list Lesson :=
  imap (λ index studentName,
    let lessonGroup := if String.eqb studentName "" then "" else groupName in
    let hoursStub := 1 in
    let pairHalf := GoInt.add (Z.of_nat index) 1 in
    {| l_Time := NewLessonTime date lessonNumber pairHalf hoursStub
                   startTime endTime;
       l_Discipline := disciplineName;
       l_Teacher := teacherName;
       l_Cabinet := cabinetNumber;
       l_Group := lessonGroup;
       l_Student := studentName |}) studentNames.

(** [fmt.Sprintf("%s|%d|%d|%s|%s|%s|%s", ...)] of [mergeTeachers]. *)
Definition mergeKey (lesson : Lesson) : string :=
  DateString (l_Time lesson) +:+ "|" +:+
  pretty (Number (l_Time lesson)) +:+ "|" +:+
  pretty (PairHalf (l_Time lesson)) +:+ "|" +:+
  l_Discipline lesson +:+ "|" +:+
  l_Cabinet lesson +:+ "|" +:+
  l_Group lesson +:+ "|" +:+
  l_Student lesson.

Definition with_Teacher (lesson : Lesson) (teacher : string) : Lesson :=
  {| l_Time := l_Time lesson; l_Discipline := l_Discipline lesson;
     l_Teacher := teacher; l_Cabinet := l_Cabinet lesson;
     l_Group := l_Group lesson; l_Student := l_Student lesson |}.

(** Body of the second loop of [mergeTeachers]: the records (none or one)
    appended for one group. *)
Definition merge_emit (group : list Lesson) : list Lesson :=
  match group with
  | [] => []
  | first :: _ =>
    let merged := first in
    let merged :=
      if 1 <? GoInt.len (length group) then
        let teacherSet : gset string :=
          foldl (λ teacherSet lesson,
            if negb (String.eqb (l_Teacher lesson) "")
            then {[l_Teacher lesson]} ∪ teacherSet else teacherSet) ∅ group in
        let teachers := range_keys range_order teacherSet in
        let teachers := sort_Strings teachers in
        with_Teacher merged (String.concat "& " teachers)
      else merged in
    [merged]
  end.

Definition mergeTeachers (lessons : list Lesson) : list Lesson :=
  let groups := group_by mergeKey lessons in
  foldl (λ result entry, result ++ merge_emit entry.2) []
    (range range_order groups).

(** The key [lessonKey{student, date, number}] of [joinIndLessons]. *)
Definition joinKey (lesson : Lesson) : string * string * Z :=
  (l_Student lesson, DateString (l_Time lesson), Number (l_Time lesson)).

(** First loop of [joinIndLessons]: key -> half -> lesson. *)
Definition join_map (lessons : list Lesson)
    : gmap (string * string * Z) (gmap Z Lesson) :=
  foldl (λ lessonsMap lesson,
    let key := joinKey lesson in
    <[key := <[PairHalf (l_Time lesson) := lesson]> (lessonsMap !!! key)]>
      lessonsMap) ∅ lessons.

Definition with_Time_Half_Hours (t : LessonTime) (half hours : Z)
    (endTime : time_Time) : LessonTime :=
  {| Date := Date t; Number := Number t; PairHalf := half; Hours := hours;
     StartTime := StartTime t; EndTime := endTime |}.

(** Body of the second loop of [joinIndLessons]: the record appended for one
    [pairMap]. *)
Definition join_emit (pairMap : gmap Z Lesson) : Lesson :=
  match pairMap !! 1, pairMap !! 2 with
  | Some lesson1, Some lesson2 =>
    {| l_Time := with_Time_Half_Hours (l_Time lesson1) 0 2
                   (EndTime (l_Time lesson2));
       l_Discipline :=
         if String.eqb (l_Discipline lesson1) (l_Discipline lesson2)
         then l_Discipline lesson1
         else l_Discipline lesson1 +:+ "/" +:+ l_Discipline lesson2;
       l_Teacher :=
         if String.eqb (l_Teacher lesson1) (l_Teacher lesson2)
         then l_Teacher lesson1
         else l_Teacher lesson1 +:+ "/" +:+ l_Teacher lesson2;
       l_Cabinet :=
         if String.eqb (l_Cabinet lesson1) (l_Cabinet lesson2)
         then l_Cabinet lesson1
         else l_Cabinet lesson1 +:+ "/" +:+ l_Cabinet lesson2;
       l_Group := l_Group lesson1;
       l_Student := l_Student lesson1 |}
  | Some lesson1, None =>
    {| l_Time := l_Time lesson1;
       l_Discipline := l_Discipline lesson1 +:+ "/";
       l_Teacher := l_Teacher lesson1 +:+ "/";
       l_Cabinet := l_Cabinet lesson1 +:+ "/";
       l_Group := l_Group lesson1;
       l_Student := l_Student lesson1 |}
  | None, Some lesson2 =>
    {| l_Time := l_Time lesson2;
       l_Discipline := "/" +:+ l_Discipline lesson2;
       l_Teacher := "/" +:+ l_Teacher lesson2;
       l_Cabinet := "/" +:+ l_Cabinet lesson2;
       l_Group := l_Group lesson2;
       l_Student := l_Student lesson2 |}
  | None, None => zeroLesson
  end.

Definition joinIndLessons (lessons : list Lesson) : list Lesson :=
  let lessonsMap := join_map lessons in
  foldl (λ result entry, result ++ [join_emit entry.2]) []
    (range range_order lessonsMap).

(** The tail of [Parse], from the records collected from every file. *)
Definition Parse_finish (allLessons : list Lesson) : result (list Lesson) :=
  match allLessons with
  | [] => Err "не найдено уроков в файлах"
  | _ => Ok (joinIndLessons (mergeTeachers allLessons))
  end.

End parser.

(** *** Specification-side notions *)

(** The full key of a half-period record. *)
Definition full_key (lesson : Lesson)
    : string * Z * Z * string * string * string * string :=
  (DateString (l_Time lesson), Number (l_Time lesson),
   PairHalf (l_Time lesson), l_Discipline lesson, l_Cabinet lesson,
   l_Group lesson, l_Student lesson).

(** The byte of "|", the separator of [mergeKey]. *)
Definition bar : Ascii.ascii := Ascii.ascii_of_nat 124.

Fixpoint no_bar (s : string) : bool :=
  match s with
  | EmptyString => true
  | String c rest => negb (Ascii.eqb c bar) && no_bar rest
  end.

(** The free-text fields that [mergeKey] puts before a separator do not
    contain that separator. *)
Definition sep_free (lesson : Lesson) : Prop :=
  no_bar (l_Discipline lesson) = true ∧ no_bar (l_Cabinet lesson) = true ∧
  no_bar (l_Group lesson) = true.

(** The record of half [h] that a (student, date, period) group holds: the
    latest one, when several records of the group have the same half. *)
Definition half_record (h : Z) (group : list Lesson) : option Lesson :=
  last (filter (λ lesson, PairHalf (l_Time lesson) = h) group).

(** The (student, date, period, half) position of a half-period record. *)
Definition halfKey (lesson : Lesson) : (string * string * Z) * Z :=
  (joinKey lesson, PairHalf (l_Time lesson)).

(** The [pairMap] that the first loop of [joinIndLessons] builds from the
    records of one key, in order. *)
Definition pair_map (group : list Lesson) : gmap Z Lesson :=
  foldl (λ pairMap lesson, <[PairHalf (l_Time lesson) := lesson]> pairMap)
    ∅ group.

(** *** Example data *)

Definition march10 : time_Time := mkTime 2025 3 10 0 0.

(** A half-period record of student Иванов И.И. on 2025-03-10. *)
Definition half_lesson (number half : Z) (discipline teacher cabinet : string)
    : Lesson :=
  {| l_Time := NewLessonTime march10 number half 1
                 (mkTime 2025 3 10 8 30) (mkTime 2025 3 10 10 0);
     l_Discipline := discipline; l_Teacher := teacher;
     l_Cabinet := cabinet; l_Group := ""; l_Student := "Иванов И.И." |}.

(** The first half of period 1 listed under two instructors, and its second
    half. *)
Definition two_instructor_records : list Lesson :=
  [half_lesson 1 1 "Вокал" "Сидоров Б.Б." "К3-21";
   half_lesson 1 2 "Вокал" "Сидоров Б.Б." "К3-21";
   half_lesson 1 1 "Вокал" "Петров А.А." "К3-21"].

(** Both halves of period 1 and the first half of period 2. *)
Definition half_pair_records : list Lesson :=
  [half_lesson 1 1 "Вокал" "Сидоров Б.Б." "К3-21";
   half_lesson 1 2 "Дирижирование" "Сидоров Б.Б." "К3-22";
   half_lesson 2 1 "Вокал" "Петров А.А." "К3-21"].

End IndividualSchedule.

(** ** The lessons repository (type LessonsRepositoryImpl) *)

Module Repository.

(** An entry of [GroupLessonsCache.data]; times are instants on one clock. *)
Record cache_entry := mkEntry {
  ce_lessons : list Lesson;
  ce_expiry : Z
}.

(** [30 * time.Minute], in the unit of the clock (nanoseconds). *)
Definition ttl : Z := 30 * 60 * 1000000000.

(** [GroupLessonsCache.Get], reading the clock at [now]: the cached lessons
    when the entry exists and has not expired, and the cache afterwards (an
    expired entry is deleted). *)
Definition cache_Get (now : Z) (weekStart : string)
    (data : gmap string cache_entry)
    : option (list Lesson) * gmap string cache_entry :=
  match data !! weekStart with
  | None => (None, data)
  | Some entry =>
    if ce_expiry entry <? now then (None, delete weekStart data)
    else (Some (ce_lessons entry), data)
  end.

(** [GroupLessonsCache.Set], reading the clock at [now]. *)
Definition cache_Set (now : Z) (weekStart : string) (lessons : list Lesson)
    (data : gmap string cache_entry) : gmap string cache_entry :=
  <[weekStart := mkEntry lessons (now + ttl)]> data.

Record LessonsRepositoryImpl := mkRepo {
  r_departments : list string;
  r_groups : list string;
  r_weekStart : string;
  r_lessons : list Lesson;
  r_cache : gmap string cache_entry
}.

Definition NewLessonsRepository (departments groups : list string)
    (weekStart : string) : LessonsRepositoryImpl :=
  mkRepo departments groups weekStart [] ∅.

(** The lessons of the tasks that succeeded, in the given order; a failed
    task only writes a log line. *)
Definition successes (tasks : list (result (list Lesson))) : list Lesson :=
  tasks ≫= λ task, match task with Ok lessons => lessons | Err _ => [] end.

Section repository.

(** The outcome of [NewIndividualScheduleParser().Parse()]. *)
Variable individual_Parse : result (list Lesson).

(** The outcome of [NewGroupScheduleParser(dep, grp, weekStart).Parse()]. *)
Variable group_Parse : string → string → string → result (list Lesson).

(** The goroutines started by [GetLessons] append their lessons to
    [groupLessons] and to [r.lessons] under two different mutexes: the two
    slices receive the successful results in two orders of the scheduler's
    choosing. *)
Variable order_groupLessons : ∀ A : Type, list A → list A.
Variable order_lessons : ∀ A : Type, list A → list A.

(** The instants at which [cache.Get] and [cache.Set] read the clock. *)
Variable now_Get now_Set : Z.

(** [GetLessons]: the returned pair (lessons, error), the error being [None]
    for nil, and the repository afterwards. *)
Definition GetLessons (r : LessonsRepositoryImpl)
    : (list Lesson * option string) * LessonsRepositoryImpl :=
  let lessons :=
    match individual_Parse with
    | Ok individualLessons => r_lessons r ++ individualLessons
    | Err _ => r_lessons r
    end in
  match cache_Get now_Get (r_weekStart r) (r_cache r) with
  | (Some cachedLessons, data) =>
    let lessons := lessons ++ cachedLessons in
    ((lessons, None),
     mkRepo (r_departments r) (r_groups r) (r_weekStart r) lessons data)
  | (None, data) =>
    let tasks :=
      r_departments r ≫= λ department,
        r_groups r ≫= λ group,
          [group_Parse department group (r_weekStart r)] in
    let groupLessons := successes (order_groupLessons _ tasks) in
    let lessons := lessons ++ successes (order_lessons _ tasks) in
    let data := cache_Set now_Set (r_weekStart r) groupLessons data in
    ((lessons, None),
     mkRepo (r_departments r) (r_groups r) (r_weekStart r) lessons data)
  end.

(** Order in which [range] visits the entries of a map. *)
Variable range_order : ∀ A : Type, list A → list A.

(** [ScheduleService.ProcessSchedule], from the roster that
    [LoadStudents] returned (its error is discarded): the violations, the
    lessons, and the returned error. *)
Definition ProcessSchedule (students : list Student) (weekStart : string)
    : (list Violation * list Lesson) * option string :=
  let deptSet : gset string :=
    foldl (λ deptSet student, {[s_Department student]} ∪ deptSet) ∅ students in
  let departments := range_keys range_order deptSet in
  let set : gset string :=
    foldl (λ set student, {[s_Group student]} ∪ set) ∅ students in
  let groups := range_keys range_order set in
  let lessons_repository := NewLessonsRepository departments groups weekStart in
  let lessons := (GetLessons lessons_repository).1.1 in
  let valdator := Validator.NewValidator students lessons in
  let violations := Validator.ValidateSchedule range_order valdator in
  ((violations, lessons), None).

End repository.

End Repository.

(** ** Further specification-side notions *)

(** The half-slots between the first and the last occupied one that no lesson
    of the day occupies. *)
Definition free_slots (dayLessons : list Lesson) : list Z :=
  let slots := Validator.occupied_slots dayLessons in
  filter (λ slot, slot ∉ slots)
    (seqZ (Validator.min_slot slots)
       (Validator.max_slot slots - Validator.min_slot slots + 1)).

(** ** Further code of the remote group-schedule parser *)

(** [truncate]: [None] stands for the run-time panic of the slice expression
    [s[:maxLen]] on a negative bound. *)
Definition truncate (s : string) (maxLen : Z) : option string :=
  if GoInt.len (String.length s) <=? maxLen then Some s
  else if maxLen <? 0 then None
  else Some (String.substring 0 (Z.to_nat maxLen) s +:+ "...").

(** ** Cells of the tabular parser's sheet *)

Module IndividualCells.

Section cells.

(** [sheet.Row(row)]: the row of the sheet, [None] for the nil pointer that
    the library returns where the sheet has no such row. On a row, [Col]
    gives the text of a cell, empty where the row has no such cell; on the
    nil row it panics. *)
Variable Row : Z → option (Z → string).

(** The loop [for day := 2; day < 30; day += 3] of [extractDayColumns];
    [fuel] bounds the number of iterations, and [None] stands for the panic
    of [Col] on a nil row. *)
Fixpoint dayColumns_loop (fuel : nat) (daysHeaderRow day : Z)
    (columns : list Z) : option (list Z) :=
  match fuel with
  | O => Some columns
  | S fuel =>
    if day <? 30 then
      row ← Row daysHeaderRow;
      let cell := row day in
      if String.eqb cell "" then Some columns
      else dayColumns_loop fuel daysHeaderRow (GoInt.add day 3)
             (columns ++ [day])
    else Some columns
  end.

Definition extractDayColumns_fuel (fuel : nat) (teacherRow : Z)
    : option (result (list Z)) :=
  let daysHeaderRow := GoInt.add teacherRow 3 in
  columns ← dayColumns_loop fuel daysHeaderRow 2 [];
  if GoInt.len (length columns) =? 0
  then Some (Err "не найдено столбцов с днями")
  else Some (Ok columns).

(** [extractDayColumns]: ten iterations exhaust the loop. *)
Definition extractDayColumns (teacherRow : Z) : option (result (list Z)) :=
  extractDayColumns_fuel 10 teacherRow.

(** [strings.Join(strings.Fields(s), " ")], [strings.TrimSpace], and
    [ReplaceAllString(s, "")] for the two patterns of [extractDiscipline],
    the room in parentheses and the group code. *)
Variable Join_Fields : string → string.
Variable TrimSpace : string → string.
Variable reCabinet_ReplaceAll : string → string.
Variable reGroup_ReplaceAll : string → string.

(** [extractDiscipline], on the text of the cell
    [sheet.Row(row).Col(column + 1)]. *)
Definition extractDiscipline (cell : string) : result string :=
  if String.eqb cell "" then Err "пустая ячейка дисциплины"
  else
    let disciplineData := Join_Fields cell in
    let clean := reCabinet_ReplaceAll disciplineData in
    let clean := reGroup_ReplaceAll clean in
    let clean := TrimSpace clean in
    if String.eqb clean "Народный танец (практикум)"
       || String.eqb clean "Народный танец"
    then Err ("дисциплина '" +:+ clean +:+ "' игнорируется")
    else if String.eqb clean "Дир.хор.подг." || String.eqb clean "Хор.дир."
    then Ok "Дирижирование"
    else if String.eqb clean "Муз.инстр.испол."
            || String.eqb clean "Муз.инстр.подг."
            || String.eqb clean "Муз.инстр.подгот."
            || String.eqb clean "Муз.инстр.исполн."
            || String.eqb clean "Муз.инстр.подготов."
    then Ok "Муз. Инструмент"
    else if String.eqb clean "Вокал." || String.eqb clean "Вокал. исполн."
            || String.eqb clean "Вокал. подг."
    then Ok "Вокал"
    else if String.eqb clean "Аккомпанемент" then Ok "Аккомпанемент"
    else Ok clean.

End cells.

(** The abbreviations that [extractDiscipline] expands, and the names it
    ignores. *)
Definition abbreviations : list string :=
  ["Дир.хор.подг."; "Хор.дир."; "Муз.инстр.испол."; "Муз.инстр.подг.";
   "Муз.инстр.подгот."; "Муз.инстр.исполн."; "Муз.инстр.подготов.";
   "Вокал."; "Вокал. исполн."; "Вокал. подг."].

Definition ignored : list string :=
  ["Народный танец (практикум)"; "Народный танец"].

End IndividualCells.

(** ** The roster file (type YAMLStudentRepository) *)

Module Students.

Section repository.

(** The content of the roster file, as [yaml.Marshal] writes the roster and
    [yaml.Unmarshal] reads it back. *)
Variable Bytes : Type.
Variable yaml_Unmarshal : Bytes → result (list Student).
Variable yaml_Marshal : list Student → result Bytes.

(** The roster file as the repository sees it: what [os.ReadFile] returns. *)
Definition file : Type := result Bytes.

(** [os.WriteFile] on the roster file: the error, [None] for nil, and the
    file afterwards. *)
Variable os_WriteFile : file → Bytes → option string * file.

Definition loadStudentsUnsafe (f : file) : result (list Student) :=
  match f with
  | Err err => Err ("не удалось прочитать файл: " +:+ err)
  | Ok data =>
    match yaml_Unmarshal data with
    | Err err => Err ("не удалось распарсить YAML: " +:+ err)
    | Ok students => Ok students
    end
  end.

Definition saveStudentsUnsafe (students : list Student) (f : file)
    : option string * file :=
  match yaml_Marshal students with
  | Err err => (Some ("не удалось сериализовать YAML: " +:+ err), f)
  | Ok data =>
    match os_WriteFile f data with
    | (Some err, f') => (Some ("не удалось записать файл: " +:+ err), f')
    | (None, f') => (None, f')
    end
  end.

(** Each method returns its error, [None] for nil, and the file afterwards;
    [list_find] is the loop that returns at the first student of the
    name. *)
Definition AddStudent (student : Student) (f : file) : option string * file :=
  match loadStudentsUnsafe f with
  | Err err => (Some err, f)
  | Ok students =>
    match list_find (λ s, s_Name s = s_Name student) students with
    | Some _ =>
      (Some ("студент " +:+ s_Name student +:+ " уже существует"), f)
    | None => saveStudentsUnsafe (students ++ [student]) f
    end
  end.

Definition GetStudent (name : string) (f : file) : result Student :=
  match loadStudentsUnsafe f with
  | Err err => Err err
  | Ok students =>
    match list_find (λ s, s_Name s = name) students with
    | Some (_, s) => Ok s
    | None => Err ("студент " +:+ name +:+ " не найден")
    end
  end.

Definition UpdateStudent (name : string) (updated : Student) (f : file)
    : option string * file :=
  match loadStudentsUnsafe f with
  | Err err => (Some err, f)
  | Ok students =>
    match list_find (λ s, s_Name s = name) students with
    | Some (i, _) => saveStudentsUnsafe (<[i := updated]> students) f
    | None => (Some ("студент " +:+ name +:+ " не найден"), f)
    end
  end.

Definition DeleteStudent (name : string) (f : file) : option string * file :=
  match loadStudentsUnsafe f with
  | Err err => (Some err, f)
  | Ok students =>
    match list_find (λ s, s_Name s = name) students with
    | Some (i, _) =>
      saveStudentsUnsafe (take i students ++ drop (S i) students) f
    | None => (Some ("студент " +:+ name +:+ " не найден"), f)
    end
  end.

End repository.

(** A file system without failures and an identity encoding, used to run
    closed examples. *)
Definition sample_WriteFile (f : result (list Student))
    (data : list Student) : option string * result (list Student) :=
  (None, Ok data).

Definition petrova : Student := mkStudent "Петрова М.М." "МД-22-о" "Музыкальный" 3.

End Students.

(** ** Package web: the data of the report *)

Module web.

Record Day := mkDay {
  d_Teacher : string;
  d_Discipline : string;
  d_Hours : string;
  d_IsViolation : bool
}.

(** The zero value [Day{}], an empty cell of the grid. *)
Definition zeroDay : Day := mkDay "" "" "" false.

Record Slot := mkSlot {
  sl_Number : Z;
  sl_Days : list Day
}.

Record ViolationData := mkViolationData {
  vd_StudentName : string;
  vd_Group : string;
  vd_Year : Z;
  vd_Type : string;
  vd_Hours : Z;
  vd_Slots : list Slot
}.

Record TemplateData := mkTemplateData {
  WeekDateStart : string;
  WeekDateEnd : string;
  Violations : list ViolationData
}.

(** The map literal [dayIndex]. *)
Definition dayIndex : gmap string Z :=
  <["понедельник" := 0]> (<["вторник" := 1]> (<["среда" := 2]>
  (<["четверг" := 3]> (<["пятница" := 4]> (<["суббота" := 5]> ∅))))).

(** The struct [lessonKey]: Student, Group, Date, DayName, Number,
    Discipline, Teacher. *)
Definition lessonKey : Type :=
  string * string * string * string * Z * string * string.

Definition k_Student (key : lessonKey) : string := key.1.1.1.1.1.1.
Definition k_Group (key : lessonKey) : string := key.1.1.1.1.1.2.
Definition k_Date (key : lessonKey) : string := key.1.1.1.1.2.
Definition k_DayName (key : lessonKey) : string := key.1.1.1.2.
Definition k_Number (key : lessonKey) : Z := key.1.1.2.
Definition k_Discipline (key : lessonKey) : string := key.1.2.
Definition k_Teacher (key : lessonKey) : string := key.2.

(** The names of [LessonTime.DayName], indexed by [time.Weekday]. *)
Definition names : list string :=
  ["воскресенье"; "понедельник"; "вторник"; "среда"; "четверг"; "пятница";
   "суббота"].

Section report.

Variable range_order : ∀ A : Type, list A → list A.

(** [t.Date.Weekday()], from 0 for Sunday to 6 for Saturday, the methods
    [WeekStartString] and [WeekEndString] (date arithmetic of package time),
    and [strings.ToLower]. *)
Variable Weekday : time_Time → nat.
Variable WeekStartString WeekEndString : LessonTime → string.
Variable ToLower : string → string.

(** [LessonTime.DayName]; [None] stands for the panic of an index out of
    range, here and below. *)
Definition DayName (t : LessonTime) : option string :=
  names !! Weekday (Date t).

Definition key_of (lesson : Lesson) (dayName : string) : lessonKey :=
  (l_Student lesson, l_Group lesson, DateString (l_Time lesson),
   ToLower dayName, Number (l_Time lesson), l_Discipline lesson,
   l_Teacher lesson).

(** The loop that fills [lessonMap]. *)
Definition lessonMap_of (lessons : list Lesson)
    : option (gmap lessonKey (list Lesson)) :=
  foldl (λ acc lesson,
    lessonMap ← acc;
    dayName ← DayName (l_Time lesson);
    Some (map_append (key_of lesson dayName) lesson lessonMap))
    (Some ∅) lessons.

(** [slots := make([]Slot, 6)] with its initialization loop. *)
Definition empty_slots : list Slot :=
  imap (λ i _, mkSlot (GoInt.add (Z.of_nat i) 1) (replicate 6 zeroDay))
    (replicate 6 (mkSlot 0 [])).

(** The condition under which a key is drawn in the grid of [v]. *)
Definition drawn (v : Violation) (key : lessonKey) : bool :=
  (String.eqb (k_Student key) "" && String.eqb (k_Group key) (v_Group v))
  || String.eqb (k_Student key) (v_StudentName v).

(** Body of the loop [for key, lessonGroup := range lessonMap]. *)
Definition fill (v : Violation) (slots : list Slot)
    (entry : lessonKey * list Lesson) : option (list Slot) :=
  let key := entry.1 in
  let lessonGroup := entry.2 in
  let violationDate := Format_2006_01_02 (v_Date v) in
  if drawn v key then
    let slotIdx := GoInt.sub (k_Number key) 1 in
    if (0 <=? slotIdx) && (slotIdx <? 6) then
      match dayIndex !! k_DayName key with
      | Some dayIdx =>
        first ← head lessonGroup;
        let hours := pretty (Hours (l_Time first)) in
        slot ← slots !! Z.to_nat slotIdx;
        if (0 <=? dayIdx) && (dayIdx <? GoInt.len (length (sl_Days slot)))
        then
          let day := mkDay (k_Teacher key) (k_Discipline key) hours
                       (String.eqb (k_Date key) violationDate) in
          Some (<[Z.to_nat slotIdx :=
                    mkSlot (sl_Number slot)
                      (<[Z.to_nat dayIdx := day]> (sl_Days slot))]> slots)
        else None
      | None => Some slots
      end
    else Some slots
  else Some slots.

(** The grid of one violation. *)
Definition slots_of (lessonMap : gmap lessonKey (list Lesson))
    (v : Violation) : option (list Slot) :=
  foldl (λ acc entry, slots ← acc; fill v slots entry) (Some empty_slots)
    (range range_order lessonMap).

Definition prepareTemplateData (violations : list Violation)
    (lessons : list Lesson) : option TemplateData :=
  let WeekDateStart :=
    match lessons with
    | [] => "Не указано"
    | lesson :: _ => WeekStartString (l_Time lesson)
    end in
  let WeekDateEnd :=
    match lessons with
    | [] => "Не указано"
    | lesson :: _ => WeekEndString (l_Time lesson)
    end in
  lessonMap ← lessonMap_of lessons;
  Violations ← mapM (λ v,
    slots ← slots_of lessonMap v;
    Some (mkViolationData (v_StudentName v) (v_Group v) (v_Year v) (v_Type v)
            (v_Hours v) slots)) violations;
  Some (mkTemplateData WeekDateStart WeekDateEnd Violations).

(** *** Specification-side notions *)

(** The lesson is one that the grid of [v] shows: a group lesson of the
    violation's group or a lesson of the violation's student. *)
Definition shown (v : Violation) (lesson : Lesson) : Prop :=
  (l_Student lesson = "" ∧ l_Group lesson = v_Group v) ∨
  l_Student lesson = v_StudentName v.

(** The cell [day] at row [s] and column [d] (both from 0) of the grid of
    [v] draws [lesson]. *)
Definition cell_of (v : Violation) (lesson : Lesson) (s d : nat) (day : Day)
    : Prop :=
  shown v lesson ∧
  Number (l_Time lesson) = Z.of_nat s + 1 ∧
  (∃ dayName, DayName (l_Time lesson) = Some dayName ∧
              dayIndex !! ToLower dayName = Some (Z.of_nat d)) ∧
  d_Teacher day = l_Teacher lesson ∧
  d_Discipline day = l_Discipline lesson ∧
  d_Hours day = pretty (Hours (l_Time lesson)) ∧
  (d_IsViolation day = true ↔
   DateString (l_Time lesson) = Format_2006_01_02 (v_Date v)).

(** Six rows numbered from 1 to 6, of six cells each. *)
Definition grid_wf (slots : list Slot) : Prop :=
  sl_Number <$> slots = [1; 2; 3; 4; 5; 6] ∧
  Forall (λ slot, length (sl_Days slot) = 6%nat) slots.

(** A well-formed grid each of whose non-empty cells draws a lesson of
    [lessons]. *)
Definition grid_inv (v : Violation) (lessons : list Lesson)
    (slots : list Slot) : Prop :=
  grid_wf slots ∧
  ∀ s d slot day,
    slots !! s = Some slot → sl_Days slot !! d = Some day → day ≠ zeroDay →
    ∃ lesson, lesson ∈ lessons ∧ cell_of v lesson s d day.

End report.

(** A weekday function used to run closed examples: every date is a
    Monday. *)
Definition sample_Weekday (t : time_Time) : nat := 1.

End web.

(** * Properties *)

Lemma range_in_order_perm A (l : list A) : range_in_order A l ≡ₚ l.
Proof. reflexivity. Qed.

(** ** Go integers *)

Lemma wrap_in_range z : GoInt.in_range z → GoInt.wrap z = z.
Proof.
  unfold GoInt.in_range, GoInt.int_min, GoInt.int_max, GoInt.wrap. intros Hz.
  rewrite Z.mod_small; lia.
Qed.

Lemma wrap_add_l a b : GoInt.wrap (GoInt.wrap a + b) = GoInt.wrap (a + b).
Proof.
  unfold GoInt.wrap.
  replace ((a + 2 ^ 63) mod 2 ^ 64 - 2 ^ 63 + b + 2 ^ 63)
    with ((a + 2 ^ 63) mod 2 ^ 64 + b) by lia.
  rewrite Zplus_mod_idemp_l. f_equal. f_equal. lia.
Qed.

(** ** Grouping into a map of slices *)

Section grouping.
Context `{Countable K} {A : Type} (key : A → K).

Lemma group_fold_lookup (xs : list A) (m : gmap K (list A)) (k : K) :
  foldl (λ m x, map_append (key x) x m) m xs !! k =
  match m !! k, filter (λ x, key x = k) xs with
  | None, [] => None
  | o, g => Some (default [] o ++ g)
  end.
Proof.
  revert m. induction xs as [|x xs IH]; intros m; simpl.
  - destruct (m !! k); simpl; by rewrite ?app_nil_r.
  - rewrite IH. unfold map_append. rewrite filter_cons.
    destruct (decide (key x = k)) as [->|Hne].
    + rewrite lookup_insert_eq, lookup_total_alt. simpl.
      rewrite <- app_assoc. simpl. by destruct (m !! k).
    + by rewrite lookup_insert_ne.
Qed.

Lemma group_by_lookup (xs : list A) (k : K) (g : list A) :
  group_by key xs !! k = Some g ↔ g = filter (λ x, key x = k) xs ∧ g ≠ [].
Proof.
  unfold group_by. rewrite group_fold_lookup, lookup_empty. simpl.
  destruct (filter _ xs) as [|y g']; split.
  - done.
  - by intros [-> ?].
  - by intros [= <-].
  - by intros [-> _].
Qed.

End grouping.

Lemma foldl_append_bind {A B} (f : A → list B) (xs : list A) (acc : list B) :
  foldl (λ acc x, acc ++ f x) acc xs = acc ++ (xs ≫= f).
Proof.
  revert acc. induction xs as [|x xs IH]; intros acc; simpl.
  - by rewrite app_nil_r.
  - by rewrite IH, <- app_assoc.
Qed.

(** ** The violation detector *)

Section detector_properties.

Variable range_order : ∀ A : Type, list A → list A.
Hypothesis range_order_perm : ∀ A (l : list A), range_order A l ≡ₚ l.

Import Validator.

Local Abbreviation ValidateSchedule students lessons :=
  (Validator.ValidateSchedule range_order (NewValidator students lessons)).

Lemma elem_of_range `{Countable K} {A} (m : gmap K A) k x :
  (k, x) ∈ range range_order m ↔ m !! k = Some x.
Proof.
  unfold range. rewrite range_order_perm. apply elem_of_map_to_list.
Qed.

Lemma belongs_eqb student lesson :
  (negb (String.eqb (l_Student lesson) "")
     && String.eqb (l_Student lesson) (s_Name student))
  || (String.eqb (l_Student lesson) ""
     && String.eqb (l_Group lesson) (s_Group student)) = true
  ↔ belongs student lesson.
Proof.
  unfold belongs.
  rewrite orb_true_iff, !andb_true_iff, negb_true_iff, !String.eqb_eq.
  rewrite String.eqb_neq. tauto.
Qed.

Lemma collectStudentSchedule_filter v student :
  collectStudentSchedule v student = filter (belongs student) (val_lessons v).
Proof.
  unfold collectStudentSchedule.
  enough (∀ acc, foldl (λ schedule lesson,
    if negb (String.eqb (l_Student lesson) "")
       && String.eqb (l_Student lesson) (s_Name student)
    then schedule ++ [lesson]
    else if String.eqb (l_Student lesson) ""
            && String.eqb (l_Group lesson) (s_Group student)
    then schedule ++ [lesson]
    else schedule) acc (val_lessons v) =
      acc ++ filter (belongs student) (val_lessons v))
    as Hgen by apply (Hgen []).
  induction (val_lessons v) as [|lesson lessons IH]; intros acc; simpl.
  - by rewrite app_nil_r.
  - rewrite IH, filter_cons. pose proof (belongs_eqb student lesson) as Hb.
    destruct (negb _ && _); simpl in Hb.
    + rewrite decide_True by (by apply Hb). by rewrite <- app_assoc.
    + destruct (_ && _); simpl in Hb.
      * rewrite decide_True by (by apply Hb). by rewrite <- app_assoc.
      * rewrite decide_False; [done|]. intros Hc. apply Hb in Hc. done.
Qed.

Lemma ValidateSchedule_bind v :
  Validator.ValidateSchedule range_order v =
  val_students v ≫= λ student,
    range range_order (groupByDate (collectStudentSchedule v student)) ≫=
      λ entry, validateDay student entry.2.
Proof.
  unfold Validator.ValidateSchedule.
  enough (∀ acc, foldl (λ violations student,
      foldl (λ violations entry, violations ++ validateDay student entry.2)
        violations
        (range range_order (groupByDate (collectStudentSchedule v student))))
      acc (val_students v) = acc ++ (val_students v ≫= λ student,
        range range_order (groupByDate (collectStudentSchedule v student)) ≫=
          λ entry, validateDay student entry.2)) as Hgen by apply (Hgen []).
  induction (val_students v) as [|student students IH]; intros acc; simpl.
  - by rewrite app_nil_r.
  - by rewrite foldl_append_bind, IH, <- app_assoc.
Qed.

(** A violation is reported exactly when some student's day produces it. *)
Lemma elem_of_ValidateSchedule students lessons v :
  v ∈ ValidateSchedule students lessons ↔
  ∃ student d, student ∈ students ∧ schedule_on student d lessons ≠ [] ∧
    v ∈ validateDay student (schedule_on student d lessons).
Proof.
  rewrite ValidateSchedule_bind, list_elem_of_bind. simpl. split.
  - intros (student & Hv & Hin).
    apply list_elem_of_bind in Hv as ([d day] & Hv & Hday).
    apply elem_of_range in Hday. unfold groupByDate in Hday.
    apply group_by_lookup in Hday as [-> Hne].
    rewrite collectStudentSchedule_filter in *. simpl in Hv.
    by exists student, d.
  - intros (student & d & Hin & Hne & Hv). exists student. split; [|done].
    apply list_elem_of_bind. exists (d, schedule_on student d lessons).
    split; [done|]. apply elem_of_range, group_by_lookup.
    by rewrite collectStudentSchedule_filter.
Qed.

Lemma calculateLoad_wrap dayLessons :
  calculateLoad dayLessons = GoInt.wrap (total_hours dayLessons).
Proof.
  unfold calculateLoad.
  enough (∀ acc, foldl (λ total lesson, GoInt.add total (Hours (l_Time lesson)))
    (GoInt.wrap acc) dayLessons = GoInt.wrap (acc + total_hours dayLessons))
    as Hgen by apply (Hgen 0).
  induction dayLessons as [|lesson dayLessons IH]; intros acc; simpl.
  - by rewrite Z.add_0_r.
  - unfold GoInt.add at 2. rewrite wrap_add_l, IH. f_equal. lia.
Qed.

Lemma schedule_on_same_student s1 s2 d lessons :
  s_Name s1 = s_Name s2 → s_Group s1 = s_Group s2 →
  schedule_on s1 d lessons = schedule_on s2 d lessons.
Proof.
  intros Hn Hg. unfold schedule_on. f_equal.
  apply list_filter_iff. intros lesson. unfold belongs. by rewrite Hn, Hg.
Qed.

(** The first lesson of a student's day lies on that day. *)
Lemma schedule_on_head student d lessons first rest :
  schedule_on student d lessons = first :: rest →
  Format_2006_01_02 (Date (l_Time first)) = d.
Proof.
  intros Heq. assert (first ∈ schedule_on student d lessons) as Hin
    by (rewrite Heq; left).
  unfold schedule_on in Hin. by apply list_elem_of_filter in Hin as [? _].
Qed.

Lemma elem_of_validateDay student dayLessons v :
  v ∈ validateDay student dayLessons ↔
  ∃ first rest, dayLessons = first :: rest ∧
    ((10 < calculateLoad dayLessons ∧
      v = NewViolation (s_Name student) (s_Group student) (s_Year student)
            (Date (l_Time first)) LoadExceeded (calculateLoad dayLessons)) ∨
     (gap_threshold student < calculateGaps dayLessons ∧
      v = NewViolation (s_Name student) (s_Group student) (s_Year student)
            (Date (l_Time first)) GapsExceeded (calculateGaps dayLessons))).
Proof.
  unfold validateDay, gap_threshold. destruct dayLessons as [|first rest].
  - split; [by intros ?%elem_of_nil | by intros (? & ? & ? & _)].
  - set (day := first :: rest).
    destruct (Z.ltb_spec 10 (calculateLoad day)) as [Hl|Hl];
    destruct (Z.ltb_spec (if s_Year student =? 1 then 2 else 4)
                (calculateGaps day)) as [Hg|Hg];
    cbv zeta; rewrite ?elem_of_app, ?elem_of_cons, ?elem_of_nil; split.
    all: try (intros (f & r & [= <- <-] & [[? ->]|[? ->]]); try lia; tauto).
    all: intros Hv; try (exists first, rest; split; [done|]); intuition lia.
Qed.

(** *** The gap count *)

Lemma foldr_min_shift a b l :
  foldr Z.min (Z.min a b) l = Z.min a (foldr Z.min b l).
Proof. induction l as [|x l IH]; simpl; [done|]. rewrite IH. lia. Qed.

Lemma foldr_max_shift a b l :
  foldr Z.max (Z.max a b) l = Z.max a (foldr Z.max b l).
Proof. induction l as [|x l IH]; simpl; [done|]. rewrite IH. lia. Qed.

Lemma foldr_min_idem a l : Z.min a (foldr Z.min a l) = foldr Z.min a l.
Proof. by rewrite <- foldr_min_shift, Z.min_id. Qed.

Lemma foldr_max_idem a l : Z.max a (foldr Z.max a l) = foldr Z.max a l.
Proof. by rewrite <- foldr_max_shift, Z.max_id. Qed.

Lemma foldr_min_nest a s r :
  foldr Z.min (foldr Z.min a s) r =
  Z.min (foldr Z.min a s) (foldr Z.min a r).
Proof.
  rewrite <- foldr_min_shift. f_equal.
  pose proof (foldr_min_idem a s). lia.
Qed.

Lemma foldr_max_nest a s r :
  foldr Z.max (foldr Z.max a s) r =
  Z.max (foldr Z.max a s) (foldr Z.max a r).
Proof.
  rewrite <- foldr_max_shift. f_equal.
  pose proof (foldr_max_idem a s). lia.
Qed.

Lemma min_slot_above a l :
  l ≠ [] → Forall (λ x, x ≤ a) l → foldr Z.min a l = min_slot l.
Proof.
  destruct l as [|x l]; [done|]. intros _ Hall. unfold min_slot. simpl.
  apply Forall_cons in Hall as [Hx _].
  replace x with (Z.min x a) at 3 by lia. rewrite foldr_min_shift. lia.
Qed.

Lemma max_slot_below a l :
  l ≠ [] → Forall (λ x, a ≤ x) l → foldr Z.max a l = max_slot l.
Proof.
  destruct l as [|x l]; [done|]. intros _ Hall. unfold max_slot. simpl.
  apply Forall_cons in Hall as [Hx _].
  replace x with (Z.max x a) at 3 by lia. rewrite foldr_max_shift. lia.
Qed.

(** [max_slot] and [min_slot] are the greatest and the least element. *)
Lemma max_slot_spec l :
  l ≠ [] → max_slot l ∈ l ∧ Forall (λ x, x ≤ max_slot l) l.
Proof.
  intros Hne. unfold max_slot.
  assert (∀ a, (foldr Z.max a l = a ∨ foldr Z.max a l ∈ l) ∧
               a ≤ foldr Z.max a l ∧
               Forall (λ x, x ≤ foldr Z.max a l) l) as Hgen.
  { intros a. induction l as [|x l IH]; simpl.
    - split_and!; [by left|lia|constructor].
    - destruct l as [|y l].
      + simpl. split_and!; [|lia|repeat constructor; lia].
        destruct (Z.max_spec x a) as [[_ ->]|[_ ->]]; [by left|right; left].
      + destruct IH as (Hin & Hle & Hall); [done|].
        set (m := foldr Z.max a (y :: l)) in *. split_and!; [|lia|].
        * destruct (Z.max_spec x m) as [[_ ->]|[_ ->]].
          -- destruct Hin as [->|Hin]; [by left|right; by right].
          -- right; left.
        * constructor; [lia|]. eapply Forall_impl; [done|]. simpl. lia. }
  destruct l as [|x l]; [done|]. destruct (Hgen x) as ([Heq|Hin] & _ & Hall).
  - simpl hd. rewrite Heq in Hall |- *. split; [left|done].
  - done.
Qed.

Lemma min_slot_spec l :
  l ≠ [] → min_slot l ∈ l ∧ Forall (λ x, min_slot l ≤ x) l.
Proof.
  intros Hne. unfold min_slot.
  assert (∀ a, (foldr Z.min a l = a ∨ foldr Z.min a l ∈ l) ∧
               foldr Z.min a l ≤ a ∧
               Forall (λ x, foldr Z.min a l ≤ x) l) as Hgen.
  { intros a. induction l as [|x l IH]; simpl.
    - split_and!; [by left|lia|constructor].
    - destruct l as [|y l].
      + simpl. split_and!; [|lia|repeat constructor; lia].
        destruct (Z.min_spec x a) as [[_ ->]|[_ ->]]; [right; left|by left].
      + destruct IH as (Hin & Hle & Hall); [done|].
        set (m := foldr Z.min a (y :: l)) in *. split_and!; [|lia|].
        * destruct (Z.min_spec x m) as [[_ ->]|[_ ->]].
          -- right; left.
          -- destruct Hin as [->|Hin]; [by left|right; by right].
        * constructor; [lia|]. eapply Forall_impl; [done|]. simpl. lia. }
  destruct l as [|x l]; [done|]. destruct (Hgen x) as ([Heq|Hin] & _ & Hall).
  - simpl hd. rewrite Heq in Hall |- *. split; [left|done].
  - done.
Qed.

Lemma half_int_max : GoInt.int_max / 2 = 2 ^ 62 - 1.
Proof. reflexivity. Qed.

Ltac unwrap :=
  unfold GoInt.add, GoInt.sub, GoInt.mul;
  repeat match goal with
  | |- context [GoInt.wrap ?z] =>
    rewrite (wrap_in_range z)
      by (unfold GoInt.in_range, GoInt.int_min, GoInt.int_max; lia)
  end.

(** On a well-formed lesson one step of the loop never wraps around. *)
Lemma gaps_step_exact minSlot maxSlot occ lesson :
  slot_wf lesson →
  gaps_step (minSlot, maxSlot, occ) lesson =
  (foldr Z.min minSlot (lesson_slots lesson),
   foldr Z.max maxSlot (lesson_slots lesson),
   list_to_set (lesson_slots lesson) ∪ occ).
Proof.
  unfold slot_wf. rewrite half_int_max. intros [Hn Hh].
  unfold gaps_step, lesson_slots.
  set (n := Number (l_Time lesson)) in *.
  set (h := PairHalf (l_Time lesson)) in *.
  destruct (Z.eqb_spec h 0) as [Hz|Hz].
  - unwrap. simpl foldr. simpl list_to_set.
    destruct (Z.ltb_spec ((n - 1) * 2) minSlot);
    destruct (Z.ltb_spec maxSlot ((n - 1) * 2 + 1));
      (f_equal; [f_equal; lia|]); apply set_eq; intros z;
      rewrite !elem_of_union, !elem_of_singleton, elem_of_empty; tauto.
  - unwrap. simpl foldr. simpl list_to_set.
    destruct (Z.ltb_spec ((n - 1) * 2 + (h - 1)) minSlot);
    destruct (Z.ltb_spec maxSlot ((n - 1) * 2 + (h - 1)));
      (f_equal; [f_equal; lia|]); apply set_eq; intros z;
      rewrite !elem_of_union, !elem_of_singleton, elem_of_empty; tauto.
Qed.

Lemma gaps_fold_exact dayLessons minSlot maxSlot occ :
  Forall slot_wf dayLessons →
  foldl gaps_step (minSlot, maxSlot, occ) dayLessons =
  (Z.min minSlot (foldr Z.min minSlot (occupied_slots dayLessons)),
   Z.max maxSlot (foldr Z.max maxSlot (occupied_slots dayLessons)),
   list_to_set (occupied_slots dayLessons) ∪ occ).
Proof.
  unfold occupied_slots.
  revert minSlot maxSlot occ. induction dayLessons as [|lesson day IH];
    intros minSlot maxSlot occ Hwf.
  - simpl. f_equal; [f_equal; lia|]. by rewrite union_empty_l_L.
  - apply Forall_cons in Hwf as [Hl Hday]. cbn [foldl]. rewrite bind_cons.
    rewrite gaps_step_exact, IH by done.
    rewrite !foldr_app, list_to_set_app_L.
    set (s := lesson_slots lesson). set (r := day ≫= lesson_slots).
    f_equal; [f_equal|].
    3:{ by rewrite (union_comm_L (list_to_set s) (list_to_set r)),
          union_assoc_L. }
    + rewrite !foldr_min_nest. pose proof (foldr_min_idem minSlot s).
      pose proof (foldr_min_idem minSlot r). lia.
    + rewrite !foldr_max_nest. pose proof (foldr_max_idem maxSlot s).
      pose proof (foldr_max_idem maxSlot r). lia.
Qed.

Lemma occupied_slots_bounds dayLessons :
  Forall slot_wf dayLessons →
  Forall (λ x, 0 ≤ x ≤ GoInt.int_max - 1) (occupied_slots dayLessons).
Proof.
  unfold occupied_slots. induction 1 as [|lesson day Hl _ IH]; simpl.
  - constructor.
  - apply Forall_app. split; [|done]. unfold slot_wf in Hl.
    rewrite half_int_max in Hl. unfold lesson_slots, GoInt.int_max.
    destruct (Z.eqb_spec (PairHalf (l_Time lesson)) 0);
      repeat (apply Forall_cons; split; [lia|]); by apply Forall_nil.
Qed.

Lemma occupied_slots_nonempty dayLessons :
  dayLessons ≠ [] → occupied_slots dayLessons ≠ [].
Proof.
  destruct dayLessons as [|lesson day]; [done|]. intros _.
  unfold occupied_slots. simpl. unfold lesson_slots. by destruct (_ =? 0).
Qed.

Lemma size_slots_set (slots : list Z) :
  size (list_to_set slots : gset Z) = length (remove_dups slots).
Proof.
  rewrite <- (size_list_to_set (C:=gset Z)) by apply NoDup_remove_dups.
  f_equal. apply set_eq. intros x.
  by rewrite !elem_of_list_to_set, elem_of_remove_dups.
Qed.

Lemma size_slots_bounded (slots : list Z) n :
  0 ≤ n → Forall (λ x, 0 ≤ x ≤ n - 1) slots →
  Z.of_nat (length (remove_dups slots)) ≤ n.
Proof.
  intros Hn Hall. rewrite <- size_slots_set.
  assert (list_to_set slots ⊆ (list_to_set (seqZ 0 n) : gset Z)) as Hsub.
  { intros x. rewrite !elem_of_list_to_set, elem_of_seqZ. intros Hx.
    rewrite Forall_forall in Hall. apply Hall in Hx. lia. }
  apply subseteq_size in Hsub.
  rewrite (size_list_to_set (seqZ 0 n)) in Hsub by apply NoDup_seqZ.
  rewrite length_seqZ in Hsub. lia.
Qed.

(** On a non-empty day of well-formed lessons the code computes the span of
    the occupied half-slots minus the number of distinct occupied ones. *)
Lemma calculateGaps_exact dayLessons :
  dayLessons ≠ [] → Forall slot_wf dayLessons →
  calculateGaps dayLessons = gap_count dayLessons.
Proof.
  intros Hne Hwf. unfold calculateGaps, gap_count.
  destruct dayLessons as [|lesson day] eqn:Hday; [done|]. rewrite <- Hday in *.
  rewrite gaps_fold_exact by done.
  pose proof (occupied_slots_bounds _ Hwf) as Hb.
  pose proof (occupied_slots_nonempty _ Hne) as Hs.
  set (slots := occupied_slots dayLessons) in *.
  rewrite (min_slot_above GoInt.int_max), (max_slot_below (-1)); [|done|..|done|].
  2:{ eapply Forall_impl; [done|]. simpl. lia. }
  2:{ eapply Forall_impl; [done|]. simpl. lia. }
  destruct (min_slot_spec slots Hs) as [Hmin _].
  destruct (max_slot_spec slots Hs) as [Hmax Hle].
  rewrite Forall_forall in Hb, Hle.
  pose proof (Hb _ Hmin) as Hbmin. pose proof (Hb _ Hmax) as Hbmax.
  pose proof (Hle _ Hmin) as Hminmax. simpl in Hbmin, Hbmax.
  pose proof (size_slots_bounded slots GoInt.int_max) as Hsize.
  rewrite <- Forall_forall in Hb. specialize (Hsize ltac:(done) Hb).
  rewrite union_empty_r_L, size_slots_set. unfold GoInt.len.
  unfold GoInt.int_max in *.
  rewrite Z.min_r, Z.max_r by lia. by unwrap.
Qed.


(** C1. For a student of the roster and a calendar date, a load-exceeded
    violation for that student and date is reported if and only if the sum of
    the Hours of the student's lessons on that date is strictly greater than
    10; its magnitude is that sum; a total of exactly 10 reports nothing.
    The sum is assumed to be representable as a Go int. *)
Theorem load_rule students lessons student d :
  student ∈ students →
  GoInt.in_range (total_hours (schedule_on student d lessons)) →
  ((∃ v, v ∈ ValidateSchedule students lessons ∧
         v_StudentName v = s_Name student ∧ v_Group v = s_Group student ∧
         reported_on d v ∧ v_Type v = LoadExceeded)
   ↔ 10 < total_hours (schedule_on student d lessons)) ∧
  (∀ v, v ∈ ValidateSchedule students lessons →
        v_StudentName v = s_Name student → v_Group v = s_Group student →
        reported_on d v → v_Type v = LoadExceeded →
        v_Hours v = total_hours (schedule_on student d lessons)) ∧
  (total_hours (schedule_on student d lessons) = 10 →
   ¬ ∃ v, v ∈ ValidateSchedule students lessons ∧
          v_StudentName v = s_Name student ∧ v_Group v = s_Group student ∧
          reported_on d v ∧ v_Type v = LoadExceeded).
Proof.
  intros Hin Hrange.
  assert (∀ v, v ∈ ValidateSchedule students lessons →
        v_StudentName v = s_Name student → v_Group v = s_Group student →
        reported_on d v → v_Type v = LoadExceeded →
        10 < total_hours (schedule_on student d lessons) ∧
        v_Hours v = total_hours (schedule_on student d lessons)) as Honly.
  { intros v Hv Hname Hgroup Hdate Htype.
    apply elem_of_ValidateSchedule in Hv as (s' & d' & _ & _ & Hv).
    apply elem_of_validateDay in Hv as (first & rest & Hday & Hv).
    destruct Hv as [[Hload ->]|[_ ->]]; [|discriminate Htype].
    simpl in Hname, Hgroup. unfold reported_on in Hdate. simpl in Hdate.
    apply schedule_on_head in Hday as Hd'. rewrite Hdate in Hd'. subst d'.
    rewrite (schedule_on_same_student s' student) in Hload |- * by done.
    simpl. rewrite calculateLoad_wrap, wrap_in_range in * by done. done. }
  split; [split|split].
  - intros (v & Hv & ? & ? & ? & ?). by eapply Honly.
  - intros Hload.
    destruct (schedule_on student d lessons) as [|first rest] eqn:Hday;
      [simpl in Hload; lia|].
    exists (NewViolation (s_Name student) (s_Group student) (s_Year student)
              (Date (l_Time first)) LoadExceeded
              (calculateLoad (first :: rest))).
    split; [|split_and!; try done; unfold reported_on; simpl;
             by eapply schedule_on_head].
    apply elem_of_ValidateSchedule. exists student, d. rewrite Hday.
    split_and!; [done..|]. apply elem_of_validateDay. exists first, rest.
    split; [done|]. left. split; [|done].
    by rewrite calculateLoad_wrap, wrap_in_range.
  - intros v ? ? ? ? ?. by eapply Honly.
  - intros H10 (v & Hv & ? & ? & ? & ?).
    destruct (Honly v) as [? _]; [done..|lia].
Qed.

(** C2. For a student of the roster and a date on which the student has at
    least one lesson (lessons being well-formed: 1-based period, half in
    0..2), the detector's gap count is (greatest occupied half-slot - least
    occupied half-slot + 1) - number of distinct occupied half-slots, a
    half=0 lesson occupying slots (period-1)*2 and (period-1)*2+1 and a
    half=h lesson occupying (period-1)*2+(h-1); a gaps-exceeded violation for
    that student and date is reported if and only if the gap count is strictly
    greater than 2 for a first-year student and strictly greater than 4
    otherwise, with the gap count as magnitude; counts of exactly 2, resp. 4,
    report nothing. *)
Theorem gap_rule students lessons student d :
  student ∈ students →
  schedule_on student d lessons ≠ [] →
  Forall slot_wf (schedule_on student d lessons) →
  calculateGaps (schedule_on student d lessons) =
    gap_count (schedule_on student d lessons) ∧
  ((∃ v, v ∈ ValidateSchedule students lessons ∧ reported_for student v ∧
         reported_on d v ∧ v_Type v = GapsExceeded)
   ↔ (if s_Year student =? 1 then 2 else 4)
       < gap_count (schedule_on student d lessons)) ∧
  (∀ v, v ∈ ValidateSchedule students lessons → reported_for student v →
        reported_on d v → v_Type v = GapsExceeded →
        v_Hours v = gap_count (schedule_on student d lessons)) ∧
  (gap_count (schedule_on student d lessons) =
     (if s_Year student =? 1 then 2 else 4) →
   ¬ ∃ v, v ∈ ValidateSchedule students lessons ∧ reported_for student v ∧
          reported_on d v ∧ v_Type v = GapsExceeded).
Proof.
  intros Hin Hne Hwf.
  pose proof (calculateGaps_exact _ Hne Hwf) as Hgaps.
  assert (∀ v, v ∈ ValidateSchedule students lessons → reported_for student v →
        reported_on d v → v_Type v = GapsExceeded →
        gap_threshold student < gap_count (schedule_on student d lessons) ∧
        v_Hours v = gap_count (schedule_on student d lessons)) as Honly.
  { intros v Hv (Hname & Hgroup & Hyear) Hdate Htype.
    apply elem_of_ValidateSchedule in Hv as (s' & d' & _ & _ & Hv).
    apply elem_of_validateDay in Hv as (first & rest & Hday & Hv).
    destruct Hv as [[_ ->]|[Hgap ->]]; [discriminate Htype|].
    simpl in Hname, Hgroup, Hyear. unfold reported_on in Hdate. simpl in Hdate.
    apply schedule_on_head in Hday as Hd'. rewrite Hdate in Hd'. subst d'.
    rewrite (schedule_on_same_student s' student) in Hgap |- * by done.
    unfold gap_threshold in *. rewrite Hyear in Hgap. simpl.
    by rewrite Hgaps in *. }
  split; [done|]. fold (gap_threshold student). split; [split|split].
  - intros (v & Hv & ? & ? & ?). by eapply Honly.
  - intros Hgap.
    destruct (schedule_on student d lessons) as [|first rest] eqn:Hday;
      [done|].
    exists (NewViolation (s_Name student) (s_Group student) (s_Year student)
              (Date (l_Time first)) GapsExceeded
              (calculateGaps (first :: rest))).
    split; [|split_and!; try done; unfold reported_on; simpl;
             by eapply schedule_on_head].
    apply elem_of_ValidateSchedule. exists student, d. rewrite Hday.
    split_and!; [done..|]. apply elem_of_validateDay. exists first, rest.
    split; [done|]. right. split; [|done]. by rewrite Hgaps.
  - intros v ? ? ? ?. by eapply Honly.
  - intros Heq (v & Hv & ? & ? & ?).
    destruct (Honly v) as [? _]; [done..|lia].
Qed.

End detector_properties.

Lemma load_rule_witness :
  ∃ v, v ∈ Validator.ValidateSchedule range_in_order
             (Validator.NewValidator [Validator.ivanov]
                Validator.six_lessons) ∧
       v_StudentName v = "Иванов И.И." ∧
       v_Type v = Validator.LoadExceeded ∧ v_Hours v = 12.
Proof.
  assert (Validator.ivanov ∈ [Validator.ivanov]) as Hin by left.
  assert (GoInt.in_range (Validator.total_hours
            (Validator.schedule_on Validator.ivanov "2025-03-10"
               Validator.six_lessons))) as Hrange
    by (vm_compute; split; discriminate).
  destruct (load_rule range_in_order range_in_order_perm
              [Validator.ivanov] Validator.six_lessons Validator.ivanov
              "2025-03-10" Hin Hrange) as (Hiff & Hhours & _).
  destruct (proj2 Hiff) as (v & Hv & Hname & Hgroup & Hdate & Htype);
    [vm_compute; reflexivity|].
  exists v. split_and!; [done..|].
  by rewrite (Hhours v Hv Hname Hgroup Hdate Htype).
Defined.

Lemma gap_rule_witness :
  ∃ v, v ∈ Validator.ValidateSchedule range_in_order
             (Validator.NewValidator [Validator.first_year]
                Validator.periods_1_and_4) ∧
       v_StudentName v = "Смирнова А.А." ∧
       v_Type v = Validator.GapsExceeded ∧ v_Hours v = 4.
Proof.
  assert (Validator.first_year ∈ [Validator.first_year]) as Hin by left.
  assert (Validator.schedule_on Validator.first_year "2025-03-10"
            Validator.periods_1_and_4 ≠ []) as Hne
    by (vm_compute; discriminate).
  assert (Forall Validator.slot_wf
            (Validator.schedule_on Validator.first_year "2025-03-10"
               Validator.periods_1_and_4)) as Hwf.
  { assert (Validator.schedule_on Validator.first_year "2025-03-10"
              Validator.periods_1_and_4 = Validator.periods_1_and_4) as ->
      by (vm_compute; reflexivity).
    unfold Validator.periods_1_and_4, Validator.slot_wf.
    rewrite half_int_max.
    repeat (apply Forall_cons; split; [simpl; lia|]). by apply Forall_nil. }
  destruct (gap_rule range_in_order range_in_order_perm
              [Validator.first_year] Validator.periods_1_and_4
              Validator.first_year "2025-03-10" Hin Hne Hwf)
    as (_ & Hiff & Hhours & _).
  destruct (proj2 Hiff) as (v & Hv & Hfor & Hdate & Htype);
    [vm_compute; reflexivity|].
  exists v. split_and!; [done|apply Hfor|done|].
  by rewrite (Hhours v Hv Hfor Hdate Htype).
Defined.

(** The scenarios of the specification, run on the code. *)

Example load_scenario :
  Validator.ValidateSchedule range_in_order
    (Validator.NewValidator [Validator.ivanov] Validator.six_lessons) =
  [NewViolation "Иванов И.И." "МД-21-о" 2 Validator.march10
     Validator.LoadExceeded 12].
Proof. vm_compute. reflexivity. Qed.

Example load_boundary_scenario :
  Validator.calculateLoad Validator.five_lessons = 10 ∧
  Validator.ValidateSchedule range_in_order
    (Validator.NewValidator [Validator.ivanov] Validator.five_lessons) = [].
Proof. split; vm_compute; reflexivity. Qed.

Example gaps_scenario :
  Validator.ValidateSchedule range_in_order
    (Validator.NewValidator [Validator.first_year]
       Validator.periods_1_and_4) =
  [NewViolation "Смирнова А.А." "МД-21-о" 1 Validator.march10
     Validator.GapsExceeded 4].
Proof. vm_compute. reflexivity. Qed.

Example gaps_boundary_scenario :
  Validator.calculateGaps Validator.periods_1_and_3 = 2 ∧
  Validator.ValidateSchedule range_in_order
    (Validator.NewValidator [Validator.first_year]
       Validator.periods_1_and_3) = [] ∧
  Validator.calculateGaps Validator.periods_1_and_4 = 4 ∧
  Validator.ValidateSchedule range_in_order
    (Validator.NewValidator [Validator.ivanov] Validator.periods_1_and_4) = [].
Proof. split_and!; vm_compute; reflexivity. Qed.

(** ** Ranging over grouped records *)

Section ranging.

Variable range_order : ∀ A : Type, list A → list A.
Hypothesis range_order_perm : ∀ A (l : list A), range_order A l ≡ₚ l.

Lemma range_insert_fresh `{Countable K} {A} (m : gmap K A) k x :
  m !! k = None →
  range range_order (<[k:=x]> m) ≡ₚ (k, x) :: range range_order m.
Proof.
  intros Hk. unfold range. rewrite !range_order_perm.
  by apply map_to_list_insert.
Qed.

Lemma range_empty `{Countable K} {A} :
  range range_order (∅ : gmap K A) = [].
Proof.
  unfold range. apply Permutation_nil_r.
  by rewrite range_order_perm, map_to_list_empty.
Qed.

Lemma range_singleton `{Countable K} {A} k (x : A) :
  range range_order ({[k := x]} : gmap K A) = [(k, x)].
Proof.
  unfold range. apply Permutation_singleton_r.
  by rewrite range_order_perm, map_to_list_singleton.
Qed.

Lemma range_fmap `{Countable K} {A B} (f : A → B) (m : gmap K A) :
  (range range_order (f <$> m)).*2 ≡ₚ f <$> (range range_order m).*2.
Proof.
  unfold range. rewrite !range_order_perm, map_to_list_fmap.
  rewrite <- !list_fmap_compose. done.
Qed.

End ranging.

Lemma foldl_append_fmap {A B} (f : A → B) (xs : list A) (acc : list B) :
  foldl (λ acc x, acc ++ [f x]) acc xs = acc ++ (f <$> xs).
Proof.
  revert acc. induction xs as [|x xs IH]; intros acc; simpl.
  - by rewrite app_nil_r.
  - by rewrite IH, <- app_assoc.
Qed.

Lemma filter_ext_elem {A} (P1 P2 : A → Prop)
    `{!∀ x, Decision (P1 x), !∀ x, Decision (P2 x)} (l : list A) :
  (∀ x, x ∈ l → P1 x ↔ P2 x) → filter P1 l = filter P2 l.
Proof.
  induction l as [|a l IH]; intros Hiff; [done|].
  rewrite !filter_cons. rewrite IH by (intros x Hx; apply Hiff; by right).
  apply decide_ext, Hiff. left.
Qed.

Lemma filter_none {A} (P : A → Prop) `{!∀ x, Decision (P x)} (l : list A) :
  (∀ x, x ∈ l → ¬ P x) → filter P l = [].
Proof.
  induction l as [|a l IH]; intros Hno; [done|].
  rewrite filter_cons, decide_False by (apply Hno; left).
  apply IH. intros x Hx. apply Hno. by right.
Qed.

Section grouping_split.
Context `{Countable K} {A : Type} (key : A → K).

Lemma group_by_lookup_eq (xs : list A) (k : K) :
  group_by key xs !! k =
  match filter (λ x, key x = k) xs with [] => None | g => Some g end.
Proof.
  unfold group_by. rewrite group_fold_lookup, lookup_empty. simpl.
  by destruct (filter _ xs).
Qed.

(** The group of key [k] can be taken out of the map: what remains is the
    grouping of the records of the other keys. *)
Lemma group_by_split (xs : list A) (k : K) :
  filter (λ x, key x = k) xs ≠ [] →
  group_by key xs =
    <[k := filter (λ x, key x = k) xs]>
      (group_by key (filter (λ x, key x ≠ k) xs)) ∧
  group_by key (filter (λ x, key x ≠ k) xs) !! k = None.
Proof.
  intros Hne. split.
  - apply map_eq. intros k'. destruct (decide (k = k')) as [<-|Hk].
    + rewrite lookup_insert_eq, group_by_lookup_eq.
      by destruct (filter _ xs).
    + rewrite lookup_insert_ne, !group_by_lookup_eq by done.
      rewrite list_filter_filter.
      rewrite (list_filter_iff (λ x, key x = k' ∧ key x ≠ k)
                               (λ x, key x = k')); [done|].
      intros x. split; [by intros [? _]|]. intros ->. done.
  - rewrite group_by_lookup_eq.
    destruct (filter _ (filter _ xs)) as [|x g] eqn:Hg; [done|].
    assert (x ∈ filter (λ x, key x = k) (filter (λ x, key x ≠ k) xs)) as Hx
      by (rewrite Hg; left).
    apply list_elem_of_filter in Hx as [? Hx].
    by apply list_elem_of_filter in Hx as [? _].
Qed.

End grouping_split.

(** ** The remote group-schedule parser *)

Section remote_properties.

Import GroupSchedule.

Variable range_order : ∀ A : Type, list A → list A.
Hypothesis range_order_perm : ∀ A (l : list A), range_order A l ≡ₚ l.
Variable time_Parse : string → string → time_Time.

Local Abbreviation createLesson := (createLesson time_Parse).
Local Abbreviation dedup_emit := (dedup_emit time_Parse).
Local Abbreviation deduplicateLessons :=
  (deduplicateLessons range_order time_Parse).

Lemma dedup_groups_group_by lessonsData :
  dedup_groups lessonsData = group_by lessonKey (filter grouped lessonsData).
Proof.
  unfold dedup_groups, group_by. generalize (∅ : gmap (string * Z) (list LessonData)).
  induction lessonsData as [|data ds IH]; intros m; simpl; [done|].
  rewrite filter_cons. unfold grouped at 2.
  destruct (String.eqb_spec (DiscName data) IndividualPlaceholder) as [Heq|Hne].
  - by rewrite decide_False by (by intros []).
  - by rewrite decide_True.
Qed.

Lemma deduplicateLessons_fmap lessonsData :
  deduplicateLessons lessonsData =
  dedup_emit <$> (range range_order (dedup_groups lessonsData)).*2.
Proof.
  unfold GroupSchedule.deduplicateLessons.
  rewrite (foldl_append_fmap (λ entry, dedup_emit entry.2)).
  by rewrite <- list_fmap_compose.
Qed.

Lemma createLesson_label data :
  l_Discipline (createLesson data) = discipline_label data.
Proof.
  unfold GroupSchedule.createLesson, discipline_label, Sprintf_disc. simpl.
  destruct (String.eqb_spec (DiscType data) "") as [Heq|Hne].
  - by rewrite decide_True.
  - by rewrite decide_False.
Qed.

(** Every emitted lesson comes out of [createLesson]. *)
Lemma elem_of_deduplicateLessons lessonsData lesson :
  lesson ∈ deduplicateLessons lessonsData → ∃ data, lesson = createLesson data.
Proof.
  rewrite deduplicateLessons_fmap. intros (group & -> & _)%list_elem_of_fmap.
  unfold GroupSchedule.dedup_emit. destruct group as [|data [|? ?]]; eauto.
  destruct (String.eqb _ _); eauto.
Qed.

(** C7. A (date, period) group consisting of one raw record whose subgroup
    tag is "0" contributes exactly one lesson to the result, the record
    converted directly: half 0, duration 2, the record's period, discipline
    (with its type in brackets when it has one), instructor, room and group
    unchanged; the other records yield what they yield without it. *)
Theorem singleton_group_direct l1 data l2 :
  grouped data →
  DiscSubgroup data = "0" →
  Forall (λ other, grouped other → lessonKey other ≠ lessonKey data)
    (l1 ++ l2) →
  deduplicateLessons (l1 ++ data :: l2) ≡ₚ
    createLesson data :: deduplicateLessons (l1 ++ l2) ∧
  PairHalf (l_Time (createLesson data)) = 0 ∧
  Hours (l_Time (createLesson data)) = 2 ∧
  Number (l_Time (createLesson data)) = LessonNum data ∧
  l_Discipline (createLesson data) =
    (if decide (DiscType data = "") then DiscName data
     else DiscName data +:+ " [" +:+ DiscType data +:+ "]") ∧
  l_Teacher (createLesson data) = TeacherName data ∧
  l_Cabinet (createLesson data) = AuditName data ∧
  l_Group (createLesson data) = GroupName data ∧
  l_Student (createLesson data) = "".
Proof.
  intros Hdata Hsub Hothers.
  split; [|split_and!; try done; apply createLesson_label].
  rewrite !deduplicateLessons_fmap, !dedup_groups_group_by.
  set (k := lessonKey data).
  set (xs := filter grouped (l1 ++ data :: l2)).
  assert (filter (λ x, lessonKey x = k) xs = [data]) as Hgroup.
  { unfold xs. rewrite list_filter_filter, filter_app, filter_cons.
    rewrite decide_True by done.
    apply Forall_app in Hothers as [H1 H2].
    rewrite Forall_forall in H1, H2.
    rewrite !filter_none; [done|..]; intros x Hx [Hk Hg];
      [exact (H2 _ Hx Hg Hk)|exact (H1 _ Hx Hg Hk)]. }
  assert (filter (λ x, lessonKey x ≠ k) xs = filter grouped (l1 ++ l2)) as Hrest.
  { unfold xs. rewrite list_filter_filter, !filter_app, filter_cons.
    rewrite decide_False by (by intros [? _]).
    apply Forall_app in Hothers as [H1 H2].
    rewrite Forall_forall in H1, H2.
    f_equal; apply filter_ext_elem; intros x Hx;
      (split; [by intros [_ ?]|]); intros Hg; (split; [|done]);
      [exact (H1 _ Hx Hg)|exact (H2 _ Hx Hg)]. }
  destruct (group_by_split lessonKey xs k) as [Hsplit Hfresh];
    [by rewrite Hgroup|].
  rewrite Hsplit, Hgroup, Hrest in *.
  rewrite (range_insert_fresh range_order range_order_perm) by done.
  simpl. unfold GroupSchedule.dedup_emit at 1. rewrite Hsub. done.
Qed.

(** C6, as the code has it. Two raw records of the same (date, period), given
    in this order, are merged into exactly one lesson whose instructor field is
    the two instructor names in the order of the records joined with " & "
    (no sorting), whose date, period and clock times are those of the first
    record, with half 0 and duration 2. *)
Theorem two_records_merged r1 r2 :
  grouped r1 → grouped r2 → lessonKey r1 = lessonKey r2 →
  ∃ lesson,
    deduplicateLessons [r1; r2] = [lesson] ∧
    l_Teacher lesson = TeacherName r1 +:+ " & " +:+ TeacherName r2 ∧
    Date (l_Time lesson) = time_Parse "2006-01-02" (WeekDayDate r1) ∧
    Number (l_Time lesson) = LessonNum r1 ∧
    StartTime (l_Time lesson) = time_Parse "15:04" (LessonTimeStart r1) ∧
    EndTime (l_Time lesson) = time_Parse "15:04" (LessonTimeEnd r1) ∧
    PairHalf (l_Time lesson) = 0 ∧
    Hours (l_Time lesson) = 2.
Proof.
  intros Hg1 Hg2 Hkey. exists (createLesson (mergeLessons [r1; r2])).
  split; [|done].
  rewrite deduplicateLessons_fmap, dedup_groups_group_by.
  rewrite !filter_cons, !decide_True, filter_nil by done.
  unfold group_by, map_append. simpl foldl.
  rewrite <- Hkey, lookup_total_insert_eq, insert_insert_eq.
  rewrite lookup_total_empty, insert_empty. simpl app.
  by rewrite (range_singleton range_order range_order_perm).
Qed.

(** C10. Whatever the remote service replies, every lesson returned by the
    remote parser has an empty student name, half 0 and duration 2, and so
    occupies both half-slots of its period. *)
Theorem remote_lessons_full_group_periods
    (fetchDepartments : result (gmap string string))
    (fetchGroups : string → result (gmap string string))
    (fetchLessons : string → result (list LessonData))
    departmentName groupName lessons lesson :
  Parse range_order time_Parse fetchDepartments fetchGroups fetchLessons
    departmentName groupName = Ok lessons →
  lesson ∈ lessons →
  l_Student lesson = "" ∧
  PairHalf (l_Time lesson) = 0 ∧
  Hours (l_Time lesson) = 2 ∧
  Validator.lesson_slots lesson =
    [(Number (l_Time lesson) - 1) * 2; (Number (l_Time lesson) - 1) * 2 + 1].
Proof.
  unfold Parse. intros Hparse Hin.
  destruct fetchDepartments as [departments|]; [|done].
  destruct (departments !! departmentName) as [departmentID|]; [|done].
  destruct (fetchGroups departmentID) as [groups|]; [|done].
  destruct (groups !! groupName) as [groupID|]; [|done].
  destruct (fetchLessons groupID) as [lessonsData|]; [|done].
  injection Hparse as <-.
  by apply elem_of_deduplicateLessons in Hin as [data ->].
Qed.

End remote_properties.

Lemma singleton_group_direct_witness :
  GroupSchedule.deduplicateLessons range_in_order
    GroupSchedule.sample_time_Parse
    ([] ++ GroupSchedule.lecture_record :: [GroupSchedule.next_period_record])
  ≡ₚ GroupSchedule.createLesson GroupSchedule.sample_time_Parse
       GroupSchedule.lecture_record ::
     GroupSchedule.deduplicateLessons range_in_order
       GroupSchedule.sample_time_Parse
       ([] ++ [GroupSchedule.next_period_record]) ∧
  l_Discipline (GroupSchedule.createLesson GroupSchedule.sample_time_Parse
                  GroupSchedule.lecture_record) = "Гармония [лек]".
Proof.
  destruct (singleton_group_direct range_in_order range_in_order_perm
              GroupSchedule.sample_time_Parse [] GroupSchedule.lecture_record
              [GroupSchedule.next_period_record])
    as (Hperm & _ & _ & _ & Hdisc & _).
  - vm_compute. discriminate.
  - reflexivity.
  - repeat constructor. intros _. vm_compute. discriminate.
  - split; [exact Hperm|exact Hdisc].
Defined.

Lemma remote_lessons_full_group_periods_witness :
  l_Student (GroupSchedule.createLesson GroupSchedule.sample_time_Parse
               GroupSchedule.lecture_record) = "" ∧
  PairHalf (l_Time (GroupSchedule.createLesson GroupSchedule.sample_time_Parse
                      GroupSchedule.lecture_record)) = 0 ∧
  Hours (l_Time (GroupSchedule.createLesson GroupSchedule.sample_time_Parse
                   GroupSchedule.lecture_record)) = 2 ∧
  Validator.lesson_slots
    (GroupSchedule.createLesson GroupSchedule.sample_time_Parse
       GroupSchedule.lecture_record) = [2; 3].
Proof.
  apply (remote_lessons_full_group_periods range_in_order
           GroupSchedule.sample_time_Parse
           (Ok {["Музыкальный" := "3"]})
           (λ _, Ok {["МД-21-о" := "17"]})
           (λ _, Ok [GroupSchedule.lecture_record])
           "Музыкальный" "МД-21-о"
           [GroupSchedule.createLesson GroupSchedule.sample_time_Parse
              GroupSchedule.lecture_record]).
  - vm_compute. reflexivity.
  - left.
Defined.

(** The scenario of C6 on the code, in both orders of the two records: the
    instructors are joined with " & " in the order of the records, never as
    "Петров А.А.& Сидоров Б.Б.". *)
Lemma two_records_sorted_join_fails :
  (¬ ∃ lesson,
      GroupSchedule.deduplicateLessons range_in_order
        GroupSchedule.sample_time_Parse
        [GroupSchedule.petrov_record; GroupSchedule.sidorov_record]
        = [lesson] ∧
      l_Teacher lesson = "Петров А.А.& Сидоров Б.Б.") ∧
  (¬ ∃ lesson,
      GroupSchedule.deduplicateLessons range_in_order
        GroupSchedule.sample_time_Parse
        [GroupSchedule.sidorov_record; GroupSchedule.petrov_record]
        = [lesson] ∧
      l_Teacher lesson = "Петров А.А.& Сидоров Б.Б.").
Proof.
  split; intros (lesson & Hres & Hteacher);
    vm_compute in Hres; injection Hres as <-; discriminate Hteacher.
Qed.

Lemma two_records_merged_witness :
  ∃ lesson,
    GroupSchedule.deduplicateLessons range_in_order
      GroupSchedule.sample_time_Parse
      [GroupSchedule.petrov_record; GroupSchedule.sidorov_record]
      = [lesson] ∧
    l_Teacher lesson = "Петров А.А. & Сидоров Б.Б." ∧
    Date (l_Time lesson) = mkTime 2025 3 10 0 0 ∧
    Number (l_Time lesson) = 2 ∧
    StartTime (l_Time lesson) = mkTime 0 1 1 10 10 ∧
    EndTime (l_Time lesson) = mkTime 0 1 1 11 40 ∧
    PairHalf (l_Time lesson) = 0 ∧
    Hours (l_Time lesson) = 2.
Proof.
  apply (two_records_merged range_in_order range_in_order_perm
           GroupSchedule.sample_time_Parse
           GroupSchedule.petrov_record GroupSchedule.sidorov_record).
  - vm_compute. discriminate.
  - vm_compute. discriminate.
  - reflexivity.
Defined.

(** ** The tabular individual-schedule parser *)

(** *** The order of [sort.Strings] *)

Import IndividualSchedule.

Global Instance string_le_total : Total string_le.
Proof. intros s1 s2. apply String.leb_total. Qed.

(** *** The key of [mergeTeachers] *)

Lemma no_bar_app s1 s2 :
  no_bar (s1 +:+ s2) = true ↔ no_bar s1 = true ∧ no_bar s2 = true.
Proof.
  induction s1 as [|c s1 IH]; simpl; [tauto|].
  rewrite !andb_true_iff, IH. tauto.
Qed.

Lemma no_bar_pretty_N_go x s :
  no_bar s = true → no_bar (pretty_N_go x s) = true.
Proof.
  revert s. induction (N.lt_wf_0 x) as [x _ IH]; intros s Hs.
  assert (x = 0 ∨ 0 < x)%N as [->|?] by lia.
  - by rewrite pretty_N_go_0.
  - rewrite pretty_N_go_step by done. apply IH; [by apply N.div_lt|].
    simpl. rewrite Hs, andb_true_r. unfold pretty_N_char.
    by repeat case_match.
Qed.

Lemma no_bar_pretty_N (x : N) : no_bar (pretty x) = true.
Proof.
  unfold pretty, pretty_N. case_decide; [done|].
  by apply no_bar_pretty_N_go.
Qed.

Lemma no_bar_pretty_Z (x : Z) : no_bar (pretty x) = true.
Proof.
  unfold pretty, pretty_Z. destruct x as [|p|p]; [done|..].
  - apply no_bar_pretty_N.
  - apply no_bar_app. split; [done|apply no_bar_pretty_N].
Qed.

Lemma no_bar_zeros n : no_bar (String.concat "" (replicate n "0")) = true.
Proof.
  induction n as [|n IH]; [done|]. simpl replicate.
  destruct n as [|n]; [done|].
  change (String.concat "" ("0" :: replicate (S n) "0"))
    with ("0" +:+ "" +:+ String.concat "" (replicate (S n) "0")).
  by rewrite !no_bar_app.
Qed.

Lemma no_bar_appendInt x width : no_bar (appendInt x width) = true.
Proof.
  unfold appendInt. rewrite !no_bar_app. split_and!.
  - by destruct (x <? 0).
  - apply no_bar_zeros.
  - apply no_bar_pretty_Z.
Qed.

Lemma no_bar_DateString t : no_bar (DateString t) = true.
Proof.
  unfold DateString, Format_2006_01_02. rewrite !no_bar_app.
  split_and!; try done; apply no_bar_appendInt.
Qed.

(** A separator-free prefix is determined by the whole string. *)
Lemma bar_split_inj a a' b b' :
  no_bar a = true → no_bar a' = true →
  a +:+ "|" +:+ b = a' +:+ "|" +:+ b' → a = a' ∧ b = b'.
Proof.
  revert a'. induction a as [|c a IH]; intros [|c' a'] Ha Ha' Heq.
  - injection Heq as Heq. split; [done|exact Heq].
  - injection Heq as <- _. discriminate Ha'.
  - injection Heq as -> _. discriminate Ha.
  - injection Heq as -> Heq.
    apply andb_true_iff in Ha as [_ Ha]. apply andb_true_iff in Ha' as [_ Ha'].
    by destruct (IH a' Ha Ha' Heq) as [-> ->].
Qed.

(** On separator-free records the formatted key and the full key agree. *)
Lemma mergeKey_full_key l1 l2 :
  sep_free l1 → sep_free l2 →
  mergeKey l1 = mergeKey l2 ↔ full_key l1 = full_key l2.
Proof.
  intros (Hd1 & Hc1 & Hg1) (Hd2 & Hc2 & Hg2). unfold mergeKey, full_key. split.
  - intros Heq.
    apply bar_split_inj in Heq as [-> Heq]; [|apply no_bar_DateString..].
    apply bar_split_inj in Heq as [->%(inj pretty) Heq];
      [|apply no_bar_pretty_Z..].
    apply bar_split_inj in Heq as [->%(inj pretty) Heq];
      [|apply no_bar_pretty_Z..].
    apply bar_split_inj in Heq as [-> Heq]; [|done..].
    apply bar_split_inj in Heq as [-> Heq]; [|done..].
    apply bar_split_inj in Heq as [-> ->]; [|done..]. done.
  - by intros [= -> -> -> -> -> -> ->].
Qed.

Section tabular_properties.

Variable range_order : ∀ A : Type, list A → list A.
Hypothesis range_order_perm : ∀ A (l : list A), range_order A l ≡ₚ l.

Local Abbreviation mergeTeachers := (mergeTeachers range_order).
Local Abbreviation merge_emit := (merge_emit range_order).
Local Abbreviation joinIndLessons := (joinIndLessons range_order).

(** *** Merge across instructors *)

Lemma mergeTeachers_bind lessons :
  mergeTeachers lessons =
  range range_order (group_by mergeKey lessons) ≫= λ entry, merge_emit entry.2.
Proof.
  unfold IndividualSchedule.mergeTeachers.
  by rewrite (foldl_append_bind (λ entry, merge_emit entry.2)).
Qed.

(** One group is merged on its own; the rest of the records are merged as if
    the group were absent. *)
Lemma mergeTeachers_split lessons k :
  filter (λ l, mergeKey l = k) lessons ≠ [] →
  mergeTeachers lessons ≡ₚ
    merge_emit (filter (λ l, mergeKey l = k) lessons) ++
    mergeTeachers (filter (λ l, mergeKey l ≠ k) lessons).
Proof.
  intros Hne. rewrite !mergeTeachers_bind.
  destruct (group_by_split mergeKey lessons k Hne) as [Hsplit Hfresh].
  rewrite Hsplit at 1.
  by rewrite (range_insert_fresh range_order range_order_perm) by done.
Qed.

(** The set of instructor names collected for a group. *)
Lemma elem_of_teacherSet (group : list Lesson) (acc : gset string) t :
  t ∈ foldl (λ teacherSet lesson,
        if negb (String.eqb (l_Teacher lesson) "")
        then {[l_Teacher lesson]} ∪ teacherSet else teacherSet) acc group
  ↔ t ∈ acc ∨ (t ≠ "" ∧ ∃ lesson, lesson ∈ group ∧ l_Teacher lesson = t).
Proof.
  revert acc. induction group as [|lesson group IH]; intros acc; simpl.
  - split; [by left|]. intros [?|(_ & ? & []%elem_of_nil & _)]. done.
  - rewrite IH. destruct (String.eqb_spec (l_Teacher lesson) "") as [He|Hne];
      simpl; [|rewrite elem_of_union, elem_of_singleton]; split.
    + intros [?|(? & l & ? & ?)]; [by left|].
      right. split; [done|]. exists l. split; [by right|done].
    + intros [?|(Ht & l & [->|?]%elem_of_cons & Hl)]; [by left|congruence|].
      right. split; [done|]. by exists l.
    + intros [[->|?]|(? & l & ? & ?)]; [|by left|].
      * right. split; [done|]. exists lesson. split; [left|done].
      * right. split; [done|]. exists l. split; [by right|done].
    + intros [?|(Ht & l & [->|?]%elem_of_cons & Hl)].
      * left. by right.
      * left. by left.
      * right. split; [done|]. by exists l.
Qed.

Lemma merge_emit_cons first rest :
  Z.of_nat (length (first :: rest)) ≤ GoInt.int_max →
  ∃ teachers,
    Sorted string_le teachers ∧ NoDup teachers ∧
    (∀ t, t ∈ teachers ↔
          t ≠ "" ∧ ∃ lesson, lesson ∈ first :: rest ∧ l_Teacher lesson = t) ∧
    merge_emit (first :: rest) =
      [match rest with
       | [] => first
       | _ => with_Teacher first (String.concat "& " teachers)
       end].
Proof.
  intros Hlen. unfold IndividualSchedule.merge_emit.
  set (teacherSet := foldl _ ∅ (first :: rest)).
  exists (sort_Strings (range_keys range_order teacherSet)).
  assert (sort_Strings (range_keys range_order teacherSet) ≡ₚ
          elements teacherSet) as Hperm.
  { unfold sort_Strings, range_keys.
    by rewrite merge_sort_Permutation, range_order_perm. }
  split_and!.
  - apply (Sorted_merge_sort string_le).
  - rewrite Hperm. apply NoDup_elements.
  - intros t. rewrite Hperm, elem_of_elements. unfold teacherSet.
    rewrite elem_of_teacherSet, elem_of_empty. tauto.
  - unfold GoInt.len. rewrite wrap_in_range
      by (unfold GoInt.in_range, GoInt.int_min, GoInt.int_max in *; lia).
    destruct rest as [|second rest]; [done|].
    by destruct (Z.ltb_spec 1 (Z.of_nat (length (first :: second :: rest))));
      [|simpl in *; lia].
Qed.

(** C5. The half-period records sharing the key of the merge step (date,
    period, half, discipline, room, group and student, which the code formats
    into one string with "|" between the fields; two records whose discipline,
    room and group are free of "|" share it exactly when the seven fields
    agree) are merged into exactly one record, the rest being merged without
    them. A key with one record passes it through unchanged; a key with
    several records yields a record whose instructor field is the
    lexicographically sorted, duplicate-free list of the non-empty instructor
    names of the group joined with "& ", and whose other fields are those of
    the first record of the group. *)
Theorem merge_across_instructors lessons k :
  Z.of_nat (length lessons) ≤ GoInt.int_max →
  filter (λ l, mergeKey l = k) lessons ≠ [] →
  (∀ l1 l2, sep_free l1 → sep_free l2 →
     mergeKey l1 = mergeKey l2 ↔ full_key l1 = full_key l2) ∧
  ∃ merged teachers,
    mergeTeachers lessons ≡ₚ
      merged :: mergeTeachers (filter (λ l, mergeKey l ≠ k) lessons) ∧
    mergeKey merged = k ∧
    Sorted string_le teachers ∧ NoDup teachers ∧
    (∀ t, t ∈ teachers ↔
          t ≠ "" ∧ ∃ lesson, lesson ∈ lessons ∧ mergeKey lesson = k ∧
                             l_Teacher lesson = t) ∧
    (∀ single, filter (λ l, mergeKey l = k) lessons = [single] →
               merged = single) ∧
    (∀ first second rest,
       filter (λ l, mergeKey l = k) lessons = first :: second :: rest →
       l_Teacher merged = String.concat "& " teachers ∧
       l_Time merged = l_Time first ∧
       l_Discipline merged = l_Discipline first ∧
       l_Cabinet merged = l_Cabinet first ∧
       l_Group merged = l_Group first ∧
       l_Student merged = l_Student first).
Proof.
  intros Hlen Hne. split; [apply mergeKey_full_key|].
  pose proof (mergeTeachers_split lessons k Hne) as Hsplit.
  destruct (filter (λ l, mergeKey l = k) lessons) as [|first rest] eqn:Hgroup;
    [done|].
  assert (first ∈ filter (λ l, mergeKey l = k) lessons) as Hfirst
    by (rewrite Hgroup; left).
  apply list_elem_of_filter in Hfirst as [Hkey Hfirst].
  destruct (merge_emit_cons first rest) as (teachers & Hs & Hnd & Hin & Hemit).
  { pose proof (length_filter (λ l, mergeKey l = k) lessons) as Hle.
    rewrite Hgroup in Hle. lia. }
  rewrite Hemit in Hsplit.
  eexists _, teachers. split; [exact Hsplit|]. split_and!; try done.
  - destruct rest; exact Hkey.
  - intros t. rewrite Hin. split; intros (Ht & l & Hl & Hteacher).
    + split; [done|]. exists l. rewrite <- Hgroup in Hl.
      apply list_elem_of_filter in Hl as [? ?]. by split_and!.
    + destruct Hteacher as [? ?]. split; [done|]. exists l. split; [|done].
      rewrite <- Hgroup. by apply list_elem_of_filter.
  - by intros single [= -> ->].
  - by intros f s r [= -> ->].
Qed.

(** *** Rejoin half-periods *)

Lemma pair_map_snoc group lesson :
  pair_map (group ++ [lesson]) =
  <[PairHalf (l_Time lesson) := lesson]> (pair_map group).
Proof. unfold pair_map. by rewrite foldl_app. Qed.

Lemma pair_map_lookup group h :
  pair_map group !! h = half_record h group.
Proof.
  unfold half_record. induction group as [|lesson group IH] using rev_ind.
  - done.
  - rewrite pair_map_snoc, filter_app, filter_cons, filter_nil.
    destruct (decide (PairHalf (l_Time lesson) = h)) as [<-|Hne].
    + by rewrite lookup_insert_eq, last_snoc.
    + by rewrite lookup_insert_ne, app_nil_r.
Qed.

Lemma join_map_group_by lessons :
  join_map lessons = pair_map <$> group_by joinKey lessons.
Proof.
  unfold join_map, group_by.
  set (step := λ (lessonsMap : gmap (string * string * Z) (gmap Z Lesson))
                 lesson, _).
  enough (∀ groups, foldl step (pair_map <$> groups) lessons =
    pair_map <$> foldl (λ m x, map_append (joinKey x) x m) groups lessons)
    as Hgen by (rewrite <- (Hgen ∅); by rewrite fmap_empty).
  induction lessons as [|lesson lessons IH]; intros groups; simpl; [done|].
  rewrite <- IH. f_equal. unfold step, map_append.
  rewrite fmap_insert, pair_map_snoc. f_equal. f_equal.
  rewrite !lookup_total_alt, lookup_fmap.
  by destruct (groups !! joinKey lesson).
Qed.

Lemma joinIndLessons_fmap lessons :
  joinIndLessons lessons =
  join_emit <$> (range range_order (join_map lessons)).*2.
Proof.
  unfold IndividualSchedule.joinIndLessons.
  rewrite (foldl_append_fmap (λ entry, join_emit entry.2)).
  by rewrite <- list_fmap_compose.
Qed.

(** One (student, date, period) group yields one record; the rest of the
    records are joined as if the group were absent. *)
Lemma joinIndLessons_split lessons k :
  filter (λ l, joinKey l = k) lessons ≠ [] →
  joinIndLessons lessons ≡ₚ
    join_emit (pair_map (filter (λ l, joinKey l = k) lessons)) ::
    joinIndLessons (filter (λ l, joinKey l ≠ k) lessons).
Proof.
  intros Hne. rewrite !joinIndLessons_fmap, !join_map_group_by.
  destruct (group_by_split joinKey lessons k Hne) as [Hsplit Hfresh].
  rewrite Hsplit at 1. rewrite fmap_insert.
  rewrite (range_insert_fresh range_order range_order_perm)
    by (by rewrite lookup_fmap, Hfresh).
  done.
Qed.

(** C4. For a (student, date, period) group of the rejoin step, exactly one
    record is emitted, the rest of the records being joined without the
    group. When the group holds a half=1 and a half=2 record, the emitted
    record has half 0 and duration 2, discipline, instructor and room of the
    two halves joined with "/" when they differ and kept when they are equal,
    the end time of the half=2 record, and the remaining fields of the half=1
    record. When only half=1 is present the record is the half=1 record with
    "/" appended to discipline, instructor and room; when only half=2 is
    present it is the half=2 record with "/" prepended to them. *)
Theorem rejoin_half_periods lessons k :
  filter (λ l, joinKey l = k) lessons ≠ [] →
  ∃ joined,
    joinIndLessons lessons ≡ₚ
      joined :: joinIndLessons (filter (λ l, joinKey l ≠ k) lessons) ∧
    (∀ lesson1 lesson2,
       half_record 1 (filter (λ l, joinKey l = k) lessons) = Some lesson1 →
       half_record 2 (filter (λ l, joinKey l = k) lessons) = Some lesson2 →
       PairHalf (l_Time joined) = 0 ∧ Hours (l_Time joined) = 2 ∧
       l_Discipline joined =
         (if decide (l_Discipline lesson1 = l_Discipline lesson2)
          then l_Discipline lesson1
          else l_Discipline lesson1 +:+ "/" +:+ l_Discipline lesson2) ∧
       l_Teacher joined =
         (if decide (l_Teacher lesson1 = l_Teacher lesson2)
          then l_Teacher lesson1
          else l_Teacher lesson1 +:+ "/" +:+ l_Teacher lesson2) ∧
       l_Cabinet joined =
         (if decide (l_Cabinet lesson1 = l_Cabinet lesson2)
          then l_Cabinet lesson1
          else l_Cabinet lesson1 +:+ "/" +:+ l_Cabinet lesson2) ∧
       EndTime (l_Time joined) = EndTime (l_Time lesson2) ∧
       StartTime (l_Time joined) = StartTime (l_Time lesson1) ∧
       Date (l_Time joined) = Date (l_Time lesson1) ∧
       Number (l_Time joined) = Number (l_Time lesson1) ∧
       l_Group joined = l_Group lesson1 ∧
       l_Student joined = l_Student lesson1) ∧
    (∀ lesson1,
       half_record 1 (filter (λ l, joinKey l = k) lessons) = Some lesson1 →
       half_record 2 (filter (λ l, joinKey l = k) lessons) = None →
       joined = {| l_Time := l_Time lesson1;
                   l_Discipline := l_Discipline lesson1 +:+ "/";
                   l_Teacher := l_Teacher lesson1 +:+ "/";
                   l_Cabinet := l_Cabinet lesson1 +:+ "/";
                   l_Group := l_Group lesson1;
                   l_Student := l_Student lesson1 |}) ∧
    (∀ lesson2,
       half_record 1 (filter (λ l, joinKey l = k) lessons) = None →
       half_record 2 (filter (λ l, joinKey l = k) lessons) = Some lesson2 →
       joined = {| l_Time := l_Time lesson2;
                   l_Discipline := "/" +:+ l_Discipline lesson2;
                   l_Teacher := "/" +:+ l_Teacher lesson2;
                   l_Cabinet := "/" +:+ l_Cabinet lesson2;
                   l_Group := l_Group lesson2;
                   l_Student := l_Student lesson2 |}).
Proof.
  intros Hne. eexists. split; [by apply joinIndLessons_split|].
  unfold join_emit. rewrite !pair_map_lookup. split_and!.
  - intros lesson1 lesson2 -> ->. simpl. split_and!; try done.
    + destruct (String.eqb_spec (l_Discipline lesson1) (l_Discipline lesson2));
        [by rewrite decide_True|by rewrite decide_False].
    + destruct (String.eqb_spec (l_Teacher lesson1) (l_Teacher lesson2));
        [by rewrite decide_True|by rewrite decide_False].
    + destruct (String.eqb_spec (l_Cabinet lesson1) (l_Cabinet lesson2));
        [by rewrite decide_True|by rewrite decide_False].
  - by intros lesson1 -> ->.
  - by intros lesson2 -> ->.
Qed.

End tabular_properties.

(** *** Names of a cell to half-period records *)

(** A cell without "/" yields its one name twice; a cell with "/" yields the
    trimmed pieces between the separators (two for a single "/"). *)
Lemma extractStudentNames_names Join_Fields TrimSpace cell names :
  extractStudentNames Join_Fields TrimSpace cell = Ok names →
  cell ≠ "" ∧
  if Contains_slash (Join_Fields cell)
  then names = TrimSpace <$> Split_slash (Join_Fields cell)
  else names = [Join_Fields cell; Join_Fields cell].
Proof.
  unfold extractStudentNames.
  destruct (String.eqb_spec cell "") as [->|Hne]; [done|].
  destruct (Contains_slash (Join_Fields cell)); intros [= <-]; split; try done.
  by rewrite (foldl_append_fmap TrimSpace).
Qed.

(** C8, as the code has it. Each name extracted from a student-name cell
    yields one half-period record, in order: the record of the name at
    position [index] has half [index + 1], duration 1 and the name as its
    student; its group field is blanked when the name is empty, and is the
    extracted group otherwise. *)
Theorem names_to_half_records date lessonNumber discipline teacher cabinet
    groupName startTime endTime studentNames :
  Z.of_nat (length studentNames) ≤ GoInt.int_max →
  length (Parse_names date lessonNumber discipline teacher cabinet groupName
            startTime endTime studentNames) = length studentNames ∧
  ∀ index name, studentNames !! index = Some name →
    ∃ lesson,
      Parse_names date lessonNumber discipline teacher cabinet groupName
        startTime endTime studentNames !! index = Some lesson ∧
      PairHalf (l_Time lesson) = Z.of_nat index + 1 ∧
      Hours (l_Time lesson) = 1 ∧
      Number (l_Time lesson) = lessonNumber ∧
      l_Student lesson = name ∧
      l_Group lesson = (if decide (name = "") then "" else groupName) ∧
      l_Discipline lesson = discipline ∧ l_Teacher lesson = teacher ∧
      l_Cabinet lesson = cabinet.
Proof.
  intros Hlen. unfold Parse_names. split; [apply length_imap|].
  intros index name Hname. rewrite list_lookup_imap, Hname. simpl.
  eexists. split; [done|]. simpl. split_and!; try done.
  - apply lookup_lt_Some in Hname. unfold GoInt.add.
    rewrite wrap_in_range; [done|].
    unfold GoInt.in_range, GoInt.int_min, GoInt.int_max in *. lia.
  - destruct (String.eqb_spec name "");
      [by rewrite decide_True|by rewrite decide_False].
Qed.

Lemma names_to_half_records_witness :
  ∃ lesson,
    Parse_names march10 1 "Вокал" "Петров А.А." "К3-21" "МД-21-о"
      (mkTime 2025 3 10 8 30) (mkTime 2025 3 10 10 0)
      ["Иванов И.И."; ""] !! 1%nat = Some lesson ∧
    PairHalf (l_Time lesson) = 2 ∧ l_Student lesson = "" ∧
    l_Group lesson = "".
Proof.
  destruct (names_to_half_records march10 1 "Вокал" "Петров А.А." "К3-21"
              "МД-21-о" (mkTime 2025 3 10 8 30) (mkTime 2025 3 10 10 0)
              ["Иванов И.И."; ""]) as [_ Hrec].
  - unfold GoInt.int_max. simpl. lia.
  - destruct (Hrec 1%nat "" eq_refl)
      as (lesson & Hl & Hhalf & _ & _ & Hstudent & Hgroup & _).
    exists lesson. split_and!; done.
Defined.

(** The group is kept, not blanked, on a record whose student name is
    non-empty. *)
Lemma named_record_keeps_group :
  ¬ ∀ lesson,
      lesson ∈ Parse_names march10 1 "Вокал" "Петров А.А." "К3-21" "МД-21-о"
                 (mkTime 2025 3 10 8 30) (mkTime 2025 3 10 10 0)
                 ["Иванов И.И."; "Сидорова А.А."] →
      l_Student lesson ≠ "" → l_Group lesson = "".
Proof.
  intros Hall.
  set (lesson :=
    {| l_Time := NewLessonTime march10 1 1 1
                   (mkTime 2025 3 10 8 30) (mkTime 2025 3 10 10 0);
       l_Discipline := "Вокал"; l_Teacher := "Петров А.А.";
       l_Cabinet := "К3-21"; l_Group := "МД-21-о";
       l_Student := "Иванов И.И." |}).
  assert (l_Group lesson = "") as Hgroup.
  { apply Hall; [|discriminate]. vm_compute. left. }
  discriminate Hgroup.
Qed.

Lemma merge_across_instructors_witness :
  ∃ merged,
    IndividualSchedule.mergeTeachers range_in_order two_instructor_records ≡ₚ
      merged :: IndividualSchedule.mergeTeachers range_in_order
                  (filter (λ l, mergeKey l ≠ "2025-03-10|1|1|Вокал|К3-21||Иванов И.И.")
                     two_instructor_records) ∧
    mergeKey merged = "2025-03-10|1|1|Вокал|К3-21||Иванов И.И." ∧
    l_Teacher merged = "Петров А.А.& Сидоров Б.Б." ∧
    l_Time merged =
      NewLessonTime march10 1 1 1 (mkTime 2025 3 10 8 30)
        (mkTime 2025 3 10 10 0) ∧
    l_Discipline merged = "Вокал" ∧ l_Cabinet merged = "К3-21" ∧
    l_Group merged = "" ∧ l_Student merged = "Иванов И.И.".
Proof.
  destruct (merge_across_instructors range_in_order range_in_order_perm
              two_instructor_records "2025-03-10|1|1|Вокал|К3-21||Иванов И.И.")
    as (_ & merged & teachers & Hperm & Hkey & Hsorted & Hnd & Hin & _ &
        Hseveral).
  - unfold GoInt.int_max. simpl. lia.
  - vm_compute. discriminate.
  - destruct (Hseveral (half_lesson 1 1 "Вокал" "Сидоров Б.Б." "К3-21")
                (half_lesson 1 1 "Вокал" "Петров А.А." "К3-21") [])
      as (Hteacher & Htime & Hdisc & Hcab & Hgroup & Hstudent);
      [by vm_compute|].
    assert (teachers ≡ₚ ["Петров А.А."; "Сидоров Б.Б."]) as Hteachers.
    { apply NoDup_Permutation; [done|by apply (bool_decide_unpack _)|].
      intros t. rewrite Hin. split.
      - intros (_ & lesson & Hl & Hk & <-). unfold two_instructor_records in Hl.
        rewrite !elem_of_cons in Hl.
        destruct Hl as [->|[->|[->|Hl]]];
          [right; left|vm_compute in Hk; discriminate Hk|left|
           by apply elem_of_nil in Hl].
      - intros Ht. rewrite !elem_of_cons in Ht.
        destruct Ht as [->|[->|Ht]]; [| |by apply elem_of_nil in Ht].
        + split; [done|].
          exists (half_lesson 1 1 "Вокал" "Петров А.А." "К3-21").
          split_and!; [|by vm_compute|done]. unfold two_instructor_records.
          do 2 right. left.
        + split; [done|].
          exists (half_lesson 1 1 "Вокал" "Сидоров Б.Б." "К3-21").
          split_and!; [|by vm_compute|done]. unfold two_instructor_records.
          left. }
    symmetry in Hteachers. apply Permutation_length_2_inv in Hteachers.
    destruct Hteachers as [->| ->].
    + exists merged. by split_and!.
    + exfalso. apply Sorted_inv in Hsorted as [_ Hhd].
      apply HdRel_inv in Hhd. by vm_compute in Hhd.
Defined.

Lemma rejoin_half_periods_witness :
  ∃ joined,
    IndividualSchedule.joinIndLessons range_in_order half_pair_records ≡ₚ
      joined :: IndividualSchedule.joinIndLessons range_in_order
                  (filter (λ l, joinKey l ≠ ("Иванов И.И.", "2025-03-10", 1))
                     half_pair_records) ∧
    PairHalf (l_Time joined) = 0 ∧ Hours (l_Time joined) = 2 ∧
    l_Discipline joined = "Вокал/Дирижирование" ∧
    l_Teacher joined = "Сидоров Б.Б." ∧
    l_Cabinet joined = "К3-21/К3-22".
Proof.
  destruct (rejoin_half_periods range_in_order range_in_order_perm
              half_pair_records ("Иванов И.И.", "2025-03-10", 1))
    as (joined & Hperm & Hboth & _).
  - vm_compute. discriminate.
  - destruct (Hboth (half_lesson 1 1 "Вокал" "Сидоров Б.Б." "К3-21")
                (half_lesson 1 2 "Дирижирование" "Сидоров Б.Б." "К3-22"))
      as (Hhalf & Hhours & Hdisc & Hteacher & Hcab & _);
      [by vm_compute..|].
    exists joined. split_and!; done.
Defined.

(** ** The lessons repository and the schedule service *)

Section ingestion_properties.

Import Repository.

Variable individual_Parse : result (list Lesson).
Variable group_Parse : string → string → string → result (list Lesson).
Variable order_groupLessons : ∀ A : Type, list A → list A.
Variable order_lessons : ∀ A : Type, list A → list A.
Hypothesis order_lessons_perm : ∀ A (l : list A), order_lessons A l ≡ₚ l.
Variable now_Get now_Set : Z.
Variable range_order : ∀ A : Type, list A → list A.
Hypothesis range_order_perm : ∀ A (l : list A), range_order A l ≡ₚ l.

Local Abbreviation GetLessons :=
  (GetLessons individual_Parse group_Parse order_groupLessons order_lessons
     now_Get now_Set).
Local Abbreviation ProcessSchedule :=
  (ProcessSchedule individual_Parse group_Parse order_groupLessons
     order_lessons now_Get now_Set range_order).

Lemma elem_of_successes tasks lesson :
  lesson ∈ successes tasks ↔
  ∃ lessons, Ok lessons ∈ tasks ∧ lesson ∈ lessons.
Proof.
  unfold successes. rewrite list_elem_of_bind. split.
  - intros ([lessons|err] & Hin & Htask); [by exists lessons|].
    by apply elem_of_nil in Hin.
  - intros (lessons & Htask & Hin). by exists (Ok lessons).
Qed.

Lemma elem_of_tasks departments groups weekStart task :
  task ∈ (departments ≫= λ department,
            groups ≫= λ group, [group_Parse department group weekStart]) ↔
  ∃ department group, department ∈ departments ∧ group ∈ groups ∧
                      task = group_Parse department group weekStart.
Proof.
  rewrite list_elem_of_bind. split.
  - intros (department & (group & Hin & ?)%list_elem_of_bind & ?).
    apply list_elem_of_singleton in Hin. by exists department, group.
  - intros (department & group & ? & ? & ->). exists department.
    split; [|done]. apply list_elem_of_bind. exists group. split; [left|done].
Qed.

Lemma ValidateSchedule_no_lessons students :
  Validator.ValidateSchedule range_order (Validator.NewValidator students [])
    = [].
Proof.
  rewrite ValidateSchedule_bind.
  set (v := Validator.NewValidator students []).
  induction (Validator.val_students v) as [|student rest IH]; [done|].
  rewrite bind_cons, IH.
  change (Validator.groupByDate (Validator.collectStudentSchedule v student))
    with (∅ : gmap string (list Lesson)).
  by rewrite (range_empty range_order range_order_perm).
Qed.

(** C9, as the code has it. The ingestion never returns an error. A failed
    tabular parse and a failed remote fetch of one (department, group) pair
    are skipped without aborting: the lessons of the tabular parse, when it
    succeeds, and of every remote fetch that succeeds (on a cache miss) are
    all returned. The "no lessons found" error is the tabular parser's own,
    raised exactly when its files yield no record, and is skipped like the
    others. When nothing could be parsed or fetched, the service still runs
    the detector, over the empty lesson set, and returns no violation, no
    lesson and no error. *)
Theorem ingestion_never_fails (r : LessonsRepositoryImpl)
    (students : list Student) (weekStart : string) :
  (GetLessons r).1.2 = None ∧
  (∀ lessons lesson, individual_Parse = Ok lessons → lesson ∈ lessons →
     lesson ∈ (GetLessons r).1.1) ∧
  (∀ department group lessons lesson,
     (cache_Get now_Get (r_weekStart r) (r_cache r)).1 = None →
     department ∈ r_departments r → group ∈ r_groups r →
     group_Parse department group (r_weekStart r) = Ok lessons →
     lesson ∈ lessons → lesson ∈ (GetLessons r).1.1) ∧
  (∀ allLessons,
     (∃ err, Parse_finish range_order allLessons = Err err) ↔
     allLessons = []) ∧
  ((ProcessSchedule students weekStart).2 = None) ∧
  ((∀ lessons, individual_Parse ≠ Ok lessons) →
   (∀ department group lessons,
      group_Parse department group weekStart ≠ Ok lessons) →
   ProcessSchedule students weekStart = (([], []), None)).
Proof.
  split_and!.
  - unfold Repository.GetLessons. by destruct (cache_Get _ _ _) as [[?|] ?].
  - intros lessons lesson -> Hin. unfold Repository.GetLessons.
    destruct (cache_Get _ _ _) as [[?|] ?]; simpl;
      rewrite !elem_of_app; auto.
  - intros department group lessons lesson Hmiss Hd Hg Hparse Hin.
    unfold Repository.GetLessons.
    destruct (cache_Get _ _ _) as [[?|] ?]; [done|]. simpl.
    apply elem_of_app. right. apply elem_of_successes. exists lessons.
    split; [|done]. rewrite order_lessons_perm, <- Hparse.
    apply elem_of_tasks. by exists department, group.
  - intros [|lesson allLessons]; simpl; split; try done; [by eexists|].
    by intros [err ?].
  - done.
  - intros Hind Hgroup. unfold Repository.ProcessSchedule.
    set (repo := NewLessonsRepository _ _ _).
    assert ((GetLessons repo).1.1 = []) as ->.
    { unfold Repository.GetLessons, cache_Get. simpl.
      rewrite lookup_empty. simpl.
      destruct individual_Parse as [lessons|]; [by destruct (Hind lessons)|].
      simpl. apply elem_of_nil_inv. intros lesson.
      rewrite elem_of_successes. intros (lessons & Htask & _).
      rewrite order_lessons_perm in Htask.
      apply elem_of_tasks in Htask as (department & group & _ & _ & Htask).
      by destruct (Hgroup department group lessons). }
    by rewrite ValidateSchedule_no_lessons.
Qed.

End ingestion_properties.

Lemma ingestion_never_fails_witness :
  Repository.ProcessSchedule (Err "не найдено уроков в файлах")
    (λ _ _ _, Err "failed to fetch departments: timeout")
    range_in_order range_in_order 0 0 range_in_order
    [Validator.ivanov] "2025-03-10" = (([], []), None).
Proof.
  apply (ingestion_never_fails (Err "не найдено уроков в файлах")
           (λ _ _ _, Err "failed to fetch departments: timeout")
           range_in_order range_in_order range_in_order_perm 0 0
           range_in_order range_in_order_perm
           (Repository.NewLessonsRepository [] [] "2025-03-10")
           [Validator.ivanov] "2025-03-10").
  - intros lessons. discriminate.
  - intros department group lessons. discriminate.
Defined.

(** No lesson can be parsed or fetched from any source, and yet the ingestion
    returns a nil error: an error is not returned "exactly when no lessons
    could be obtained". *)
Lemma no_lessons_no_error :
  ¬ ((Repository.GetLessons (Err "не найдено уроков в файлах")
        (λ _ _ _, Err "failed to fetch departments: timeout")
        range_in_order range_in_order 0 0
        (Repository.NewLessonsRepository ["Музыкальный"] ["МД-21-о"]
           "2025-03-10")).1.2 ≠ None
     ↔
     (Repository.GetLessons (Err "не найдено уроков в файлах")
        (λ _ _ _, Err "failed to fetch departments: timeout")
        range_in_order range_in_order 0 0
        (Repository.NewLessonsRepository ["Музыкальный"] ["МД-21-о"]
           "2025-03-10")).1.1 = []).
Proof.
  intros [_ Herr]. by apply Herr.
Qed.

(** * Further properties of the code *)

(** ** The violation detector *)

Section detector_extras.

Variable range_order : ∀ A : Type, list A → list A.
Hypothesis range_order_perm : ∀ A (l : list A), range_order A l ≡ₚ l.

Import Validator.

Lemma total_hours_Permutation day day' :
  day ≡ₚ day' → total_hours day = total_hours day'.
Proof.
  induction 1 as [|x l l' _ IH|x y l|l l' l'' _ IH1 _ IH2]; simpl;
    [done|by rewrite IH|lia|congruence].
Qed.

(** The load of a day does not depend on the order in which its lessons are
    listed, whatever the Hours are (the sum wraps around the same way). *)
Theorem calculateLoad_order_independent day day' :
  day ≡ₚ day' → calculateLoad day = calculateLoad day'.
Proof.
  intros Hperm. by rewrite !calculateLoad_wrap, (total_hours_Permutation _ _ Hperm).
Qed.

Lemma occupied_slots_Permutation day day' :
  day ≡ₚ day' → occupied_slots day ≡ₚ occupied_slots day'.
Proof. intros Hperm. unfold occupied_slots. by rewrite Hperm. Qed.

Lemma max_slot_Permutation l l' :
  l ≡ₚ l' → l ≠ [] → max_slot l = max_slot l'.
Proof.
  intros Hperm Hne.
  assert (l' ≠ []) as Hne' by (intros ->; by apply Permutation_nil_r in Hperm).
  destruct (max_slot_spec l Hne) as [Hin Hle].
  destruct (max_slot_spec l' Hne') as [Hin' Hle'].
  rewrite Forall_forall in Hle, Hle'.
  assert (max_slot l ∈ l') as Hin1 by (by rewrite <- Hperm).
  assert (max_slot l' ∈ l) as Hin2 by (by rewrite Hperm).
  pose proof (Hle _ Hin2). pose proof (Hle' _ Hin1). lia.
Qed.

Lemma min_slot_Permutation l l' :
  l ≡ₚ l' → l ≠ [] → min_slot l = min_slot l'.
Proof.
  intros Hperm Hne.
  assert (l' ≠ []) as Hne' by (intros ->; by apply Permutation_nil_r in Hperm).
  destruct (min_slot_spec l Hne) as [Hin Hle].
  destruct (min_slot_spec l' Hne') as [Hin' Hle'].
  rewrite Forall_forall in Hle, Hle'.
  assert (min_slot l ∈ l') as Hin1 by (by rewrite <- Hperm).
  assert (min_slot l' ∈ l) as Hin2 by (by rewrite Hperm).
  pose proof (Hle _ Hin2). pose proof (Hle' _ Hin1). lia.
Qed.

Lemma remove_dups_length_Permutation (l l' : list Z) :
  l ≡ₚ l' → length (remove_dups l) = length (remove_dups l').
Proof.
  intros Hperm. apply Permutation_length, NoDup_Permutation;
    [apply NoDup_remove_dups..|].
  intros x. by rewrite !elem_of_remove_dups, Hperm.
Qed.

Lemma gap_count_Permutation day day' :
  day ≡ₚ day' → day ≠ [] → gap_count day = gap_count day'.
Proof.
  intros Hperm Hne. unfold gap_count.
  pose proof (occupied_slots_Permutation _ _ Hperm) as Hslots.
  pose proof (occupied_slots_nonempty _ Hne) as Hs.
  by rewrite (max_slot_Permutation _ _ Hslots Hs),
    (min_slot_Permutation _ _ Hslots Hs),
    (remove_dups_length_Permutation _ _ Hslots).
Qed.

(** X1. On well-formed lessons the gap count of a day does not depend on the
    order in which its lessons are listed. *)
Theorem calculateGaps_order_independent day day' :
  day ≡ₚ day' → day ≠ [] → Forall slot_wf day →
  calculateGaps day = calculateGaps day'.
Proof.
  intros Hperm Hne Hwf.
  assert (day' ≠ []) as Hne'
    by (intros ->; by apply Permutation_nil_r in Hperm).
  assert (Forall slot_wf day') as Hwf' by (by rewrite <- Hperm).
  rewrite !calculateGaps_exact by done. by apply gap_count_Permutation.
Qed.

(** X2. The gap count of a day is the number of half-slots between its first and
    its last occupied half-slot that no lesson occupies; in particular it is
    never negative. *)
Theorem calculateGaps_counts_free_slots day :
  day ≠ [] → Forall slot_wf day →
  calculateGaps day = Z.of_nat (length (free_slots day)) ∧
  (∀ slot, slot ∈ free_slots day ↔
     min_slot (occupied_slots day) < slot < max_slot (occupied_slots day) ∧
     slot ∉ occupied_slots day).
Proof.
  intros Hne Hwf. rewrite calculateGaps_exact by done.
  unfold gap_count, free_slots.
  pose proof (occupied_slots_nonempty _ Hne) as Hs.
  set (slots := occupied_slots day) in *.
  destruct (min_slot_spec slots Hs) as [Hmin Hge].
  destruct (max_slot_spec slots Hs) as [Hmax Hle].
  rewrite Forall_forall in Hge, Hle.
  pose proof (Hle _ Hmin) as Hspan.
  set (mn := min_slot slots) in *. set (mx := max_slot slots) in *.
  split.
  - pose proof (filter_app_complement (λ slot, slot ∈ slots)
                  (seqZ mn (mx - mn + 1))) as Hsplit.
    apply Permutation_length in Hsplit.
    rewrite length_app, length_seqZ in Hsplit.
    assert (filter (λ slot, slot ∈ slots) (seqZ mn (mx - mn + 1))
            ≡ₚ remove_dups slots) as Hocc.
    { apply NoDup_Permutation.
      - apply NoDup_filter, NoDup_seqZ.
      - apply NoDup_remove_dups.
      - intros x. rewrite list_elem_of_filter, elem_of_remove_dups, elem_of_seqZ.
        split; [tauto|]. intros Hx. split; [done|].
        pose proof (Hge _ Hx). pose proof (Hle _ Hx). lia. }
    apply Permutation_length in Hocc. lia.
  - intros slot. rewrite list_elem_of_filter, elem_of_seqZ. split.
    + intros [Hfree Hrange]. split; [|done].
      assert (slot ≠ mn) by (by intros ->). assert (slot ≠ mx) by (by intros ->).
      lia.
    + intros [Hrange Hfree]. split; [done|lia].
Qed.

(** X3. Every reported violation names a student of the roster, is dated on a day
    on which that student has a lesson, and carries a magnitude strictly
    above its threshold: the load of that day, above 10, or its gap count,
    above 2 for a first-year student and above 4 otherwise. *)
Theorem ValidateSchedule_sound students lessons v :
  v ∈ ValidateSchedule range_order (NewValidator students lessons) →
  ∃ student d,
    student ∈ students ∧
    schedule_on student d lessons ≠ [] ∧
    reported_for student v ∧ reported_on d v ∧
    ((v_Type v = LoadExceeded ∧
      v_Hours v = calculateLoad (schedule_on student d lessons) ∧
      10 < v_Hours v) ∨
     (v_Type v = GapsExceeded ∧
      v_Hours v = calculateGaps (schedule_on student d lessons) ∧
      (if s_Year student =? 1 then 2 else 4) < v_Hours v)).
Proof.
  intros Hv.
  apply (elem_of_ValidateSchedule range_order range_order_perm) in Hv
    as (student & d & Hin & Hne & Hv).
  apply elem_of_validateDay in Hv as (first & rest & Hday & Hv).
  exists student, d. split_and!; [done..| | |].
  - by destruct Hv as [[_ ->]|[_ ->]].
  - unfold reported_on.
    destruct Hv as [[_ ->]|[_ ->]]; simpl; by eapply schedule_on_head.
  - destruct Hv as [[? ->]|[? ->]]; [left|right]; simpl; by split_and!.
Qed.

(** X4. The roster is processed student by student, in order: the violations of
    two rosters put end to end are those of the first followed by those of
    the second, over the same lessons. *)
Theorem ValidateSchedule_roster_app students1 students2 lessons :
  ValidateSchedule range_order (NewValidator (students1 ++ students2) lessons) =
  ValidateSchedule range_order (NewValidator students1 lessons) ++
  ValidateSchedule range_order (NewValidator students2 lessons).
Proof.
  rewrite !ValidateSchedule_bind. simpl. by rewrite bind_app.
Qed.

End detector_extras.

Lemma calculateGaps_order_independent_witness :
  Validator.calculateGaps Validator.periods_1_and_4 =
  Validator.calculateGaps (reverse Validator.periods_1_and_4).
Proof.
  apply calculateGaps_order_independent.
  - by rewrite reverse_Permutation.
  - vm_compute. discriminate.
  - unfold Validator.periods_1_and_4, Validator.slot_wf.
    rewrite half_int_max.
    repeat (apply Forall_cons; split; [simpl; lia|]). by apply Forall_nil.
Defined.

Lemma calculateGaps_counts_free_slots_witness :
  Validator.calculateGaps Validator.periods_1_and_4 =
  Z.of_nat (length (free_slots Validator.periods_1_and_4)).
Proof.
  apply calculateGaps_counts_free_slots.
  - vm_compute. discriminate.
  - unfold Validator.periods_1_and_4, Validator.slot_wf.
    rewrite half_int_max.
    repeat (apply Forall_cons; split; [simpl; lia|]). by apply Forall_nil.
Defined.

Lemma ValidateSchedule_sound_witness :
  ∃ student d,
    student ∈ [Validator.ivanov] ∧
    Validator.schedule_on student d Validator.six_lessons ≠ [] ∧
    Validator.reported_for student
      (NewViolation "Иванов И.И." "МД-21-о" 2 Validator.march10
         Validator.LoadExceeded 12).
Proof.
  destruct (ValidateSchedule_sound range_in_order range_in_order_perm
              [Validator.ivanov] Validator.six_lessons
              (NewViolation "Иванов И.И." "МД-21-о" 2 Validator.march10
                 Validator.LoadExceeded 12))
    as (student & d & Hin & Hne & Hfor & _).
  - vm_compute. left.
  - by exists student, d.
Defined.

(** ** The remote group-schedule parser *)

Lemma length_substring_prefix n s :
  (n ≤ String.length s)%nat → String.length (String.substring 0 n s) = n.
Proof.
  revert s. induction n as [|n IH]; intros [|c s] Hn; simpl in *;
    [done|done|lia|]. rewrite IH; [done|lia].
Qed.

Lemma substring_prefix_app n s :
  (n ≤ String.length s)%nat →
  ∃ rest, s = String.substring 0 n s +:+ rest.
Proof.
  revert s. induction n as [|n IH]; intros [|c s] Hn; simpl in *.
  - by exists "".
  - by exists (String c s).
  - lia.
  - destruct (IH s) as [rest Hrest]; [lia|]. exists rest.
    change (String c s = String c (String.substring 0 n s +:+ rest)).
    f_equal. exact Hrest.
Qed.

Lemma string_app_nil_r s : s +:+ "" = s.
Proof.
  induction s as [|c s IH]; [done|].
  change (String c (s +:+ "") = String c s). by rewrite IH.
Qed.

Lemma string_length_app s1 s2 :
  String.length (s1 +:+ s2) = (String.length s1 + String.length s2)%nat.
Proof.
  induction s1 as [|c s1 IH]; [done|].
  change (S (String.length (s1 +:+ s2)) =
          S (String.length s1 + String.length s2)).
  by rewrite IH.
Qed.

(** X5. With a non-negative bound, [truncate] never panics: a string of at most
    [maxLen] bytes comes back unchanged, and a longer one is cut to its first
    [maxLen] bytes followed by "...", so that the result never exceeds
    [maxLen + 3] bytes. *)
Theorem truncate_bounded s maxLen :
  0 ≤ maxLen → Z.of_nat (String.length s) ≤ GoInt.int_max →
  ∃ r, truncate s maxLen = Some r ∧
       Z.of_nat (String.length r) ≤ maxLen + 3 ∧
       (Z.of_nat (String.length s) ≤ maxLen → r = s) ∧
       (maxLen < Z.of_nat (String.length s) →
        ∃ prefix rest, r = prefix +:+ "..." ∧ s = prefix +:+ rest ∧
                       Z.of_nat (String.length prefix) = maxLen).
Proof.
  intros Hmax Hlen. unfold truncate, GoInt.len.
  rewrite wrap_in_range
    by (unfold GoInt.in_range, GoInt.int_min, GoInt.int_max in *; lia).
  destruct (Z.leb_spec (Z.of_nat (String.length s)) maxLen) as [Hle|Hgt].
  - exists s. split_and!; [done|lia|done|lia].
  - destruct (Z.ltb_spec maxLen 0) as [?|_]; [lia|].
    assert (Z.to_nat maxLen ≤ String.length s)%nat as Hn by lia.
    eexists. split; [done|].
    pose proof (length_substring_prefix _ _ Hn) as Hpre.
    split_and!.
    + rewrite string_length_app, Hpre. simpl. lia.
    + lia.
    + intros _. destruct (substring_prefix_app _ _ Hn) as [rest Hrest].
      eexists _, rest. split_and!; [done|done|]. rewrite Hpre. lia.
Qed.

Lemma truncate_bounded_witness :
  ∃ r, truncate "<html><body>session expired" 6 = Some r ∧
       Z.of_nat (String.length r) ≤ 6 + 3.
Proof.
  destruct (truncate_bounded "<html><body>session expired" 6)
    as (r & Hr & Hlen & _).
  - lia.
  - unfold GoInt.int_max. simpl. lia.
  - by exists r.
Defined.

Section grouping_extras.
Context `{Countable K} {A : Type} (key : A → K).

Lemma dom_group_by (xs : list A) :
  dom (group_by key xs) = list_to_set (key <$> xs).
Proof.
  apply set_eq. intros k.
  rewrite elem_of_dom, elem_of_list_to_set, list_elem_of_fmap.
  rewrite group_by_lookup_eq. split.
  - destruct (filter _ xs) as [|x g] eqn:Hg; [by intros [? ?]|]. intros _.
    assert (x ∈ filter (λ x, key x = k) xs) as Hx by (rewrite Hg; left).
    apply list_elem_of_filter in Hx as [? ?]. by exists x.
  - intros (x & -> & Hx).
    assert (x ∈ filter (λ y, key y = key x) xs) as Hin
      by (by apply list_elem_of_filter).
    destruct (filter _ xs); [by apply elem_of_nil in Hin|done].
Qed.

(** The number of groups is the number of distinct keys. *)
Lemma size_group_by (xs : list A) :
  size (group_by key xs) = length (remove_dups (key <$> xs)).
Proof.
  rewrite <- size_dom, dom_group_by.
  rewrite <- (size_list_to_set (C:=gset K) (remove_dups (key <$> xs)))
    by apply NoDup_remove_dups.
  f_equal. apply set_eq. intros k.
  by rewrite !elem_of_list_to_set, elem_of_remove_dups.
Qed.

End grouping_extras.

Section remote_extras.

Import GroupSchedule.

Variable range_order : ∀ A : Type, list A → list A.
Hypothesis range_order_perm : ∀ A (l : list A), range_order A l ≡ₚ l.
Variable time_Parse : string → string → time_Time.

Lemma length_range `{Countable K} {A} (m : gmap K A) :
  length (range range_order m) = size m.
Proof.
  unfold range. rewrite (Permutation_length (range_order_perm _ _)).
  by rewrite length_map_to_list.
Qed.

(** X6. The remote deduplication returns one lesson per distinct (date, period)
    slot of the records that are not individual-lesson placeholders. *)
Theorem deduplicateLessons_one_per_slot lessonsData :
  length (deduplicateLessons range_order time_Parse lessonsData) =
  length (remove_dups (lessonKey <$> filter grouped lessonsData)).
Proof.
  rewrite deduplicateLessons_fmap, !length_fmap, length_range.
  by rewrite dedup_groups_group_by, size_group_by.
Qed.

(** X7. Records of the individual-lessons placeholder discipline have no effect
    on the result, wherever they stand; records that are all placeholders
    yield nothing. *)
Theorem deduplicateLessons_skips_placeholders lessonsData :
  deduplicateLessons range_order time_Parse lessonsData =
    deduplicateLessons range_order time_Parse (filter grouped lessonsData) ∧
  (Forall (λ data, DiscName data = IndividualPlaceholder) lessonsData →
   deduplicateLessons range_order time_Parse lessonsData = []).
Proof.
  split.
  - rewrite !deduplicateLessons_fmap, !dedup_groups_group_by.
    by rewrite (list_filter_filter_l grouped grouped).
  - intros Hall. rewrite deduplicateLessons_fmap, dedup_groups_group_by.
    rewrite filter_none.
    + unfold group_by. simpl.
      by rewrite (range_empty range_order range_order_perm).
    + rewrite Forall_forall in Hall. intros data Hin Hg. by apply Hg, Hall.
Qed.

Lemma dedup_emit_first first rest :
  Date (l_Time (dedup_emit time_Parse (first :: rest))) =
    time_Parse "2006-01-02" (WeekDayDate first) ∧
  Number (l_Time (dedup_emit time_Parse (first :: rest))) = LessonNum first ∧
  StartTime (l_Time (dedup_emit time_Parse (first :: rest))) =
    time_Parse "15:04" (LessonTimeStart first) ∧
  EndTime (l_Time (dedup_emit time_Parse (first :: rest))) =
    time_Parse "15:04" (LessonTimeEnd first) ∧
  l_Group (dedup_emit time_Parse (first :: rest)) = GroupName first.
Proof.
  unfold dedup_emit. destruct rest as [|second rest]; [|done].
  by destruct (String.eqb _ _).
Qed.

(** X8. Slot coverage of the deduplication. Every returned lesson stands for a
    record that is not a placeholder, the first of its (date, period) slot,
    whose date, period, clock times and group it carries; and every record
    that is not a placeholder has its slot represented by a returned
    lesson. *)
Theorem deduplicateLessons_slot_coverage lessonsData :
  (∀ lesson, lesson ∈ deduplicateLessons range_order time_Parse lessonsData →
     ∃ data, data ∈ lessonsData ∧ grouped data ∧
       Date (l_Time lesson) = time_Parse "2006-01-02" (WeekDayDate data) ∧
       Number (l_Time lesson) = LessonNum data ∧
       StartTime (l_Time lesson) = time_Parse "15:04" (LessonTimeStart data) ∧
       EndTime (l_Time lesson) = time_Parse "15:04" (LessonTimeEnd data) ∧
       l_Group lesson = GroupName data) ∧
  (∀ data, data ∈ lessonsData → grouped data →
     ∃ lesson, lesson ∈ deduplicateLessons range_order time_Parse lessonsData ∧
       Date (l_Time lesson) = time_Parse "2006-01-02" (WeekDayDate data) ∧
       Number (l_Time lesson) = LessonNum data).
Proof.
  rewrite deduplicateLessons_fmap, dedup_groups_group_by. split.
  - intros lesson (group & -> & Hgroup)%list_elem_of_fmap.
    apply list_elem_of_fmap in Hgroup as ([k g] & -> & Hentry). simpl.
    apply (elem_of_range range_order range_order_perm) in Hentry.
    apply group_by_lookup in Hentry as [-> Hne].
    destruct (filter _ _) as [|first rest] eqn:Hg; [done|].
    assert (first ∈ filter (λ x, lessonKey x = k) (filter grouped lessonsData))
      as Hfirst by (rewrite Hg; left).
    apply list_elem_of_filter in Hfirst as [_ Hfirst].
    apply list_elem_of_filter in Hfirst as [? ?].
    exists first. destruct (dedup_emit_first first rest) as (? & ? & ? & ? & ?).
    by split_and!.
  - intros data Hin Hdata.
    set (g := filter (λ x, lessonKey x = lessonKey data)
                (filter grouped lessonsData)).
    assert (data ∈ g) as Hg
      by (apply list_elem_of_filter; split; [done|];
          by apply list_elem_of_filter).
    destruct g as [|first rest] eqn:Heq; [by apply elem_of_nil in Hg|].
    assert (first ∈ g) as Hfirst by (rewrite Heq; left).
    apply list_elem_of_filter in Hfirst as [[= Hd Hn] _].
    exists (dedup_emit time_Parse (first :: rest)).
    destruct (dedup_emit_first first rest) as (-> & -> & _).
    split; [|by rewrite Hd, Hn].
    apply list_elem_of_fmap. exists (first :: rest). split; [done|].
    apply list_elem_of_fmap. exists (lessonKey data, first :: rest).
    split; [done|].
    apply (elem_of_range range_order range_order_perm), group_by_lookup.
    split; [symmetry; exact Heq|done].
Qed.

(** X9. A slot that goes through the merge (several records, or one record whose
    subgroup tag is not "0") gets its instructor and room joined over the
    records with " & " and " / ", and as discipline the labels of the
    records (name, with the type in brackets) joined with " / " and followed
    once more by the type of the first record in brackets: the type of the
    first record is appended both by the merge and by the conversion. *)
Theorem merged_slot_fields first rest :
  rest ≠ [] ∨ DiscSubgroup first ≠ "0" →
  l_Teacher (dedup_emit time_Parse (first :: rest)) =
    String.concat " & " (TeacherName <$> first :: rest) ∧
  l_Cabinet (dedup_emit time_Parse (first :: rest)) =
    String.concat " / " (AuditName <$> first :: rest) ∧
  l_Discipline (dedup_emit time_Parse (first :: rest)) =
    String.concat " / " (discipline_label <$> first :: rest) +:+
    (if decide (DiscType first = "") then ""
     else " [" +:+ DiscType first +:+ "]").
Proof.
  intros Hmerge.
  assert (dedup_emit time_Parse (first :: rest) =
          createLesson time_Parse (mergeLessons (first :: rest))) as ->.
  { unfold dedup_emit. destruct rest as [|second rest]; [|done].
    destruct Hmerge as [?|Hsub]; [done|].
    by destruct (String.eqb_spec (DiscSubgroup first) "0"). }
  split_and!; [done..|].
  rewrite createLesson_label. unfold discipline_label at 1. simpl.
  assert (∀ data, (if negb (String.eqb (DiscType data) "")
                   then Sprintf_disc (DiscName data) (DiscType data)
                   else DiscName data) = discipline_label data) as Hlabel.
  { intros data. unfold discipline_label, Sprintf_disc.
    destruct (String.eqb_spec (DiscType data) "");
      [by rewrite decide_True|by rewrite decide_False]. }
  rewrite Hlabel.
  rewrite (list_fmap_ext _ discipline_label rest)
    by (intros i data _; apply Hlabel).
  destruct (decide (DiscType first = "")) as [Heq|Hne]; [|done].
  symmetry. apply string_app_nil_r.
Qed.

End remote_extras.

Lemma merged_slot_fields_witness :
  l_Discipline
    (GroupSchedule.dedup_emit GroupSchedule.sample_time_Parse
       [GroupSchedule.mkLessonData 1 "2025-03-10" "2025-03-10" "2025-03-16"
          2 "10:10" "11:40" "Гармония" "лек" "1" "Петров А.А." "К3-21"
          "МД-21-о"]) = "Гармония [лек] [лек]".
Proof.
  destruct (merged_slot_fields GroupSchedule.sample_time_Parse
    (GroupSchedule.mkLessonData 1 "2025-03-10" "2025-03-10" "2025-03-16"
          2 "10:10" "11:40" "Гармония" "лек" "1" "Петров А.А." "К3-21"
          "МД-21-о") []) as (_ & _ & Hdisc).
  - right. discriminate.
  - exact Hdisc.
Defined.

(** ** The tabular individual-schedule parser *)

Section tabular_extras.

Variable range_order : ∀ A : Type, list A → list A.
Hypothesis range_order_perm : ∀ A (l : list A), range_order A l ≡ₚ l.

Lemma with_Teacher_same lesson : with_Teacher lesson (l_Teacher lesson) = lesson.
Proof. by destruct lesson. Qed.

(** A group of one record is passed through as it is. *)
Lemma merge_emit_singleton lesson :
  merge_emit range_order [lesson] = [lesson].
Proof. done. Qed.

(** Whatever its size, a non-empty group yields one record: its first record,
    up to the instructor field. *)
Lemma merge_emit_first first rest :
  ∃ teacher,
    merge_emit range_order (first :: rest) = [with_Teacher first teacher].
Proof.
  unfold merge_emit. destruct (1 <? GoInt.len (length (first :: rest))).
  - by eexists.
  - exists (l_Teacher first). by rewrite with_Teacher_same.
Qed.

Lemma range_group_by_nonempty {A} `{Countable K} (key : A → K) xs k g :
  (k, g) ∈ range range_order (group_by key xs) →
  ∃ first rest, g = first :: rest ∧ key first = k ∧ first ∈ xs.
Proof.
  intros Hin. apply (elem_of_range range_order range_order_perm) in Hin.
  apply group_by_lookup in Hin as [-> Hne].
  destruct (filter _ xs) as [|first rest] eqn:Hg; [done|].
  assert (first ∈ filter (λ x, key x = k) xs) as Hfirst by (rewrite Hg; left).
  apply list_elem_of_filter in Hfirst as [? ?]. by exists first, rest.
Qed.

Lemma NoDup_range_keys {A} `{Countable K} (m : gmap K A) :
  NoDup (range range_order m).*1.
Proof.
  unfold range. rewrite range_order_perm. apply NoDup_fst_map_to_list.
Qed.

Lemma mergeTeachers_keys lessons :
  mergeKey <$> mergeTeachers range_order lessons =
  (range range_order (group_by mergeKey lessons)).*1.
Proof.
  rewrite mergeTeachers_bind.
  pose proof (range_group_by_nonempty mergeKey lessons) as Hne.
  induction (range range_order (group_by mergeKey lessons)) as [|[k g] es IH];
    [done|].
  rewrite bind_cons, fmap_app, IH
    by (intros k' g' Hin; apply Hne; by right).
  destruct (Hne k g) as (first & rest & -> & Hk & _); [left|].
  destruct (merge_emit_first first rest) as [teacher Hemit].
  cbv beta. cbn [snd]. rewrite Hemit. simpl. by rewrite <- Hk.
Qed.

Lemma mergeTeachers_NoDup_keys lessons :
  NoDup (mergeKey <$> mergeTeachers range_order lessons).
Proof. rewrite mergeTeachers_keys. apply NoDup_range_keys. Qed.

(** X10. After the merge across instructors no two records share a key, and there
    is one record per distinct key of the input. *)
Theorem mergeTeachers_distinct_keys lessons :
  NoDup (mergeKey <$> mergeTeachers range_order lessons) ∧
  length (mergeTeachers range_order lessons) =
    length (remove_dups (mergeKey <$> lessons)).
Proof.
  split; [apply mergeTeachers_NoDup_keys|].
  rewrite <- (length_fmap mergeKey), mergeTeachers_keys, length_fmap.
  rewrite (length_range range_order range_order_perm). apply size_group_by.
Qed.

(** X11. The merge across instructors changes nothing but the instructor field:
    every record of the result is a record of the input, the first of its
    key, with possibly another instructor. *)
Theorem mergeTeachers_only_instructor lessons merged :
  merged ∈ mergeTeachers range_order lessons →
  ∃ lesson, lesson ∈ lessons ∧
            merged = with_Teacher lesson (l_Teacher merged).
Proof.
  rewrite mergeTeachers_bind.
  intros ([k g] & Hemit & Hentry)%list_elem_of_bind. simpl in Hemit.
  apply range_group_by_nonempty in Hentry as (first & rest & -> & _ & Hin).
  destruct (merge_emit_first first rest) as [teacher Heq].
  rewrite Heq in Hemit. apply list_elem_of_singleton in Hemit as ->.
  by exists first.
Qed.

Lemma range_group_by_distinct {A} `{Countable K} (key : A → K) xs :
  NoDup (key <$> xs) →
  (range range_order (group_by key xs)).*2 ≡ₚ (λ x, [x]) <$> xs.
Proof.
  induction xs as [|x xs IH]; intros Hnd.
  - unfold group_by. simpl. by rewrite (range_empty range_order range_order_perm).
  - apply NoDup_cons in Hnd as [Hx Hnd].
    assert (filter (λ y, key y = key x) (x :: xs) = [x]) as Hgroup.
    { rewrite filter_cons, decide_True by done. rewrite filter_none; [done|].
      intros y Hy Hk. apply Hx. rewrite <- Hk. by apply list_elem_of_fmap_2. }
    assert (filter (λ y, key y ≠ key x) (x :: xs) = xs) as Hrest.
    { rewrite filter_cons, decide_False by (by intros ?).
      rewrite (filter_ext_elem _ (λ _, True)).
      - clear. induction xs as [|y xs IH]; [done|].
        by rewrite filter_cons, decide_True, IH.
      - intros y Hy. split; [done|]. intros _ Hk. apply Hx. rewrite <- Hk.
        by apply list_elem_of_fmap_2. }
    destruct (group_by_split key (x :: xs) (key x)) as [Hsplit Hfresh];
      [by rewrite Hgroup|].
    rewrite Hsplit, Hgroup, Hrest in *.
    rewrite (range_insert_fresh range_order range_order_perm) by done.
    simpl. by rewrite IH.
Qed.

(** Records with pairwise distinct keys pass through the merge. *)
Lemma mergeTeachers_distinct_id lessons :
  NoDup (mergeKey <$> lessons) → mergeTeachers range_order lessons ≡ₚ lessons.
Proof.
  intros Hnd. rewrite mergeTeachers_bind.
  assert (∀ es : list (string * list Lesson),
            es ≫= (λ entry, merge_emit range_order entry.2) =
            es.*2 ≫= merge_emit range_order) as Hsnd.
  { intros es. induction es as [|e es IH]; [done|].
    by rewrite fmap_cons, !bind_cons, IH. }
  rewrite Hsnd, (range_group_by_distinct mergeKey lessons Hnd).
  clear. induction lessons as [|lesson lessons IH]; [done|].
  rewrite fmap_cons, bind_cons, IH. done.
Qed.

(** X12. Merging across instructors a second time changes nothing, up to the
    order of the records. *)
Theorem mergeTeachers_idempotent lessons :
  mergeTeachers range_order (mergeTeachers range_order lessons) ≡ₚ
  mergeTeachers range_order lessons.
Proof. apply mergeTeachers_distinct_id, mergeTeachers_NoDup_keys. Qed.

(** *** Rejoin half-periods *)

Lemma size_join_map lessons :
  size (join_map lessons) = length (remove_dups (joinKey <$> lessons)).
Proof.
  rewrite join_map_group_by, <- size_group_by.
  rewrite <- !length_map_to_list, map_to_list_fmap. by rewrite length_fmap.
Qed.

(** X13. The rejoin step returns one record per distinct (student, date, period)
    key of its input. *)
Theorem joinIndLessons_one_per_key lessons :
  length (joinIndLessons range_order lessons) =
  length (remove_dups (joinKey <$> lessons)).
Proof.
  rewrite (joinIndLessons_fmap range_order), !length_fmap.
  by rewrite (length_range range_order range_order_perm), size_join_map.
Qed.

Lemma range_join_map lessons k pairMap :
  (k, pairMap) ∈ range range_order (join_map lessons) →
  filter (λ l, joinKey l = k) lessons ≠ [] ∧
  pairMap = pair_map (filter (λ l, joinKey l = k) lessons).
Proof.
  intros Hin. apply (elem_of_range range_order range_order_perm) in Hin.
  rewrite join_map_group_by, lookup_fmap in Hin.
  destruct (group_by joinKey lessons !! k) as [g|] eqn:Hg; [|done].
  apply group_by_lookup in Hg as [-> Hne]. by injection Hin as <-.
Qed.

(** X14. A record whose half is neither 1 nor 2 does not survive the rejoin step:
    when no record of the input is a half 1 or a half 2, every record of the
    result is the zero-value lesson. In particular the step, applied to
    lessons that are already full periods (half 0), loses them. *)
Theorem joinIndLessons_drops_other_halves lessons joined :
  Forall (λ l, PairHalf (l_Time l) ≠ 1 ∧ PairHalf (l_Time l) ≠ 2) lessons →
  joined ∈ joinIndLessons range_order lessons →
  joined = zeroLesson.
Proof.
  intros Hall. rewrite (joinIndLessons_fmap range_order).
  intros (pairMap & -> & Hin)%list_elem_of_fmap.
  apply list_elem_of_fmap in Hin as ([k pm] & -> & Hentry). simpl.
  apply range_join_map in Hentry as [_ ->].
  unfold join_emit. rewrite !pair_map_lookup. unfold half_record.
  rewrite Forall_forall in Hall.
  rewrite !filter_none; [done|..]; intros l [_ Hl]%list_elem_of_filter Hh;
    destruct (Hall l Hl); congruence.
Qed.

Lemma total_hours_filter_split (P : Lesson → Prop)
    `{!∀ l, Decision (P l)} lessons :
  Validator.total_hours lessons =
  Validator.total_hours (filter P lessons) +
  Validator.total_hours (filter (λ l, ¬ P l) lessons).
Proof.
  induction lessons as [|l lessons IH]; [done|].
  rewrite !filter_cons. simpl. rewrite IH.
  destruct (decide (P l)); [rewrite decide_False by tauto|
                            rewrite decide_True by done]; simpl; lia.
Qed.

(** A group of half records of duration 1 with distinct halves is rejoined
    into a record that lasts as long as the group. *)
Lemma join_emit_hours group :
  group ≠ [] →
  Forall (λ l, Hours (l_Time l) = 1 ∧
               (PairHalf (l_Time l) = 1 ∨ PairHalf (l_Time l) = 2)) group →
  NoDup ((λ l, PairHalf (l_Time l)) <$> group) →
  Hours (l_Time (join_emit (pair_map group))) = Validator.total_hours group.
Proof.
  intros Hne Hall Hnd.
  destruct group as [|a [|b [|c group]]]; [done|..].
  - apply Forall_cons in Hall as [[Ha [Hh|Hh]] _];
      unfold pair_map, join_emit; simpl; rewrite Hh;
      simplify_map_eq; simpl; lia.
  - apply Forall_cons in Hall as [[Ha Hha] Hall].
    apply Forall_cons in Hall as [[Hb Hhb] _].
    apply NoDup_cons in Hnd as [Hab _]. rewrite list_elem_of_singleton in Hab.
    unfold pair_map, join_emit. simpl.
    destruct Hha as [Hha|Hha], Hhb as [Hhb|Hhb]; rewrite Hha, Hhb in *;
      try done; simplify_map_eq; simpl; lia.
  - exfalso.
    apply Forall_cons in Hall as [[_ Hha] Hall].
    apply Forall_cons in Hall as [[_ Hhb] Hall].
    apply Forall_cons in Hall as [[_ Hhc] _].
    rewrite !fmap_cons in Hnd.
    apply NoDup_cons in Hnd as [Ha Hnd]. apply NoDup_cons in Hnd as [Hb _].
    apply not_elem_of_cons in Ha as [Hab Ha].
    apply not_elem_of_cons in Ha as [Hac _].
    apply not_elem_of_cons in Hb as [Hbc _].
    simpl in Hab, Hac, Hbc. lia.
Qed.

(** X15. Rejoining conserves the hours: on half-period records of duration 1 with
    half 1 or 2, no two of which have the same student, date, period and
    half, the rejoined lessons last in total as long as the records. *)
Theorem joinIndLessons_conserves_hours lessons :
  Forall (λ l, Hours (l_Time l) = 1 ∧
               (PairHalf (l_Time l) = 1 ∨ PairHalf (l_Time l) = 2)) lessons →
  NoDup (halfKey <$> lessons) →
  Validator.total_hours (joinIndLessons range_order lessons) =
  Validator.total_hours lessons.
Proof.
  remember (length lessons) as n eqn:Hn. revert lessons Hn.
  induction n as [n IH] using lt_wf_ind. intros lessons -> Hall Hnd.
  destruct lessons as [|x lessons'] eqn:Hls.
  { rewrite (joinIndLessons_fmap range_order). unfold join_map. simpl.
    by rewrite (range_empty range_order range_order_perm). }
  rewrite <- Hls in *. set (k := joinKey x).
  assert (x ∈ lessons) as Hx by (rewrite Hls; left).
  assert (x ∈ filter (λ l, joinKey l = k) lessons) as Hxg
    by (by apply list_elem_of_filter).
  assert (filter (λ l, joinKey l = k) lessons ≠ []) as Hne
    by (intros Hnil; rewrite Hnil in Hxg; by apply elem_of_nil in Hxg).
  rewrite (total_hours_Permutation _ _
             (joinIndLessons_split range_order range_order_perm lessons k Hne)).
  rewrite (total_hours_filter_split (λ l, joinKey l = k) lessons).
  simpl. f_equal.
  - apply join_emit_hours; [done|..].
    + rewrite Forall_forall in Hall |- *.
      intros l [_ Hl]%list_elem_of_filter. by apply Hall.
    + assert (NoDup (halfKey <$> filter (λ l, joinKey l = k) lessons)) as Hg.
      { eapply sublist_NoDup; [exact Hnd|]. apply fmap_sublist, sublist_filter. }
      rewrite (list_fmap_ext halfKey
                 ((λ h, (k, h)) ∘ (λ l, PairHalf (l_Time l)))) in Hg.
      * rewrite list_fmap_compose in Hg.
        apply (NoDup_fmap_1 (λ h, (k, h))) in Hg. exact Hg.
      * intros i l Hl. apply list_elem_of_lookup_2 in Hl.
        apply list_elem_of_filter in Hl as [Hk _]. unfold halfKey. simpl.
        by rewrite Hk.
  - apply (IH (length (filter (λ l, ¬ joinKey l = k) lessons))).
    + apply (length_filter_lt _ _ x); [done|]. by intros Hk.
    + done.
    + rewrite Forall_forall in Hall |- *.
      intros l [_ Hl]%list_elem_of_filter. by apply Hall.
    + eapply sublist_NoDup; [exact Hnd|]. apply fmap_sublist, sublist_filter.
Qed.

End tabular_extras.

Lemma joinIndLessons_conserves_hours_witness :
  Validator.total_hours
    (IndividualSchedule.joinIndLessons range_in_order half_pair_records) =
  Validator.total_hours half_pair_records.
Proof.
  apply (joinIndLessons_conserves_hours range_in_order range_in_order_perm).
  - repeat (apply Forall_cons; split; [split; [done|simpl; lia]|]).
    by apply Forall_nil.
  - apply (bool_decide_unpack _). by vm_compute.
Defined.

Lemma joinIndLessons_drops_other_halves_witness :
  ∃ joined,
    IndividualSchedule.joinIndLessons range_in_order
      [Validator.group_lesson 1] = [joined] ∧
    joined = zeroLesson.
Proof.
  eexists. split; [by vm_compute|].
  apply (joinIndLessons_drops_other_halves range_in_order range_in_order_perm
           [Validator.group_lesson 1]).
  - apply Forall_cons. split; [split; discriminate|by apply Forall_nil].
  - vm_compute. left.
Defined.

Lemma joinIndLessons_one_per_key_witness :
  length (IndividualSchedule.joinIndLessons range_in_order half_pair_records) =
  length (remove_dups (joinKey <$> half_pair_records)).
Proof.
  apply (joinIndLessons_one_per_key range_in_order range_in_order_perm).
Defined.

Lemma mergeTeachers_distinct_keys_witness :
  NoDup (mergeKey <$>
           IndividualSchedule.mergeTeachers range_in_order
             two_instructor_records) ∧
  length (IndividualSchedule.mergeTeachers range_in_order
            two_instructor_records) =
    length (remove_dups (mergeKey <$> two_instructor_records)).
Proof.
  apply (mergeTeachers_distinct_keys range_in_order range_in_order_perm).
Defined.

Lemma mergeTeachers_only_instructor_witness :
  ∃ lesson,
    lesson ∈ two_instructor_records ∧
    with_Teacher (half_lesson 1 1 "Вокал" "Сидоров Б.Б." "К3-21")
      "Петров А.А.& Сидоров Б.Б." =
    with_Teacher lesson
      (l_Teacher
         (with_Teacher (half_lesson 1 1 "Вокал" "Сидоров Б.Б." "К3-21")
            "Петров А.А.& Сидоров Б.Б.")).
Proof.
  apply (mergeTeachers_only_instructor range_in_order range_in_order_perm).
  vm_compute. first [left | right; left].
Defined.

Lemma mergeTeachers_idempotent_witness :
  IndividualSchedule.mergeTeachers range_in_order
    (IndividualSchedule.mergeTeachers range_in_order two_instructor_records) ≡ₚ
  IndividualSchedule.mergeTeachers range_in_order two_instructor_records.
Proof.
  apply (mergeTeachers_idempotent range_in_order range_in_order_perm).
Defined.

Lemma calculateLoad_order_independent_witness :
  Validator.calculateLoad (reverse Validator.five_lessons) =
  Validator.calculateLoad Validator.five_lessons.
Proof.
  apply calculateLoad_order_independent. apply reverse_Permutation.
Defined.

Lemma deduplicateLessons_one_per_slot_witness :
  length (GroupSchedule.deduplicateLessons range_in_order
            GroupSchedule.sample_time_Parse
            [GroupSchedule.petrov_record; GroupSchedule.sidorov_record;
             GroupSchedule.next_period_record]) =
  length (remove_dups
            (GroupSchedule.lessonKey <$>
               filter GroupSchedule.grouped
                 [GroupSchedule.petrov_record; GroupSchedule.sidorov_record;
                  GroupSchedule.next_period_record])).
Proof.
  apply (deduplicateLessons_one_per_slot range_in_order range_in_order_perm).
Defined.

Lemma deduplicateLessons_skips_placeholders_witness :
  GroupSchedule.deduplicateLessons range_in_order
    GroupSchedule.sample_time_Parse
    [GroupSchedule.mkLessonData 1 "2025-03-10" "2025-03-10" "2025-03-16"
       2 "10:10" "11:40" GroupSchedule.IndividualPlaceholder "" "0"
       "Петров А.А." "К3-21" "МД-21-о"] = [].
Proof.
  apply (deduplicateLessons_skips_placeholders range_in_order
           range_in_order_perm).
  apply Forall_cons. split; [done|by apply Forall_nil].
Defined.

Lemma deduplicateLessons_slot_coverage_witness :
  ∃ lesson,
    lesson ∈ GroupSchedule.deduplicateLessons range_in_order
               GroupSchedule.sample_time_Parse
               [GroupSchedule.petrov_record; GroupSchedule.sidorov_record;
                GroupSchedule.next_period_record] ∧
    Date (l_Time lesson) =
      GroupSchedule.sample_time_Parse "2006-01-02"
        (GroupSchedule.WeekDayDate GroupSchedule.next_period_record) ∧
    Number (l_Time lesson) =
      GroupSchedule.LessonNum GroupSchedule.next_period_record.
Proof.
  apply (deduplicateLessons_slot_coverage range_in_order range_in_order_perm).
  - vm_compute. do 2 right. left.
  - discriminate.
Defined.

(** ** The lessons cache, the repository and the schedule service *)

Lemma cache_Get_Set_valid now now' weekStart lessons data :
  now' ≤ now + Repository.ttl →
  Repository.cache_Get now' weekStart
    (Repository.cache_Set now weekStart lessons data) =
  (Some lessons, Repository.cache_Set now weekStart lessons data).
Proof.
  intros Hnow. unfold Repository.cache_Get, Repository.cache_Set.
  rewrite lookup_insert_eq. simpl.
  by destruct (Z.ltb_spec (now + Repository.ttl) now'); [lia|].
Qed.

(** X16. A round trip through the cache: what [Set] stored under a week is what
    [Get] returns for that week up to and including the instant of expiry,
    30 minutes later; after that instant [Get] misses and evicts the entry.
    Storing under one week does not change what [Get] returns for another. *)
Theorem cache_Set_then_Get now now' weekStart lessons data :
  (now' ≤ now + 30 * 60 * 1000000000 →
   Repository.cache_Get now' weekStart
     (Repository.cache_Set now weekStart lessons data) =
   (Some lessons, Repository.cache_Set now weekStart lessons data)) ∧
  (now + 30 * 60 * 1000000000 < now' →
   Repository.cache_Get now' weekStart
     (Repository.cache_Set now weekStart lessons data) =
   (None, delete weekStart data)) ∧
  (∀ other, other ≠ weekStart →
     (Repository.cache_Get now' other
        (Repository.cache_Set now weekStart lessons data)).1 =
     (Repository.cache_Get now' other data).1).
Proof.
  split_and!.
  - apply cache_Get_Set_valid.
  - intros Hnow. unfold Repository.cache_Get, Repository.cache_Set.
    rewrite lookup_insert_eq. simpl.
    destruct (Z.ltb_spec (now + Repository.ttl) now') as [_|Hle];
      [|unfold Repository.ttl in Hle; lia].
    by rewrite delete_insert_eq.
  - intros other Hother. unfold Repository.cache_Get, Repository.cache_Set.
    rewrite lookup_insert_ne by done.
    destruct (data !! other) as [entry|]; [|done].
    by destruct (Repository.ce_expiry entry <? now').
Qed.

(** The lessons of a parse outcome that the repository keeps. *)
Lemma successes_singleton (task : result (list Lesson)) :
  Repository.successes [task] =
  match task with Ok lessons => lessons | Err _ => [] end.
Proof.
  unfold Repository.successes. rewrite bind_cons.
  destruct task; [apply app_nil_r|done].
Qed.

(** X17. A second [GetLessons] on the same repository, not later than 30 minutes
    after the first one filled the cache, fetches nothing: whatever the
    remote parser would answer, it returns the lessons of the first call,
    followed by the individual lessons parsed now and by the cached group
    lessons. The repository's list only grows: the lessons of the first call
    are returned again. *)
Theorem GetLessons_again_uses_cache
    (individual1 individual2 : result (list Lesson))
    (group1 group2 : string → string → string → result (list Lesson))
    (order_groupLessons1 order_lessons1 order_groupLessons2 order_lessons2
       : ∀ A : Type, list A → list A)
    (now_Get1 now_Set1 now_Get2 now_Set2 : Z)
    (r : Repository.LessonsRepositoryImpl) :
  (Repository.cache_Get now_Get1 (Repository.r_weekStart r)
     (Repository.r_cache r)).1 = None →
  now_Get2 ≤ now_Set1 + 30 * 60 * 1000000000 →
  ∃ first cached r1 r2,
    Repository.GetLessons individual1 group1 order_groupLessons1
      order_lessons1 now_Get1 now_Set1 r = ((first, None), r1) ∧
    (Repository.cache_Get now_Get2 (Repository.r_weekStart r1)
       (Repository.r_cache r1)).1 = Some cached ∧
    Repository.GetLessons individual2 group2 order_groupLessons2
      order_lessons2 now_Get2 now_Set2 r1 =
      ((first ++ Repository.successes [individual2] ++ cached, None), r2) ∧
    Repository.r_cache r2 = Repository.r_cache r1.
Proof.
  intros Hmiss Hnow.
  destruct (Repository.GetLessons individual1 group1 order_groupLessons1
              order_lessons1 now_Get1 now_Set1 r) as [[first err] r1] eqn:H1.
  assert (∃ groupLessons data,
            err = None ∧ Repository.r_lessons r1 = first ∧
            Repository.r_weekStart r1 = Repository.r_weekStart r ∧
            Repository.r_cache r1 =
              Repository.cache_Set now_Set1 (Repository.r_weekStart r)
                groupLessons data) as (groupLessons & data & -> & Hl & Hw & Hc).
  { unfold Repository.GetLessons in H1.
    destruct (Repository.cache_Get now_Get1 _ _) as [[?|] data]; [done|].
    injection H1 as <- <- <-. by eexists _, _. }
  assert (Repository.cache_Get now_Get2 (Repository.r_weekStart r1)
            (Repository.r_cache r1) =
          (Some groupLessons, Repository.r_cache r1)) as Hhit.
  { rewrite Hc, Hw. by apply cache_Get_Set_valid. }
  exists first, groupLessons, r1,
    (Repository.GetLessons individual2 group2 order_groupLessons2
       order_lessons2 now_Get2 now_Set2 r1).2.
  split; [done|]. split; [by rewrite Hhit|].
  unfold Repository.GetLessons. rewrite Hhit, Hl, successes_singleton.
  split; [|done].
  destruct individual2; simpl; by rewrite <- ?app_assoc.
Qed.

Lemma GetLessons_again_uses_cache_witness :
  ∃ first cached r1 r2,
    Repository.GetLessons (Ok [half_lesson 1 1 "Вокал" "Петров А.А." "К3-21"])
      (λ _ _ _, Ok [Validator.group_lesson 1]) range_in_order range_in_order
      0 0 (Repository.NewLessonsRepository ["Музыкальный"] ["МД-21-о"]
             "2025-03-10") = ((first, None), r1) ∧
    (Repository.cache_Get 5 (Repository.r_weekStart r1)
       (Repository.r_cache r1)).1 = Some cached ∧
    Repository.GetLessons (Ok [half_lesson 1 1 "Вокал" "Петров А.А." "К3-21"])
      (λ _ _ _, Err "timeout") range_in_order range_in_order 5 5 r1 =
      ((first ++
        Repository.successes
          [Ok [half_lesson 1 1 "Вокал" "Петров А.А." "К3-21"]] ++ cached,
        None), r2) ∧
    Repository.r_cache r2 = Repository.r_cache r1.
Proof.
  apply (GetLessons_again_uses_cache _ _ _ (λ _ _ _, Err "timeout")).
  - reflexivity.
  - lia.
Defined.

Lemma elem_of_foldl_union `{Countable K} {A} (f : A → K) (l : list A)
    (acc : gset K) x :
  x ∈ foldl (λ set a, {[f a]} ∪ set) acc l ↔ x ∈ acc ∨ x ∈ f <$> l.
Proof.
  revert acc. induction l as [|a l IH]; intros acc; simpl.
  - rewrite elem_of_nil. tauto.
  - rewrite IH, elem_of_union, elem_of_singleton, elem_of_cons. tauto.
Qed.

Lemma bind_Permutation_ext {A B} (f g : A → list B) (l : list A) :
  (∀ a, f a ≡ₚ g a) → l ≫= f ≡ₚ l ≫= g.
Proof.
  intros Hfg. induction l as [|a l IH]; [done|].
  by rewrite !bind_cons, IH, Hfg.
Qed.

Lemma successes_bind {A} (l : list A) (f : A → list (result (list Lesson))) :
  Repository.successes (l ≫= f) = l ≫= λ a, Repository.successes (f a).
Proof.
  induction l as [|a l IH]; [done|]. rewrite !bind_cons, <- IH.
  unfold Repository.successes. apply bind_app.
Qed.

Section service_extras.

Import Repository.

Variable individual_Parse : result (list Lesson).
Variable group_Parse : string → string → string → result (list Lesson).
Variable order_groupLessons : ∀ A : Type, list A → list A.
Variable order_lessons : ∀ A : Type, list A → list A.
Hypothesis order_lessons_perm : ∀ A (l : list A), order_lessons A l ≡ₚ l.
Variable now_Get now_Set : Z.
Variable range_order : ∀ A : Type, list A → list A.
Hypothesis range_order_perm : ∀ A (l : list A), range_order A l ≡ₚ l.

Lemma range_keys_remove_dups {A} (f : A → string) (l : list A) :
  range_keys range_order (foldl (λ set a, {[f a]} ∪ set) (∅ : gset string) l)
  ≡ₚ remove_dups (f <$> l).
Proof.
  unfold range_keys. rewrite range_order_perm.
  apply NoDup_Permutation; [apply NoDup_elements|apply NoDup_remove_dups|].
  intros x. rewrite elem_of_elements, elem_of_foldl_union,
    elem_of_remove_dups, elem_of_empty. tauto.
Qed.

(** X18. The service fetches the remote timetable once for every combination of
    a department of the roster with a group of the roster, whether or not a
    student is in both, and nothing else: the lessons it returns are, up to
    order, those of the tabular parse and of every such fetch that
    succeeded, and the violations are the detector's on these lessons. No
    error is returned. *)
Theorem ProcessSchedule_fetches_cross_product students weekStart :
  ∃ lessons,
    ProcessSchedule individual_Parse group_Parse order_groupLessons
      order_lessons now_Get now_Set range_order students weekStart =
    ((Validator.ValidateSchedule range_order
        (Validator.NewValidator students lessons), lessons), None) ∧
    lessons ≡ₚ
      successes [individual_Parse] ++
      (remove_dups (s_Department <$> students) ≫= λ department,
         remove_dups (s_Group <$> students) ≫= λ group,
           successes [group_Parse department group weekStart]).
Proof.
  eexists. split; [reflexivity|].
  unfold GetLessons, NewLessonsRepository, cache_Get.
  cbn [r_cache r_weekStart r_lessons r_departments r_groups].
  rewrite lookup_empty. cbn [fst snd].
  rewrite successes_singleton.
  apply Permutation_app.
  { by destruct individual_Parse. }
  unfold successes at 1. rewrite order_lessons_perm.
  fold (successes
    (range_keys range_order
       (foldl (λ deptSet student, {[s_Department student]} ∪ deptSet)
          (∅ : gset string) students) ≫= λ department,
     range_keys range_order
       (foldl (λ set student, {[s_Group student]} ∪ set)
          (∅ : gset string) students) ≫= λ group,
     [group_Parse department group weekStart])).
  rewrite successes_bind, (range_keys_remove_dups s_Department).
  apply bind_Permutation_ext. intros department.
  by rewrite successes_bind, (range_keys_remove_dups s_Group).
Qed.

End service_extras.

Lemma ProcessSchedule_fetches_cross_product_witness :
  ∃ lessons,
    Repository.ProcessSchedule (Err "не найдено уроков в файлах")
      (λ _ group _, Ok [Validator.group_lesson 1]) range_in_order
      range_in_order 0 0 range_in_order
      [Validator.ivanov; Validator.first_year] "2025-03-10" =
    ((Validator.ValidateSchedule range_in_order
        (Validator.NewValidator [Validator.ivanov; Validator.first_year]
           lessons), lessons), None) ∧
    lessons ≡ₚ
      Repository.successes [Err "не найдено уроков в файлах"] ++
      (remove_dups
         (s_Department <$> [Validator.ivanov; Validator.first_year]) ≫=
       λ department,
         remove_dups (s_Group <$> [Validator.ivanov; Validator.first_year]) ≫=
         λ group, Repository.successes [Ok [Validator.group_lesson 1]]).
Proof.
  apply (ProcessSchedule_fetches_cross_product
           (Err "не найдено уроков в файлах")
           (λ _ group _, Ok [Validator.group_lesson 1])
           range_in_order range_in_order range_in_order_perm 0 0
           range_in_order range_in_order_perm).
Defined.

(** ** Cells of the tabular parser's sheet *)

Section cells_extras.

Import IndividualCells.

Variable Row : Z → option (Z → string).

Lemma day_add_3 (i : nat) :
  (i < 10)%nat → GoInt.add (2 + 3 * Z.of_nat i) 3 = 2 + 3 * Z.of_nat (S i).
Proof.
  intros Hi. unfold GoInt.add. rewrite wrap_in_range; [lia|].
  unfold GoInt.in_range, GoInt.int_min, GoInt.int_max. lia.
Qed.

(** Once the loop condition can end the loop, more fuel changes nothing. *)
Lemma dayColumns_loop_fuel fuel row (i : nat) columns :
  (10 ≤ i + fuel)%nat → (i ≤ 10)%nat →
  dayColumns_loop Row fuel row (2 + 3 * Z.of_nat i) columns =
  dayColumns_loop Row (10 - i) row (2 + 3 * Z.of_nat i) columns.
Proof.
  revert i columns. induction fuel as [|fuel IH]; intros i columns Hfuel Hi.
  - by replace (10 - i)%nat with 0%nat by lia.
  - destruct (decide (i = 10%nat)) as [->|Hne].
    + by vm_compute.
    + replace (10 - i)%nat with (S (10 - S i)) by lia.
      cbn [dayColumns_loop].
      destruct (2 + 3 * Z.of_nat i <? 30); [|done].
      destruct (Row row) as [cells|]; [|done]. cbn [mbind option_bind].
      destruct (String.eqb _ ""); [done|].
      rewrite day_add_3 by lia. apply IH; lia.
Qed.

Lemma dayColumns_loop_prefix fuel row cells (i : nat) columns :
  Row row = Some cells → (i + fuel = 10)%nat →
  ∃ n, (i ≤ n ≤ 10)%nat ∧
    dayColumns_loop Row fuel row (2 + 3 * Z.of_nat i) columns =
      Some (columns ++ ((λ j : nat, 2 + 3 * Z.of_nat j) <$> seq i (n - i))) ∧
    (∀ j, (i ≤ j < n)%nat → cells (2 + 3 * Z.of_nat j) ≠ "") ∧
    ((n < 10)%nat → cells (2 + 3 * Z.of_nat n) = "").
Proof.
  intros Hrow. revert i columns.
  induction fuel as [|fuel IH]; intros i columns Hfuel.
  - exists i. replace (i - i)%nat with 0%nat by lia. simpl.
    rewrite app_nil_r. split_and!; [lia..|done|lia|lia].
  - cbn [dayColumns_loop].
    destruct (Z.ltb_spec (2 + 3 * Z.of_nat i) 30) as [_|?]; [|lia].
    rewrite Hrow. cbn [mbind option_bind].
    destruct (String.eqb_spec (cells (2 + 3 * Z.of_nat i)) "")
      as [Hempty|Hfull].
    + exists i. replace (i - i)%nat with 0%nat by lia. simpl.
      rewrite app_nil_r. split_and!; [lia..|done|lia|done].
    + rewrite day_add_3 by lia.
      destruct (IH (S i) (columns ++ [2 + 3 * Z.of_nat i]))
        as (n & Hn & -> & Hcells & Hstop); [lia|].
      exists n. split_and!; [lia..| | |done].
      * replace (n - i)%nat with (S (n - S i)) by lia.
        by rewrite <- app_assoc.
      * intros j Hj. destruct (decide (j = i)) as [->|?]; [done|].
        apply Hcells. lia.
Qed.

(** X19. [extractDayColumns] panics exactly when the sheet has no header row
    (row [teacherRow + 3]). When the sheet has it, the day columns are a run
    of the columns 2, 5, 8, ... that starts at column 2, has from one to ten
    columns, whose header cells are all non-empty, and that stops before the
    first empty header cell: a day after an empty header cell is never read.
    There is an error exactly when the header cell of column 2 is empty. Ten
    iterations exhaust the loop. *)
Theorem extractDayColumns_run teacherRow :
  (∀ fuel, (10 ≤ fuel)%nat →
     extractDayColumns_fuel Row fuel teacherRow =
     extractDayColumns Row teacherRow) ∧
  (extractDayColumns Row teacherRow = None ↔
   Row (GoInt.add teacherRow 3) = None) ∧
  (∀ cells, Row (GoInt.add teacherRow 3) = Some cells →
     ((∃ err, extractDayColumns Row teacherRow = Some (Err err)) ↔
      cells 2 = "") ∧
     (∀ columns, extractDayColumns Row teacherRow = Some (Ok columns) →
        ∃ n, (1 ≤ n ≤ 10)%nat ∧
          columns = (λ j : nat, 2 + 3 * Z.of_nat j) <$> seq 0 n ∧
          (∀ j, (j < n)%nat → cells (2 + 3 * Z.of_nat j) ≠ "") ∧
          ((n < 10)%nat → cells (2 + 3 * Z.of_nat n) = ""))).
Proof.
  unfold extractDayColumns, extractDayColumns_fuel.
  set (row := GoInt.add teacherRow 3).
  assert (∀ cells, Row row = Some cells →
    ∃ n, (n ≤ 10)%nat ∧
      dayColumns_loop Row 10 row 2 [] =
        Some ((λ j : nat, 2 + 3 * Z.of_nat j) <$> seq 0 n) ∧
      (∀ j, (j < n)%nat → cells (2 + 3 * Z.of_nat j) ≠ "") ∧
      ((n < 10)%nat → cells (2 + 3 * Z.of_nat n) = "")) as Hrun.
  { intros cells Hrow.
    destruct (dayColumns_loop_prefix 10 row cells 0 [] Hrow)
      as (n & Hn & Hrun & Hcells & Hstop); [done|].
    change (2 + 3 * Z.of_nat 0) with 2 in Hrun.
    rewrite app_nil_l, Nat.sub_0_r in Hrun.
    exists n. split_and!; [lia|done| |done].
    intros j Hj. apply Hcells. lia. }
  assert (∀ n, (n ≤ 10)%nat →
    GoInt.len (length ((λ j : nat, 2 + 3 * Z.of_nat j) <$> seq 0 n)) =
    Z.of_nat n) as Hlen.
  { intros n Hn. rewrite length_fmap, length_seq. unfold GoInt.len.
    apply wrap_in_range.
    unfold GoInt.in_range, GoInt.int_min, GoInt.int_max. lia. }
  split_and!.
  - intros fuel Hfuel.
    pose proof (dayColumns_loop_fuel fuel row 0 [] ltac:(lia) ltac:(lia))
      as Hfuel'.
    change (2 + 3 * Z.of_nat 0) with 2 in Hfuel'. by rewrite Hfuel'.
  - destruct (Row row) as [cells|] eqn:Hrow.
    + destruct (Hrun cells eq_refl) as (n & Hn & -> & _).
      cbn [mbind option_bind]. by destruct (_ =? 0).
    + split; [done|]. intros _. cbn [dayColumns_loop].
      change (2 <? 30) with true. cbv iota. by rewrite Hrow.
  - intros cells Hrow.
    destruct (Hrun cells Hrow) as (n & Hn & -> & Hcells & Hstop).
    cbn [mbind option_bind]. rewrite (Hlen n Hn). split.
    + destruct (Z.eqb_spec (Z.of_nat n) 0) as [Hz|Hnz]; split.
      * intros _. assert (n = 0%nat) as -> by lia. apply Hstop. lia.
      * intros _. by eexists.
      * by intros [err ?].
      * intros Hempty. destruct (Hcells 0%nat); [lia|done].
    + intros columns.
      destruct (Z.eqb_spec (Z.of_nat n) 0) as [Hz|Hnz]; [done|].
      intros [= <-]. exists n. split_and!; [lia..|done|done|done].
Qed.

Variable Join_Fields TrimSpace : string → string.
Variable reCabinet_ReplaceAll reGroup_ReplaceAll : string → string.

Local Abbreviation extractDiscipline :=
  (extractDiscipline Join_Fields TrimSpace reCabinet_ReplaceAll
     reGroup_ReplaceAll).

Local Ltac eqb_cases :=
  repeat match goal with
  | |- context [String.eqb ?a ?b] =>
    destruct (String.eqb_spec a b); cbn [orb]
  end.

Local Ltac not_listed :=
  repeat (apply not_elem_of_cons; split; [congruence|]); apply not_elem_of_nil.

(** X20. A discipline that [extractDiscipline] returns is in normal form: it is
    never one of the abbreviations that the parser expands nor one of the
    two ignored names, and a cell that cleans to it is returned as it is. *)
Theorem extractDiscipline_normal_form cell discipline :
  extractDiscipline cell = Ok discipline →
  (discipline ∉ abbreviations) ∧ (discipline ∉ ignored) ∧
  (∀ cell',
     cell' ≠ "" →
     TrimSpace (reGroup_ReplaceAll (reCabinet_ReplaceAll (Join_Fields cell')))
       = discipline →
     extractDiscipline cell' = Ok discipline).
Proof.
  unfold IndividualCells.extractDiscipline at 1. cbv zeta.
  set (clean := TrimSpace _).
  eqb_cases; intros [= <-]; (split; [unfold abbreviations; not_listed|]);
    (split; [unfold ignored; not_listed|]);
    intros cell' Hne Hclean; unfold IndividualCells.extractDiscipline;
    rewrite (proj2 (String.eqb_neq cell' "") Hne); cbv zeta; rewrite Hclean;
    try reflexivity.
  fold clean. eqb_cases; done.
Qed.

End cells_extras.

Lemma extractDiscipline_normal_form_witness :
  "Вокал" ∉ IndividualCells.abbreviations.
Proof.
  destruct (extractDiscipline_normal_form id id id id "Вокал. исполн." "Вокал")
    as [Hnormal _]; [reflexivity|exact Hnormal].
Defined.

(** ** Dates as grouping keys *)

(** The decimal rendering with two digits reads back as the number. *)
Lemma appendInt_2_digits x :
  0 ≤ x < 100 →
  ∃ a b, appendInt x 2 = String a (String b "") ∧
         GroupSchedule.digits2 a b = Some x.
Proof.
  intros Hx.
  pose (check := λ x : Z,
    match appendInt x 2 with
    | String a (String b EmptyString) =>
      bool_decide (GroupSchedule.digits2 a b = Some x)
    | _ => false
    end).
  assert (Forall check (seqZ 0 100)) as Hall
    by (apply forallb_True; vm_compute; exact I).
  rewrite Forall_forall in Hall.
  assert (check x) as Hcheck by (apply Hall, elem_of_seqZ; lia).
  unfold check in Hcheck.
  destruct (appendInt x 2) as [|a [|b [|]]]; try done.
  exists a, b. split; [done|]. by eapply bool_decide_unpack.
Qed.

(** The decimal rendering with four digits reads back as the number. *)
Lemma appendInt_4_digits x :
  0 ≤ x < 10000 →
  ∃ a b c d,
    appendInt x 4 = String a (String b (String c (String d ""))) ∧
    GroupSchedule.digits2 a b = Some (x / 100) ∧
    GroupSchedule.digits2 c d = Some (x mod 100).
Proof.
  intros Hx.
  pose (check := λ x : Z,
    match appendInt x 4 with
    | String a (String b (String c (String d EmptyString))) =>
      bool_decide (GroupSchedule.digits2 a b = Some (x / 100)) &&
      bool_decide (GroupSchedule.digits2 c d = Some (x mod 100))
    | _ => false
    end).
  assert (Forall check (seqZ 0 10000)) as Hall
    by (apply forallb_True; vm_compute; exact I).
  rewrite Forall_forall in Hall.
  assert (check x) as Hcheck by (apply Hall, elem_of_seqZ; lia).
  unfold check in Hcheck.
  destruct (appendInt x 4) as [|a [|b [|c [|d [|]]]]]; try done.
  apply andb_True in Hcheck as [Hab Hcd].
  exists a, b, c, d. split; [done|].
  split; eapply bool_decide_unpack; eassumption.
Qed.

(** X21. [DateString] identifies the calendar day: two lesson times (years of at
    most four digits, months and days of at most two) have the same date
    string exactly when their dates agree on year, month and day; the clock
    part of the date plays no role. *)
Theorem DateString_identifies_day (t1 t2 : LessonTime) :
  0 ≤ t_Year (Date t1) < 10000 → 0 ≤ t_Month (Date t1) < 100 →
  0 ≤ t_Day (Date t1) < 100 →
  0 ≤ t_Year (Date t2) < 10000 → 0 ≤ t_Month (Date t2) < 100 →
  0 ≤ t_Day (Date t2) < 100 →
  DateString t1 = DateString t2 ↔
  t_Year (Date t1) = t_Year (Date t2) ∧
  t_Month (Date t1) = t_Month (Date t2) ∧
  t_Day (Date t1) = t_Day (Date t2).
Proof.
  intros Hy1 Hm1 Hd1 Hy2 Hm2 Hd2. unfold DateString, Format_2006_01_02.
  split; [|by intros (-> & -> & ->)].
  destruct (appendInt_4_digits _ Hy1) as (a1 & b1 & c1 & e1 & -> & Ha1 & Hc1).
  destruct (appendInt_4_digits _ Hy2) as (a2 & b2 & c2 & e2 & -> & Ha2 & Hc2).
  destruct (appendInt_2_digits _ Hm1) as (m1 & n1 & -> & Hmn1).
  destruct (appendInt_2_digits _ Hm2) as (m2 & n2 & -> & Hmn2).
  destruct (appendInt_2_digits _ Hd1) as (p1 & q1 & -> & Hpq1).
  destruct (appendInt_2_digits _ Hd2) as (p2 & q2 & -> & Hpq2).
  intros Heq. injection Heq as -> -> -> -> -> -> -> ->.
  rewrite Ha1 in Ha2. rewrite Hc1 in Hc2. rewrite Hmn1 in Hmn2.
  rewrite Hpq1 in Hpq2.
  injection Ha2 as Hhi. injection Hc2 as Hlo. injection Hmn2 as ->.
  injection Hpq2 as ->. split; [|done].
  rewrite (Z.div_mod (t_Year (Date t1)) 100), (Z.div_mod (t_Year (Date t2)) 100)
    by lia. by rewrite Hhi, Hlo.
Qed.

Lemma DateString_identifies_day_witness :
  DateString (NewLessonTime (mkTime 2025 3 10 8 30) 1 0 2 zeroTime zeroTime) =
  DateString (NewLessonTime (mkTime 2025 3 10 0 0) 4 1 1 zeroTime zeroTime) ↔
  2025 = 2025 ∧ 3 = 3 ∧ 10 = 10.
Proof.
  apply (DateString_identifies_day
           (NewLessonTime (mkTime 2025 3 10 8 30) 1 0 2 zeroTime zeroTime)
           (NewLessonTime (mkTime 2025 3 10 0 0) 4 1 1 zeroTime zeroTime));
    simpl; lia.
Defined.

(** ** From a cell of the sheet to the lessons of the tabular parser *)

Section tabular_composition.

Variable range_order : ∀ A : Type, list A → list A.
Hypothesis range_order_perm : ∀ A (l : list A), range_order A l ≡ₚ l.
Variable Join_Fields TrimSpace : string → string.

Lemma Split_slash_length s :
  Contains_slash s = true → (2 ≤ length (Split_slash s))%nat.
Proof.
  induction s as [|c s IH]; [done|]. simpl.
  destruct (Ascii.eqb c slash); simpl.
  - intros _. destruct s; simpl; [lia|].
    destruct (Ascii.eqb _ slash); [simpl; lia|].
    destruct (Split_slash s); simpl; lia.
  - intros Hs. specialize (IH Hs).
    destruct (Split_slash s) as [|piece pieces]; simpl in *; lia.
Qed.

(** X22. A student-name cell never yields fewer than two names, so that each
    period cell gives at least the records of half 1 and of half 2; the only
    error is the empty cell. *)
Theorem extractStudentNames_at_least_two cell :
  ((∃ err, extractStudentNames Join_Fields TrimSpace cell = Err err) ↔
   cell = "") ∧
  (∀ names, extractStudentNames Join_Fields TrimSpace cell = Ok names →
     (2 ≤ length names)%nat ∧
     (length names = 2%nat ∨ Contains_slash (Join_Fields cell) = true)).
Proof.
  unfold extractStudentNames.
  destruct (String.eqb_spec cell "") as [->|Hne].
  - split; [split; [done|by eexists]|done].
  - split; [split; [|done]|].
    + intros [err Herr]. by destruct (Contains_slash _).
    + intros names.
      destruct (Contains_slash (Join_Fields cell)) eqn:Hslash;
        intros [= <-]; [|split; [done|by left]].
      rewrite (foldl_append_fmap TrimSpace), app_nil_l, length_fmap.
      split; [by apply Split_slash_length|by right].
Qed.

Lemma join_emit_key group k :
  group ≠ [] →
  Forall (λ l, joinKey l = k ∧
               (PairHalf (l_Time l) = 1 ∨ PairHalf (l_Time l) = 2)) group →
  joinKey (join_emit (pair_map group)) = k.
Proof.
  intros Hne Hall. rewrite Forall_forall in Hall.
  assert (∀ h lesson, pair_map group !! h = Some lesson → joinKey lesson = k)
    as Hkey.
  { intros h lesson. rewrite pair_map_lookup. unfold half_record.
    intros Hlast%last_Some_elem_of.
    apply list_elem_of_filter in Hlast as [_ Hin]. by apply Hall. }
  unfold join_emit.
  destruct (pair_map group !! 1) as [lesson1|] eqn:H1;
    destruct (pair_map group !! 2) as [lesson2|] eqn:H2;
    try (rewrite <- (Hkey _ _ H1); done); try (rewrite <- (Hkey _ _ H2); done).
  exfalso. destruct group as [|x group]; [done|].
  destruct (Hall x) as [_ [Hh|Hh]]; [left|..].
  - rewrite pair_map_lookup in H1. apply last_None in H1.
    assert (x ∈ filter (λ l, PairHalf (l_Time l) = 1) (x :: group)) as Hx
      by (apply list_elem_of_filter; split; [done|left]).
    rewrite H1 in Hx. by apply elem_of_nil in Hx.
  - rewrite pair_map_lookup in H2. apply last_None in H2.
    assert (x ∈ filter (λ l, PairHalf (l_Time l) = 2) (x :: group)) as Hx
      by (apply list_elem_of_filter; split; [done|left]).
    rewrite H2 in Hx. by apply elem_of_nil in Hx.
Qed.

(** X23. On half records (half 1 or 2) the rejoin step returns exactly one lesson
    for each (student, date, period) of its input, carrying that key: no
    two returned lessons are for the same student, date and period. *)
Theorem joinIndLessons_keys lessons :
  Forall (λ l, PairHalf (l_Time l) = 1 ∨ PairHalf (l_Time l) = 2) lessons →
  NoDup (joinKey <$> joinIndLessons range_order lessons) ∧
  ∀ k, k ∈ joinKey <$> joinIndLessons range_order lessons ↔
       k ∈ joinKey <$> lessons.
Proof.
  intros Hall. rewrite Forall_forall in Hall.
  assert (joinKey <$> joinIndLessons range_order lessons =
          (range range_order (join_map lessons)).*1) as ->.
  { rewrite (joinIndLessons_fmap range_order), <- !list_fmap_compose.
    apply list_fmap_ext. intros i [k pairMap] Hi.
    apply list_elem_of_lookup_2 in Hi.
    apply (range_join_map range_order range_order_perm) in Hi as [Hne ->].
    simpl. apply join_emit_key; [done|]. apply Forall_forall.
    intros l [Hk Hl]%list_elem_of_filter. split; [done|by apply Hall]. }
  split; [apply (NoDup_range_keys range_order range_order_perm)|].
  intros k. rewrite !list_elem_of_fmap. split.
  - intros ([k' pairMap] & -> & Hin).
    apply (range_join_map range_order range_order_perm) in Hin as [Hne _].
    destruct (filter _ lessons) as [|l g] eqn:Hg; [done|].
    assert (l ∈ filter (λ l, joinKey l = k') lessons) as Hl
      by (rewrite Hg; left).
    apply list_elem_of_filter in Hl as [Hk Hl]. by exists l.
  - intros (l & -> & Hl).
    exists (joinKey l, pair_map (filter (λ x, joinKey x = joinKey l) lessons)).
    split; [done|].
    apply (elem_of_range range_order range_order_perm).
    rewrite join_map_group_by, lookup_fmap, group_by_lookup_eq.
    destruct (filter _ lessons) as [|x g] eqn:Hg; [|done].
    assert (l ∈ filter (λ x, joinKey x = joinKey l) lessons) as Hx
      by (by apply list_elem_of_filter).
    rewrite Hg in Hx. by apply elem_of_nil in Hx.
Qed.

(** X24. A period cell that names one student (no "/") becomes, when it is the
    only cell parsed, one lesson of the whole period: the two half records
    that the parser makes of it are rejoined into a lesson of half 0 and
    duration 2 with the discipline, instructor and room of the cell. *)
Theorem single_name_cell_full_period cell date lessonNumber discipline
    teacher cabinet groupName startTime endTime :
  cell ≠ "" → Contains_slash (Join_Fields cell) = false →
  ∃ names,
    extractStudentNames Join_Fields TrimSpace cell = Ok names ∧
    Parse_finish range_order
      (Parse_names date lessonNumber discipline teacher cabinet groupName
         startTime endTime names) =
    Ok [{| l_Time := NewLessonTime date lessonNumber 0 2 startTime endTime;
           l_Discipline := discipline; l_Teacher := teacher;
           l_Cabinet := cabinet;
           l_Group := if String.eqb (Join_Fields cell) "" then ""
                      else groupName;
           l_Student := Join_Fields cell |}].
Proof.
  intros Hne Hslash. eexists. split.
  { unfold extractStudentNames.
    rewrite (proj2 (String.eqb_neq cell "") Hne), Hslash. reflexivity. }
  set (name := Join_Fields cell).
  set (record := λ half : Z,
    {| l_Time := NewLessonTime date lessonNumber half 1 startTime endTime;
       l_Discipline := discipline; l_Teacher := teacher;
       l_Cabinet := cabinet;
       l_Group := if String.eqb name "" then "" else groupName;
       l_Student := name |}).
  change (Parse_names _ _ _ _ _ _ _ _ _) with [record 1; record 2].
  unfold Parse_finish. f_equal.
  assert (mergeKey (record 1) ≠ mergeKey (record 2)) as Hkeys.
  { unfold mergeKey, record. simpl. intros Heq.
    apply (inj (String.app _)) in Heq. apply (inj (String.app _)) in Heq.
    apply (inj (String.app _)) in Heq. apply (inj (String.app _)) in Heq.
    assert (pretty (1 : Z) = "1") as H1 by (by vm_compute).
    assert (pretty (2 : Z) = "2") as H2 by (by vm_compute).
    rewrite H1, H2 in Heq. discriminate Heq. }
  assert (mergeTeachers range_order [record 1; record 2] ≡ₚ
          [record 1; record 2]) as Hmerged.
  { apply (mergeTeachers_distinct_id range_order range_order_perm).
    change (mergeKey <$> [record 1; record 2])
      with [mergeKey (record 1); mergeKey (record 2)].
    apply NoDup_cons. split; [by intros Hin%list_elem_of_singleton|].
    apply NoDup_singleton. }
  apply Permutation_singleton_r.
  assert (∀ l, l = [record 1; record 2] ∨ l = [record 2; record 1] →
            filter (λ x, joinKey x = joinKey (record 1)) l = l ∧
            filter (λ x, joinKey x ≠ joinKey (record 1)) l = [] ∧
            join_emit (pair_map l) =
              {| l_Time := NewLessonTime date lessonNumber 0 2 startTime
                             endTime;
                 l_Discipline := discipline; l_Teacher := teacher;
                 l_Cabinet := cabinet;
                 l_Group := if String.eqb name "" then "" else groupName;
                 l_Student := name |}) as Hboth.
  { intros l [->| ->]; (split; [|split]).
    - by rewrite !filter_cons, !decide_True.
    - rewrite !filter_cons, !decide_False; [done|by intros ?..].
    - unfold pair_map, join_emit. simpl. simplify_map_eq. simpl.
      by rewrite !String.eqb_refl.
    - by rewrite !filter_cons, !decide_True.
    - rewrite !filter_cons, !decide_False; [done|by intros ?..].
    - unfold pair_map, join_emit. simpl. simplify_map_eq. simpl.
      by rewrite !String.eqb_refl. }
  symmetry in Hmerged. apply Permutation_length_2_inv in Hmerged.
  destruct (Hboth _ Hmerged) as (Hgroup & Hrest & Hemit).
  rewrite (joinIndLessons_split range_order range_order_perm _
             (joinKey (record 1))) by (rewrite Hgroup; by destruct Hmerged as [->| ->]).
  rewrite Hgroup, Hrest, Hemit.
  rewrite (joinIndLessons_fmap range_order). unfold join_map. simpl.
  by rewrite (range_empty range_order range_order_perm).
Qed.

End tabular_composition.

(** ** The roster file *)

Section find_first.

Context {A : Type} (P : A → Prop) `{!∀ x, Decision (P x)}.

Lemma find_snd_cons x l :
  snd <$> list_find P (x :: l) =
  if decide (P x) then Some x else snd <$> list_find P l.
Proof.
  cbn. destruct (decide (P x)); [done|].
  by destruct (list_find P l) as [[? ?]|].
Qed.

Lemma find_snd_skip l1 x l2 :
  ¬ P x →
  snd <$> list_find P (l1 ++ x :: l2) = snd <$> list_find P (l1 ++ l2).
Proof.
  intros Hx. induction l1 as [|y l1 IH].
  - by rewrite !app_nil_l, find_snd_cons, decide_False.
  - rewrite <- !app_comm_cons, !find_snd_cons. by rewrite IH.
Qed.

Lemma find_snd_first l1 x l2 :
  Forall (λ y, ¬ P y) l1 → P x →
  snd <$> list_find P (l1 ++ x :: l2) = Some x.
Proof.
  intros Hl1 Hx. induction Hl1 as [|y l1 Hy _ IH].
  - by rewrite app_nil_l, find_snd_cons, decide_True.
  - by rewrite <- app_comm_cons, find_snd_cons, decide_False.
Qed.

(** The first match splits the list around it. *)
Lemma list_find_split l i x :
  list_find P l = Some (i, x) →
  ∃ l1 l2, l = l1 ++ x :: l2 ∧ Forall (λ y, ¬ P y) l1 ∧ P x ∧
           take i l ++ drop (S i) l = l1 ++ l2 ∧
           ∀ u, <[i := u]> l = l1 ++ u :: l2.
Proof.
  intros (Hi & Hx & Hbefore)%list_find_Some.
  exists (take i l), (drop (S i) l). split_and!; [|  |done|done|].
  - by rewrite take_drop_middle.
  - apply Forall_forall. intros y Hy.
    apply list_elem_of_lookup in Hy as [j Hj].
    pose proof (lookup_lt_Some _ _ _ Hj) as Hlt. rewrite length_take in Hlt.
    rewrite lookup_take_lt in Hj by lia. apply (Hbefore j); [done|lia].
  - intros u. rewrite insert_take_drop; [done|]. by eapply lookup_lt_Some.
Qed.

End find_first.

Section roster_extras.

Variable Bytes : Type.
Variable yaml_Unmarshal : Bytes → result (list Student).
Variable yaml_Marshal : list Student → result Bytes.
Variable os_WriteFile : result Bytes → Bytes → option string * result Bytes.

Local Abbreviation loadStudentsUnsafe :=
  (Students.loadStudentsUnsafe Bytes yaml_Unmarshal).
Local Abbreviation saveStudentsUnsafe :=
  (Students.saveStudentsUnsafe Bytes yaml_Marshal os_WriteFile).
Local Abbreviation AddStudent :=
  (Students.AddStudent Bytes yaml_Unmarshal yaml_Marshal os_WriteFile).
Local Abbreviation GetStudent := (Students.GetStudent Bytes yaml_Unmarshal).
Local Abbreviation UpdateStudent :=
  (Students.UpdateStudent Bytes yaml_Unmarshal yaml_Marshal os_WriteFile).
Local Abbreviation DeleteStudent :=
  (Students.DeleteStudent Bytes yaml_Unmarshal yaml_Marshal os_WriteFile).

Lemma GetStudent_find name f students :
  loadStudentsUnsafe f = Ok students →
  GetStudent name f =
  match snd <$> list_find (λ s, s_Name s = name) students with
  | Some s => Ok s
  | None => Err ("студент " +:+ name +:+ " не найден")
  end.
Proof.
  intros Hload. unfold Students.GetStudent. rewrite Hload.
  by destruct (list_find _ students) as [[? ?]|].
Qed.

Lemma list_find_name_None name (students : list Student) :
  name ∉ s_Name <$> students →
  list_find (λ s, s_Name s = name) students = None.
Proof.
  intros Hname. apply list_find_None, Forall_forall. intros s Hs Heq.
  apply Hname. rewrite <- Heq. by apply list_elem_of_fmap_2.
Qed.

(** X25. A failed name check leaves the roster file untouched: adding a student
    whose name is already in the roster, and looking up, updating or
    deleting a name that is not in it, return the error of the check
    without writing anything. *)
Theorem name_check_fails_without_write f students name student updated :
  loadStudentsUnsafe f = Ok students →
  (s_Name student ∈ s_Name <$> students →
   AddStudent student f =
   (Some ("студент " +:+ s_Name student +:+ " уже существует"), f)) ∧
  (name ∉ s_Name <$> students →
   GetStudent name f = Err ("студент " +:+ name +:+ " не найден") ∧
   UpdateStudent name updated f =
     (Some ("студент " +:+ name +:+ " не найден"), f) ∧
   DeleteStudent name f = (Some ("студент " +:+ name +:+ " не найден"), f)).
Proof.
  intros Hload. split.
  - intros (s & Hname & Hs)%list_elem_of_fmap. unfold Students.AddStudent.
    rewrite Hload.
    destruct (list_find_elem_of (λ s', s_Name s' = s_Name student) students s)
      as [found ->]; done.
  - intros Hname%list_find_name_None.
    unfold Students.GetStudent, Students.UpdateStudent,
      Students.DeleteStudent.
    by rewrite Hload, Hname.
Qed.

Hypothesis Marshal_Unmarshal : ∀ students data,
  yaml_Marshal students = Ok data → yaml_Unmarshal data = Ok students.
Hypothesis WriteFile_stores : ∀ f data f',
  os_WriteFile f data = (None, f') → f' = Ok data.

Lemma load_after_save students f f' :
  saveStudentsUnsafe students f = (None, f') →
  loadStudentsUnsafe f' = Ok students.
Proof.
  unfold Students.saveStudentsUnsafe.
  destruct (yaml_Marshal students) as [data|] eqn:Hdata; [|done].
  destruct (os_WriteFile f data) as [[err|] f''] eqn:Hwrite; [done|].
  intros [= <-]. apply WriteFile_stores in Hwrite as ->.
  unfold Students.loadStudentsUnsafe.
  by rewrite (Marshal_Unmarshal _ _ Hdata).
Qed.

(** X26. A student that was added without error is the last of the roster read
    back from the file, the students before it are unchanged, and looking up
    its name now returns it; its name was not in the roster before. *)
Theorem AddStudent_then_GetStudent student f f' :
  AddStudent student f = (None, f') →
  ∃ students,
    loadStudentsUnsafe f = Ok students ∧
    (s_Name student ∉ s_Name <$> students) ∧
    loadStudentsUnsafe f' = Ok (students ++ [student]) ∧
    GetStudent (s_Name student) f' = Ok student.
Proof.
  unfold Students.AddStudent at 1.
  destruct (loadStudentsUnsafe f) as [students|] eqn:Hload; [|done].
  destruct (list_find _ students) as [?|] eqn:Hfind; [done|].
  intros Hsave%load_after_save. exists students.
  apply list_find_None in Hfind.
  split_and!; [done| |done|].
  - intros (s & Hname & Hs)%list_elem_of_fmap.
    rewrite Forall_forall in Hfind. by apply (Hfind s).
  - rewrite (GetStudent_find _ _ _ Hsave).
    by rewrite (find_snd_first _ students student []).
Qed.

(** X27. Deleting a name from a roster without duplicate names removes its one
    student: the name is no longer found, every other name is looked up as
    before, and the roster read back is the old one without that student. *)
Theorem DeleteStudent_then_GetStudent name f f' students :
  loadStudentsUnsafe f = Ok students → NoDup (s_Name <$> students) →
  DeleteStudent name f = (None, f') →
  GetStudent name f' = Err ("студент " +:+ name +:+ " не найден") ∧
  (∀ other, other ≠ name → GetStudent other f' = GetStudent other f) ∧
  ∃ before s after,
    students = before ++ s :: after ∧ s_Name s = name ∧
    loadStudentsUnsafe f' = Ok (before ++ after).
Proof.
  intros Hload Hnd. unfold Students.DeleteStudent. rewrite Hload.
  destruct (list_find _ students) as [[i s]|] eqn:Hfind; [|done].
  apply list_find_split in Hfind
    as (before & after & -> & Hbefore & Hs & -> & _).
  intros Hsave%load_after_save. split_and!.
  - rewrite (GetStudent_find _ _ _ Hsave).
    rewrite list_find_name_None; [done|].
    rewrite fmap_app, fmap_cons in Hnd.
    apply NoDup_app in Hnd as (_ & Hdisjoint & Hnd).
    apply NoDup_cons in Hnd as [Hafter _].
    rewrite fmap_app, elem_of_app. intros [Hin|Hin].
    + apply (Hdisjoint _ Hin). rewrite Hs. left.
    + apply Hafter. by rewrite Hs.
  - intros other Hother.
    rewrite (GetStudent_find _ _ _ Hsave), (GetStudent_find _ _ _ Hload).
    rewrite (find_snd_skip _ before s after); [done|]. by rewrite Hs.
  - by exists before, s, after.
Qed.

(** X28. Updating a student under its own name replaces the first student of
    that name: looking the name up returns the new data, every other name
    is looked up as before, and the roster keeps its length and order. *)
Theorem UpdateStudent_then_GetStudent name updated f f' students :
  loadStudentsUnsafe f = Ok students → s_Name updated = name →
  UpdateStudent name updated f = (None, f') →
  GetStudent name f' = Ok updated ∧
  (∀ other, other ≠ name → GetStudent other f' = GetStudent other f) ∧
  ∃ before s after,
    students = before ++ s :: after ∧ s_Name s = name ∧
    loadStudentsUnsafe f' = Ok (before ++ updated :: after).
Proof.
  intros Hload Hname. unfold Students.UpdateStudent. rewrite Hload.
  destruct (list_find _ students) as [[i s]|] eqn:Hfind; [|done].
  apply list_find_split in Hfind
    as (before & after & -> & Hbefore & Hs & _ & Hinsert).
  rewrite Hinsert. intros Hsave%load_after_save. split_and!.
  - rewrite (GetStudent_find _ _ _ Hsave).
    by rewrite (find_snd_first _ before updated after).
  - intros other Hother.
    rewrite (GetStudent_find _ _ _ Hsave), (GetStudent_find _ _ _ Hload).
    rewrite !find_snd_skip; [done|by rewrite Hs|by rewrite Hname].
  - by exists before, s, after.
Qed.

(** X29. Names stay unique: starting from a roster without duplicate names, a
    successful add or delete, and a successful update that keeps the
    student's name, leave a roster without duplicate names in the file. *)
Theorem roster_names_stay_unique f f' students name student updated :
  loadStudentsUnsafe f = Ok students → NoDup (s_Name <$> students) →
  AddStudent student f = (None, f') ∨ DeleteStudent name f = (None, f') ∨
  (s_Name updated = name ∧ UpdateStudent name updated f = (None, f')) →
  ∃ students', loadStudentsUnsafe f' = Ok students' ∧ NoDup (s_Name <$> students').
Proof.
  intros Hload Hnd [Hadd|[Hdelete|[Hname Hupdate]]].
  - unfold Students.AddStudent in Hadd. rewrite Hload in Hadd.
    destruct (list_find _ students) as [?|] eqn:Hfind; [done|].
    apply load_after_save in Hadd. eexists. split; [done|].
    rewrite fmap_app. apply NoDup_app. split_and!; [done| |apply NoDup_singleton].
    intros n (s & -> & Hs)%list_elem_of_fmap Hin%list_elem_of_singleton.
    apply list_find_None in Hfind. rewrite Forall_forall in Hfind.
    by apply (Hfind s).
  - unfold Students.DeleteStudent in Hdelete. rewrite Hload in Hdelete.
    destruct (list_find _ students) as [[i s]|] eqn:Hfind; [|done].
    apply load_after_save in Hdelete. eexists. split; [done|].
    rewrite <- delete_take_drop. eapply sublist_NoDup; [exact Hnd|].
    apply fmap_sublist, sublist_delete.
  - unfold Students.UpdateStudent in Hupdate. rewrite Hload in Hupdate.
    destruct (list_find _ students) as [[i s]|] eqn:Hfind; [|done].
    apply load_after_save in Hupdate. eexists. split; [done|].
    apply list_find_Some in Hfind as (Hi & Hs & _).
    rewrite list_fmap_insert, list_insert_id; [done|].
    by rewrite list_lookup_fmap, Hi, Hname, <- Hs.
Qed.

End roster_extras.

Lemma name_check_fails_without_write_witness :
  (s_Name Validator.ivanov ∈ s_Name <$> [Validator.ivanov] →
   Students.AddStudent (list Student) Ok Ok Students.sample_WriteFile
     Validator.ivanov (Ok [Validator.ivanov]) =
   (Some ("студент " +:+ s_Name Validator.ivanov +:+ " уже существует"),
    Ok [Validator.ivanov])) ∧
  ("Петрова М.М." ∉ s_Name <$> [Validator.ivanov] →
   Students.GetStudent (list Student) Ok "Петрова М.М."
     (Ok [Validator.ivanov]) =
     Err ("студент " +:+ "Петрова М.М." +:+ " не найден") ∧
   Students.UpdateStudent (list Student) Ok Ok Students.sample_WriteFile
     "Петрова М.М." Students.petrova (Ok [Validator.ivanov]) =
     (Some ("студент " +:+ "Петрова М.М." +:+ " не найден"),
      Ok [Validator.ivanov]) ∧
   Students.DeleteStudent (list Student) Ok Ok Students.sample_WriteFile
     "Петрова М.М." (Ok [Validator.ivanov]) =
     (Some ("студент " +:+ "Петрова М.М." +:+ " не найден"),
      Ok [Validator.ivanov])).
Proof.
  apply (name_check_fails_without_write (list Student) Ok Ok
           Students.sample_WriteFile (Ok [Validator.ivanov])
           [Validator.ivanov]).
  reflexivity.
Defined.

Lemma AddStudent_then_GetStudent_witness :
  ∃ students,
    Students.loadStudentsUnsafe (list Student) Ok (Ok [Validator.ivanov]) =
      Ok students ∧
    (s_Name Students.petrova ∉ s_Name <$> students) ∧
    Students.loadStudentsUnsafe (list Student) Ok
      (Ok [Validator.ivanov; Students.petrova]) =
      Ok (students ++ [Students.petrova]) ∧
    Students.GetStudent (list Student) Ok (s_Name Students.petrova)
      (Ok [Validator.ivanov; Students.petrova]) = Ok Students.petrova.
Proof.
  apply (AddStudent_then_GetStudent (list Student) Ok Ok
           Students.sample_WriteFile).
  - by intros students data [= ->].
  - by intros f data f' [= <-].
  - reflexivity.
Defined.

Lemma DeleteStudent_then_GetStudent_witness :
  Students.GetStudent (list Student) Ok "Иванов И.И." (Ok [Students.petrova]) =
    Err ("студент " +:+ "Иванов И.И." +:+ " не найден") ∧
  (∀ other, other ≠ "Иванов И.И." →
     Students.GetStudent (list Student) Ok other (Ok [Students.petrova]) =
     Students.GetStudent (list Student) Ok other
       (Ok [Validator.ivanov; Students.petrova])) ∧
  ∃ before s after,
    [Validator.ivanov; Students.petrova] = before ++ s :: after ∧
    s_Name s = "Иванов И.И." ∧
    Students.loadStudentsUnsafe (list Student) Ok (Ok [Students.petrova]) =
      Ok (before ++ after).
Proof.
  apply (DeleteStudent_then_GetStudent (list Student) Ok Ok
           Students.sample_WriteFile).
  - by intros students data [= ->].
  - by intros f data f' [= <-].
  - reflexivity.
  - apply (bool_decide_unpack _). by vm_compute.
  - reflexivity.
Defined.

Lemma UpdateStudent_then_GetStudent_witness :
  Students.GetStudent (list Student) Ok "Иванов И.И."
    (Ok [mkStudent "Иванов И.И." "МД-22-о" "Музыкальный" 3;
         Students.petrova]) =
    Ok (mkStudent "Иванов И.И." "МД-22-о" "Музыкальный" 3) ∧
  (∀ other, other ≠ "Иванов И.И." →
     Students.GetStudent (list Student) Ok other
       (Ok [mkStudent "Иванов И.И." "МД-22-о" "Музыкальный" 3;
            Students.petrova]) =
     Students.GetStudent (list Student) Ok other
       (Ok [Validator.ivanov; Students.petrova])) ∧
  ∃ before s after,
    [Validator.ivanov; Students.petrova] = before ++ s :: after ∧
    s_Name s = "Иванов И.И." ∧
    Students.loadStudentsUnsafe (list Student) Ok
      (Ok [mkStudent "Иванов И.И." "МД-22-о" "Музыкальный" 3;
           Students.petrova]) =
      Ok (before ++ mkStudent "Иванов И.И." "МД-22-о" "Музыкальный" 3 :: after).
Proof.
  apply (UpdateStudent_then_GetStudent (list Student) Ok Ok
           Students.sample_WriteFile).
  - by intros students data [= ->].
  - by intros f data f' [= <-].
  - reflexivity.
  - reflexivity.
  - reflexivity.
Defined.

Lemma roster_names_stay_unique_witness :
  ∃ students',
    Students.loadStudentsUnsafe (list Student) Ok
      (Ok [Validator.ivanov; Students.petrova]) = Ok students' ∧
    NoDup (s_Name <$> students').
Proof.
  apply (roster_names_stay_unique (list Student) Ok Ok
           Students.sample_WriteFile) with
    (f := Ok [Validator.ivanov]) (students := [Validator.ivanov]) (name := "")
    (student := Students.petrova) (updated := Students.petrova).
  - by intros students data [= ->].
  - by intros f data f' [= <-].
  - reflexivity.
  - apply (bool_decide_unpack _). by vm_compute.
  - left. reflexivity.
Defined.

Lemma joinIndLessons_keys_witness :
  NoDup (joinKey <$>
           IndividualSchedule.joinIndLessons range_in_order half_pair_records) ∧
  ∀ k, k ∈ joinKey <$>
             IndividualSchedule.joinIndLessons range_in_order half_pair_records
       ↔ k ∈ joinKey <$> half_pair_records.
Proof.
  apply (joinIndLessons_keys range_in_order range_in_order_perm).
  repeat (apply Forall_cons; split; [simpl; lia|]). by apply Forall_nil.
Defined.

Lemma single_name_cell_full_period_witness :
  ∃ names,
    IndividualSchedule.extractStudentNames id id "Иванов И.И." = Ok names ∧
    IndividualSchedule.Parse_finish range_in_order
      (Parse_names march10 1 "Вокал" "Петров А.А." "К3-21" "МД-21-о"
         (mkTime 2025 3 10 8 30) (mkTime 2025 3 10 10 0) names) =
    Ok [{| l_Time := NewLessonTime march10 1 0 2 (mkTime 2025 3 10 8 30)
                       (mkTime 2025 3 10 10 0);
           l_Discipline := "Вокал"; l_Teacher := "Петров А.А.";
           l_Cabinet := "К3-21";
           l_Group := if String.eqb (id "Иванов И.И.") "" then ""
                      else "МД-21-о";
           l_Student := id "Иванов И.И." |}].
Proof.
  apply (single_name_cell_full_period range_in_order range_in_order_perm
           id id "Иванов И.И.").
  - discriminate.
  - reflexivity.
Defined.

(** ** The grid of the report *)

Section report_extras.

Import web.

Variable range_order : ∀ A : Type, list A → list A.
Hypothesis range_order_perm : ∀ A (l : list A), range_order A l ≡ₚ l.
Variable Weekday : time_Time → nat.
Variable WeekStartString WeekEndString : LessonTime → string.
Variable ToLower : string → string.
Hypothesis Weekday_range : ∀ t, (Weekday t < 7)%nat.

Local Abbreviation DayName := (DayName Weekday).
Local Abbreviation cell_of := (cell_of Weekday ToLower).

Lemma DayName_Some t : ∃ dayName, DayName t = Some dayName.
Proof.
  unfold web.DayName. apply lookup_lt_is_Some. apply Weekday_range.
Qed.

(** The key under which the first loop files a lesson. *)
Lemma lessonMap_of_group_by lessons :
  ∃ key : Lesson → lessonKey,
    lessonMap_of Weekday ToLower lessons = Some (group_by key lessons) ∧
    ∀ lesson, ∃ dayName, DayName (l_Time lesson) = Some dayName ∧
                         key lesson = key_of ToLower lesson dayName.
Proof.
  exists (λ lesson,
    key_of ToLower lesson (default "" (DayName (l_Time lesson)))).
  split.
  - unfold lessonMap_of, group_by. generalize (∅ : gmap lessonKey (list Lesson)).
    induction lessons as [|lesson lessons IH]; intros m; [done|].
    cbn [foldl]. rewrite <- IH. f_equal. simpl.
    by destruct (DayName_Some (l_Time lesson)) as [dayName ->].
  - intros lesson. destruct (DayName_Some (l_Time lesson)) as [dayName Hday].
    exists dayName. by rewrite Hday.
Qed.

Lemma dayIndex_range name i : dayIndex !! name = Some i → 0 ≤ i < 6.
Proof.
  unfold dayIndex. intros Hi.
  repeat (apply lookup_insert_Some in Hi as [[_ <-]|[_ Hi]]; [lia|]).
  by rewrite lookup_empty in Hi.
Qed.

Local Abbreviation grid_inv := (grid_inv Weekday ToLower).

Lemma empty_slots_inv v lessons : grid_inv v lessons empty_slots.
Proof.
  split; [split|].
  - by vm_compute.
  - unfold empty_slots. apply Forall_forall. intros slot Hslot.
    apply list_elem_of_lookup in Hslot as [i Hi].
    rewrite list_lookup_imap in Hi.
    destruct (replicate 6 (mkSlot 0 []) !! i); [|done].
    injection Hi as <-. done.
  - intros s d slot day Hslot Hday Hne. exfalso. apply Hne.
    unfold empty_slots in Hslot. rewrite list_lookup_imap in Hslot.
    destruct (replicate 6 (mkSlot 0 []) !! s); [|done].
    injection Hslot as <-. simpl in Hday.
    by apply (lookup_replicate_1 6 zeroDay) in Hday as [-> _].
Qed.

Lemma fill_inv v lessons (key : Lesson → lessonKey) slots first rest :
  (∀ lesson, ∃ dayName, DayName (l_Time lesson) = Some dayName ∧
                        key lesson = key_of ToLower lesson dayName) →
  first ∈ lessons → GoInt.in_range (Number (l_Time first)) →
  grid_inv v lessons slots →
  ∃ slots', fill v slots (key first, first :: rest) = Some slots' ∧
            grid_inv v lessons slots'.
Proof.
  intros Hkey Hfirst Hrange [[Hnumbers Hdays] Hcells].
  destruct (Hkey first) as (dayName & HdayName & Hk).
  unfold fill. cbn [fst snd]. rewrite Hk.
  unfold drawn, key_of, k_Student, k_Group, k_Date, k_DayName, k_Number,
    k_Discipline, k_Teacher. cbn [fst snd].
  destruct (_ || _) eqn:Hdrawn; [|by eexists].
  set (slotIdx := GoInt.sub (Number (l_Time first)) 1).
  destruct (Z.leb_spec 0 slotIdx) as [Hlo|]; [|by eexists].
  destruct (Z.ltb_spec slotIdx 6) as [Hhi|]; [|by eexists].
  cbn [andb].
  destruct (dayIndex !! ToLower dayName) as [dayIdx|] eqn:HdayIdx;
    [|by eexists].
  pose proof (dayIndex_range _ _ HdayIdx) as Hidx.
  cbn [head mbind option_bind].
  assert (length slots = 6%nat) as Hlen
    by (by rewrite <- (length_fmap sl_Number), Hnumbers).
  destruct (lookup_lt_is_Some_2 slots (Z.to_nat slotIdx)) as [slot Hslot];
    [lia|].
  rewrite Hslot. cbn [mbind option_bind].
  rewrite Forall_forall in Hdays.
  assert (length (sl_Days slot) = 6%nat) as Hlen'
    by (by eapply Hdays, list_elem_of_lookup_2).
  rewrite Hlen'. change (GoInt.len 6) with 6.
  destruct (Z.leb_spec 0 dayIdx); [|lia].
  destruct (Z.ltb_spec dayIdx 6); [|lia]. cbn [andb].
  eexists. split; [done|]. split; [split|].
  - rewrite list_fmap_insert. cbn [sl_Number].
    rewrite list_insert_id; [done|]. by rewrite list_lookup_fmap, Hslot.
  - apply Forall_insert.
    + by apply Forall_forall.
    + cbn [sl_Days]. by rewrite length_insert.
  - assert (Number (l_Time first) = slotIdx + 1) as Hnumber.
    { unfold slotIdx, GoInt.sub in *.
      unfold GoInt.in_range, GoInt.int_min, GoInt.int_max, GoInt.wrap in *.
      destruct (decide (Number (l_Time first) = - 2 ^ 63)) as [He|Hne].
      - rewrite He in Hhi. vm_compute in Hhi. done.
      - rewrite Z.mod_small; lia. }
    intros s d slot' day Hs Hd Hne.
    destruct (decide (s = Z.to_nat slotIdx)) as [->|Hs'].
    + rewrite list_lookup_insert_eq in Hs by lia. injection Hs as <-.
      cbn [sl_Days] in Hd.
      destruct (decide (d = Z.to_nat dayIdx)) as [->|Hd'].
      * rewrite list_lookup_insert_eq in Hd by lia. injection Hd as <-.
        exists first. split; [done|]. unfold web.cell_of.
        cbn [d_Teacher d_Discipline d_Hours d_IsViolation].
        split_and!; [|lia| |done|done|done|].
        -- unfold shown. apply orb_prop in Hdrawn as [Hg|Hs].
           ++ apply andb_prop in Hg as [Hs Hg]. left.
              by rewrite String.eqb_eq in Hs, Hg.
           ++ right. by apply String.eqb_eq.
        -- exists dayName. split; [done|]. by rewrite Z2Nat.id by lia.
        -- apply String.eqb_eq.
      * rewrite list_lookup_insert_ne in Hd by done.
        by apply (Hcells (Z.to_nat slotIdx) d slot).
    + rewrite list_lookup_insert_ne in Hs by done.
      by apply (Hcells s d slot').
Qed.

Lemma slots_of_inv v lessons (key : Lesson → lessonKey) :
  (∀ lesson, ∃ dayName, DayName (l_Time lesson) = Some dayName ∧
                        key lesson = key_of ToLower lesson dayName) →
  Forall (λ l, GoInt.in_range (Number (l_Time l))) lessons →
  ∃ slots, slots_of range_order (group_by key lessons) v = Some slots ∧
           grid_inv v lessons slots.
Proof.
  intros Hkey Hrange. unfold slots_of.
  assert (Forall (λ entry : lessonKey * list Lesson,
            ∃ first rest, entry = (key first, first :: rest) ∧
                          first ∈ lessons)
            (range range_order (group_by key lessons))) as Hentries.
  { apply Forall_forall. intros [k g] Hin.
    apply (range_group_by_nonempty range_order range_order_perm) in Hin
      as (first & rest & -> & <- & Hfirst).
    by exists first, rest. }
  pose proof (empty_slots_inv v lessons) as Hinv.
  revert Hentries Hinv. generalize empty_slots.
  induction (range range_order (group_by key lessons)) as [|entry entries IH];
    intros slots Hentries Hinv.
  - by exists slots.
  - apply Forall_cons in Hentries
      as [(first & rest & -> & Hfirst) Hentries].
    cbn [foldl mbind option_bind].
    destruct (fill_inv v lessons key slots first rest Hkey Hfirst)
      as (slots' & -> & Hinv'); [|done|].
    + rewrite Forall_forall in Hrange. by apply Hrange.
    + by apply IH.
Qed.

(** X30. The report data never fail on an index, and hold one entry per
    violation, in order, with the violation's fields and a grid of six rows
    numbered 1 to 6 with six cells each. Every cell of a grid that is not
    empty draws a lesson of the list that the grid shows (a group lesson of
    the violation's group or a lesson of its student), whose period is the
    row and whose weekday is the column, with that lesson's instructor,
    discipline and hours, and is marked exactly when the lesson is on the
    date of the violation. Lessons of period 7 or later, or on a Sunday,
    are never drawn. *)
Theorem prepareTemplateData_grid violations lessons :
  Forall (λ l, GoInt.in_range (Number (l_Time l))) lessons →
  ∃ data,
    prepareTemplateData range_order Weekday WeekStartString WeekEndString
      ToLower violations lessons = Some data ∧
    Forall2 (λ v vd,
      vd_StudentName vd = v_StudentName v ∧ vd_Group vd = v_Group v ∧
      vd_Year vd = v_Year v ∧ vd_Type vd = v_Type v ∧
      vd_Hours vd = v_Hours v ∧ grid_wf (vd_Slots vd) ∧
      (∀ s d slot day,
         vd_Slots vd !! s = Some slot → sl_Days slot !! d = Some day →
         day ≠ zeroDay →
         ∃ lesson, lesson ∈ lessons ∧ cell_of v lesson s d day))
      violations (Violations data).
Proof.
  intros Hrange. unfold prepareTemplateData.
  destruct (lessonMap_of_group_by lessons) as (key & -> & Hkey).
  cbn [mbind option_bind].
  assert (∃ rows,
    mapM (λ v,
      slots ← slots_of range_order (group_by key lessons) v;
      Some (mkViolationData (v_StudentName v) (v_Group v) (v_Year v)
              (v_Type v) (v_Hours v) slots)) violations = Some rows ∧
    Forall2 (λ v vd,
      vd_StudentName vd = v_StudentName v ∧ vd_Group vd = v_Group v ∧
      vd_Year vd = v_Year v ∧ vd_Type vd = v_Type v ∧
      vd_Hours vd = v_Hours v ∧ grid_inv v lessons (vd_Slots vd))
      violations rows) as (rows & -> & Hrows).
  { induction violations as [|v violations (rows & IH & Hrows)].
    - exists []. split; [done|constructor].
    - destruct (slots_of_inv v lessons key Hkey Hrange)
        as (slots & Hslots & Hinv).
      eexists. split.
      + cbn [mapM]. rewrite Hslots. cbn [mbind option_bind]. rewrite IH.
        reflexivity.
      + constructor; [|done]. by split_and!. }
  eexists. split; [done|]. cbn [Violations].
  eapply Forall2_impl; [exact Hrows|].
  intros v vd (? & ? & ? & ? & ? & ? & ?). by split_and!.
Qed.

End report_extras.

Lemma prepareTemplateData_grid_witness :
  ∃ data,
    web.prepareTemplateData range_in_order web.sample_Weekday
      (λ _, "2025-03-10") (λ _, "2025-03-16") id
      [NewViolation "Иванов И.И." "МД-21-о" 2 Validator.march10
         Validator.LoadExceeded 12] Validator.six_lessons = Some data ∧
    Forall2 (λ v vd,
      web.vd_StudentName vd = v_StudentName v ∧
      web.vd_Group vd = v_Group v ∧
      web.vd_Year vd = v_Year v ∧ web.vd_Type vd = v_Type v ∧
      web.vd_Hours vd = v_Hours v ∧ web.grid_wf (web.vd_Slots vd) ∧
      (∀ s d slot day,
         web.vd_Slots vd !! s = Some slot →
         web.sl_Days slot !! d = Some day →
         day ≠ web.zeroDay →
         ∃ lesson, lesson ∈ Validator.six_lessons ∧
                   web.cell_of web.sample_Weekday id v lesson s d day))
      [NewViolation "Иванов И.И." "МД-21-о" 2 Validator.march10
         Validator.LoadExceeded 12]
      (web.Violations data).
Proof.
  apply (prepareTemplateData_grid range_in_order range_in_order_perm
           web.sample_Weekday (λ _, "2025-03-10") (λ _, "2025-03-16") id).
  - intros t. unfold web.sample_Weekday. lia.
  - unfold Validator.six_lessons, GoInt.in_range, GoInt.int_min,
      GoInt.int_max.
    repeat (apply Forall_cons; split; [simpl; lia|]). by apply Forall_nil.
Defined.
